(** * VecMat: vectors, matrices and quaternions of [Inc/VecMat.h]

    A shallow embedding of the vector, matrix and quaternion library.
    The code is written once, over a carrier of scalars with the
    operations the C++ source applies to [float] (and to [double] inside
    [InvertMatrix4x4]).  Two carriers are provided:

    - [binary32] / [binary64]: IEEE 754 single and double precision as
      specified by [SpecFloat]: every operation, [sqrt] included, rounds
      once, to nearest even (no fused multiply-add, no excess
      precision); a NaN compares false with everything.  This is the
      arithmetic of the compiled code, and the statements about what
      the code returns are made in it;
    - [exactR]: the real numbers, the arithmetic the algorithms were
      designed in, used for the algebraic laws that rounding breaks and
      for [Slerp], whose [sin] and [acos] come from [<math.h>] and have
      no binary32 specification.

    A function that writes through a reference or a pointer returns the
    final content of its target next to its result.

    The class [Character] of [Apps/Siege.cpp], which animates a sprite
    sheet through tables of [int2], follows the library: its methods
    are functions on the record of its members, with no result where
    the C++ has none (a division by zero, a read outside an array). *)

From Stdlib Require Import ZArith List Bool Lia.
From Stdlib Require Import Floats.SpecFloat.
From Stdlib Require Import Reals Lra Psatz RNsatz.
Import ListNotations.

Set Implicit Arguments.

(** ** Scalars *)

(** The operations of the source on its scalar type: [+ - * /], unary
    minus, [sqrt], [fabs], the comparisons [<] and [==] ([a > b] is
    [b < a], [a >= b] is [b <= a]) and the conversion of an integer
    literal. *)
Class Scalar (F : Type) : Type := {
  fadd : F -> F -> F;
  fsub : F -> F -> F;
  fmul : F -> F -> F;
  fdiv : F -> F -> F;
  fneg : F -> F;
  fsqrt : F -> F;
  fabs : F -> F;
  flt : F -> F -> bool;
  fle : F -> F -> bool;
  feq : F -> F -> bool;
  fofZ : Z -> F
}.

Declare Scope fl_scope.
Delimit Scope fl_scope with fl.
Infix "+" := fadd : fl_scope.
Infix "-" := fsub : fl_scope.
Infix "*" := fmul : fl_scope.
Infix "/" := fdiv : fl_scope.
Notation "- x" := (fneg x) : fl_scope.
Infix "<?" := flt : fl_scope.
Infix "<=?" := fle : fl_scope.
Infix "==?" := feq (at level 70, no associativity) : fl_scope.
Notation "a >? b" := (flt b a) (at level 70, no associativity) : fl_scope.
Notation "a >=? b" := (fle b a) (at level 70, no associativity) : fl_scope.

(** Conversions between [float] and [double]: the cast [(double) x] and
    the cast [(float) d]. *)
Class Widen (F D : Type) : Type := {
  widen : F -> D;
  narrow : D -> F
}.

(** *** IEEE 754 binary32 and binary64 *)

Abbreviation float32 := spec_float (only parsing).
Abbreviation float64 := spec_float (only parsing).

Definition b32_ofZ (z : Z) : float32 := binary_normalize 24 128 z 0 false.
Definition b64_ofZ (z : Z) : float64 := binary_normalize 53 1024 z 0 false.

#[export] Instance binary32 : Scalar float32 := {
  fadd := SFadd 24 128;
  fsub := SFsub 24 128;
  fmul := SFmul 24 128;
  fdiv := SFdiv 24 128;
  fneg := SFopp;
  fsqrt := SFsqrt 24 128;
  fabs := SFabs;
  flt := SFltb;
  fle := SFleb;
  feq := SFeqb;
  fofZ := b32_ofZ
}.

Definition binary64 : Scalar float64 := {|
  fadd := SFadd 53 1024;
  fsub := SFsub 53 1024;
  fmul := SFmul 53 1024;
  fdiv := SFdiv 53 1024;
  fneg := SFopp;
  fsqrt := SFsqrt 53 1024;
  fabs := SFabs;
  flt := SFltb;
  fle := SFleb;
  feq := SFeqb;
  fofZ := b64_ofZ
|}.

(** [(double) x] is exact; [(float) d] rounds to nearest even and
    overflows to an infinity. *)
Definition b32_to_b64 (x : float32) : float64 :=
  match x with
  | S754_finite s m e => binary_round 53 1024 s m e
  | _ => x
  end.

Definition b64_to_b32 (d : float64) : float32 :=
  match d with
  | S754_finite s m e => binary_round 24 128 s m e
  | _ => d
  end.

Definition widen_b32_b64 : Widen float32 float64 :=
  {| widen := b32_to_b64; narrow := b64_to_b32 |}.

(** *** Exact arithmetic *)

Definition Rltb (a b : R) : bool := if Rlt_dec a b then true else false.
Definition Rleb (a b : R) : bool := if Rle_dec a b then true else false.
Definition Reqb (a b : R) : bool := if Req_dec_T a b then true else false.

#[export] Instance exactR : Scalar R := {
  fadd := Rplus;
  fsub := Rminus;
  fmul := Rmult;
  fdiv := Rdiv;
  fneg := Ropp;
  fsqrt := sqrt;
  fabs := Rabs;
  flt := Rltb;
  fle := Rleb;
  feq := Reqb;
  fofZ := IZR
}.

#[export] Instance widen_exact : Widen R R := {
  widen := fun x => x;
  narrow := fun x => x
}.

(** ** The library, over any carrier *)

(** [for (int i = 0; i < n; i++) body], threading the state. *)
Definition for_n {S : Type} (n : nat) (body : nat -> S -> S) (s : S) : S :=
  fold_left (fun s i => body i s) (seq 0 n) s.

Section VecMat.

Context {F : Type} {SF : Scalar F}.
Local Open Scope fl_scope.

(** A decimal literal [n/d] of the source, such as [.25f] = 1/4: both
    integers are exactly representable, so the quotient is the
    correctly rounded literal. *)
Definition lit (n d : Z) : F := fofZ n / fofZ d.

Definition zero : F := fofZ 0.
Definition one : F := fofZ 1.
Definition two : F := fofZ 2.

(** [<float.h>]: [FLT_EPSILON] is 2^-23 and [FLT_MAX] is
    (2^24 - 1) * 2^104. *)
Definition FLT_EPSILON : F := lit 1 8388608.
Definition FLT_MAX : F := fofZ (16777215 * 2 ^ 104).

(** *** vec2 *)

Record vec2 : Type := Vec2 { x2 : F; y2 : F }.

(** [vec2(float s = 0)] *)
Definition vec2_s (s : F) : vec2 := Vec2 s s.

Definition vec2_neg (v : vec2) : vec2 := Vec2 (- x2 v) (- y2 v).
Definition vec2_sub (a v : vec2) : vec2 := Vec2 (x2 a - x2 v) (y2 a - y2 v).

(** [Bounds(vec2 *points, int npoints, vec2 &min, vec2 &max)]: the
    array [points[0..npoints-1]] is the list; the result is the
    returned span with the final [min] and [max]. *)
Definition Bounds2_step (mm : vec2 * vec2) (p : vec2) : vec2 * vec2 :=
  let (min, max) := mm in
  let min := Vec2 (if x2 min <? x2 p then x2 min else x2 p)
                  (if y2 min <? y2 p then y2 min else y2 p) in
  let max := Vec2 (if x2 max >? x2 p then x2 max else x2 p)
                  (if y2 max >? y2 p then y2 max else y2 p) in
  (min, max).

Definition Bounds2 (points : list vec2) : F * vec2 * vec2 :=
  let min := vec2_s FLT_MAX in
  let max := vec2_neg min in
  let (min, max) := fold_left Bounds2_step points (min, max) in
  let dif := vec2_sub max min in
  (if x2 dif >? y2 dif then x2 dif else y2 dif, min, max).

(** *** vec3 *)

Record vec3 : Type := Vec3 { x3 : F; y3 : F; z3 : F }.

(** [vec3(float s = 0)] *)
Definition vec3_s (s : F) : vec3 := Vec3 s s s.

(** [operator []]: [*(&x+i)], defined for [0 <= i < 3]. *)
Definition vec3_get (v : vec3) (i : nat) : F :=
  match i with
  | 0%nat => x3 v
  | 1%nat => y3 v
  | _ => z3 v
  end.

Definition vec3_set (v : vec3) (i : nat) (a : F) : vec3 :=
  match i with
  | 0%nat => Vec3 a (y3 v) (z3 v)
  | 1%nat => Vec3 (x3 v) a (z3 v)
  | _ => Vec3 (x3 v) (y3 v) a
  end.

Definition vec3_neg (v : vec3) : vec3 := Vec3 (- x3 v) (- y3 v) (- z3 v).
Definition vec3_sub (a v : vec3) : vec3 :=
  Vec3 (x3 a - x3 v) (y3 a - y3 v) (z3 a - z3 v).

(** [dot(const vec3 &a, const vec3 &b)] *)
Definition dot3 (a b : vec3) : F := x3 a * x3 b + y3 a * y3 b + z3 a * z3 b.

(** [Bounds(vec3 *points, int npoints, vec3 &min, vec3 &max)] *)
Definition Bounds3_step (mm : vec3 * vec3) (p : vec3) : vec3 * vec3 :=
  let (min, max) := mm in
  let min := Vec3 (if x3 min <? x3 p then x3 min else x3 p)
                  (if y3 min <? y3 p then y3 min else y3 p)
                  (if z3 min <? z3 p then z3 min else z3 p) in
  let max := Vec3 (if x3 max >? x3 p then x3 max else x3 p)
                  (if y3 max >? y3 p then y3 max else y3 p)
                  (if z3 max >? z3 p then z3 max else z3 p) in
  (min, max).

Definition Bounds3 (points : list vec3) : F * vec3 * vec3 :=
  let min := vec3_s FLT_MAX in
  let max := vec3_neg min in
  let (min, max) := fold_left Bounds3_step points (min, max) in
  let dif := vec3_sub max min in
  (if x3 dif >? y3 dif
   then (if z3 dif >? x3 dif then z3 dif else x3 dif)
   else (if z3 dif >? y3 dif then z3 dif else y3 dif),
   min, max).

(** *** vec4 *)

Record vec4 : Type := Vec4 { x4 : F; y4 : F; z4 : F; w4 : F }.

(** [vec4(float s = 0)] *)
Definition vec4_s (s : F) : vec4 := Vec4 s s s s.

(** [operator []]: [*(&x+i)], defined for [0 <= i < 4]. *)
Definition vec4_get (v : vec4) (i : nat) : F :=
  match i with
  | 0%nat => x4 v
  | 1%nat => y4 v
  | 2%nat => z4 v
  | _ => w4 v
  end.

Definition vec4_set (v : vec4) (i : nat) (a : F) : vec4 :=
  match i with
  | 0%nat => Vec4 a (y4 v) (z4 v) (w4 v)
  | 1%nat => Vec4 (x4 v) a (z4 v) (w4 v)
  | 2%nat => Vec4 (x4 v) (y4 v) a (w4 v)
  | _ => Vec4 (x4 v) (y4 v) (z4 v) a
  end.

(** [vec4 operator * (const vec4 &v) const], line 150:
    [vec4(x*v.x, y*v.y, z*v.z, w*v.z)]. *)
Definition vec4_mul (a v : vec4) : vec4 :=
  Vec4 (x4 a * x4 v) (y4 a * y4 v) (z4 a * z4 v) (w4 a * z4 v).

(** [vec4 &operator *= (const vec4 &v)], line 157:
    [x *= v.x, y *= v.y, z *= v.z, w *= v.w]. *)
Definition vec4_mul_assign (a v : vec4) : vec4 :=
  Vec4 (x4 a * x4 v) (y4 a * y4 v) (z4 a * z4 v) (w4 a * w4 v).

(** [dot(const vec4 &a, const vec4 &b)] *)
Definition dot4 (a b : vec4) : F :=
  x4 a * x4 b + y4 a * y4 b + z4 a * z4 b + w4 a * w4 b.

(** *** mat3 *)

(** [vec3 row[3]] *)
Record mat3 : Type := Mat3 { m3r0 : vec3; m3r1 : vec3; m3r2 : vec3 }.

Definition mat3_row (m : mat3) (i : nat) : vec3 :=
  match i with
  | 0%nat => m3r0 m
  | 1%nat => m3r1 m
  | _ => m3r2 m
  end.

Definition mat3_set_row (m : mat3) (i : nat) (r : vec3) : mat3 :=
  match i with
  | 0%nat => Mat3 r (m3r1 m) (m3r2 m)
  | 1%nat => Mat3 (m3r0 m) r (m3r2 m)
  | _ => Mat3 (m3r0 m) (m3r1 m) r
  end.

(** [m[i][j]] and the assignment [m[i][j] = a]. *)
Definition mat3_get (m : mat3) (i j : nat) : F := vec3_get (mat3_row m i) j.

Definition mat3_set (m : mat3) (i j : nat) (a : F) : mat3 :=
  mat3_set_row m i (vec3_set (mat3_row m i) j a).

(** [mat3(float diag = 1)]: [row[0].x = row[1].y = row[2].z = diag]
    on zero rows. *)
Definition mat3_diag (diag : F) : mat3 :=
  let z := vec3_s zero in
  let m := Mat3 z z z in
  let m := mat3_set m 2 2 diag in
  let m := mat3_set m 1 1 diag in
  mat3_set m 0 0 diag.

(** [mat3 operator * (const mat3 &m) const]: the triple loop over
    [i], [j], [k] accumulating into [a(0)]. *)
Definition mat3_mul (l m : mat3) : mat3 :=
  for_n 3 (fun i a =>
    for_n 3 (fun j a =>
      for_n 3 (fun k a =>
        mat3_set a i j (mat3_get a i j + mat3_get l i k * mat3_get m k j)) a) a)
    (mat3_diag zero).

(** [mat3 Transpose(mat3 m)] *)
Definition Transpose3 (m : mat3) : mat3 :=
  Mat3 (Vec3 (mat3_get m 0 0) (mat3_get m 1 0) (mat3_get m 2 0))
       (Vec3 (mat3_get m 0 1) (mat3_get m 1 1) (mat3_get m 2 1))
       (Vec3 (mat3_get m 0 2) (mat3_get m 1 2) (mat3_get m 2 2)).

(** [mat3 Adjoint3x3(mat3 in)] *)
Definition Adjoint3x3 (inp : mat3) : mat3 :=
  let i := mat3_get inp in
  let out := mat3_diag one in
  let out := mat3_set out 0 0 (i 1 1 * i 2 2 - i 1 2 * i 2 1) in
  let out := mat3_set out 1 0 (- (i 1 0 * i 2 2 - i 1 2 * i 2 0)) in
  let out := mat3_set out 2 0 (i 1 0 * i 2 1 - i 1 1 * i 2 0) in
  let out := mat3_set out 0 1 (- (i 0 1 * i 2 2 - i 0 2 * i 2 1)) in
  let out := mat3_set out 1 1 (i 0 0 * i 2 2 - i 0 2 * i 2 0) in
  let out := mat3_set out 2 1 (- (i 0 0 * i 2 1 - i 0 1 * i 2 0)) in
  let out := mat3_set out 0 2 (i 0 1 * i 1 2 - i 0 2 * i 1 1) in
  let out := mat3_set out 1 2 (- (i 0 0 * i 1 2 - i 0 2 * i 1 0)) in
  mat3_set out 2 2 (i 0 0 * i 1 1 - i 0 1 * i 1 0).

(** Entrywise image of a matrix, to state what [InvertMatrix3x3]
    leaves in [out]. *)
Definition vec3_map (f : F -> F) (v : vec3) : vec3 :=
  Vec3 (f (x3 v)) (f (y3 v)) (f (z3 v)).

Definition mat3_map (f : F -> F) (m : mat3) : mat3 :=
  Mat3 (vec3_map f (m3r0 m)) (vec3_map f (m3r1 m)) (vec3_map f (m3r2 m)).

(** The determinant as [InvertMatrix3x3] computes it from the adjoint. *)
Definition det3_of_adjoint (inp out : mat3) : F :=
  mat3_get out 0 0 * mat3_get inp 0 0 + mat3_get out 0 1 * mat3_get inp 1 0
  + mat3_get out 0 2 * mat3_get inp 2 0.

(** [bool InvertMatrix3x3(mat3 in, mat3 &out)]: the returned flag and
    the final content of [out]. *)
Definition InvertMatrix3x3 (inp out : mat3) : bool * mat3 :=
  let out := Adjoint3x3 inp in
  let det := det3_of_adjoint inp out in
  if (det <? FLT_EPSILON) && (det >? - FLT_EPSILON) then (false, out)
  else
    let di := one / det in
    let out := mat3_set out 0 0 (di * mat3_get out 0 0) in
    let out := mat3_set out 0 1 (di * mat3_get out 0 1) in
    let out := mat3_set out 0 2 (di * mat3_get out 0 2) in
    let out := mat3_set out 1 0 (di * mat3_get out 1 0) in
    let out := mat3_set out 1 1 (di * mat3_get out 1 1) in
    let out := mat3_set out 1 2 (di * mat3_get out 1 2) in
    let out := mat3_set out 2 0 (di * mat3_get out 2 0) in
    let out := mat3_set out 2 1 (di * mat3_get out 2 1) in
    let out := mat3_set out 2 2 (di * mat3_get out 2 2) in
    (true, out).

(** The determinant formula of [TransposeInverseMatrix3x3]. *)
Definition det3 (m : mat3) : F :=
  let g := mat3_get m in
  g 0 0 * (g 1 1 * g 2 2 - g 2 1 * g 1 2)
  - g 0 1 * (g 1 0 * g 2 2 - g 1 2 * g 2 0)
  + g 0 2 * (g 1 0 * g 2 1 - g 1 1 * g 2 0).

(** *** mat4 *)

(** [vec4 row[4]] *)
Record mat4 : Type := Mat4 { m4r0 : vec4; m4r1 : vec4; m4r2 : vec4; m4r3 : vec4 }.

Definition mat4_row (m : mat4) (i : nat) : vec4 :=
  match i with
  | 0%nat => m4r0 m
  | 1%nat => m4r1 m
  | 2%nat => m4r2 m
  | _ => m4r3 m
  end.

Definition mat4_set_row (m : mat4) (i : nat) (r : vec4) : mat4 :=
  match i with
  | 0%nat => Mat4 r (m4r1 m) (m4r2 m) (m4r3 m)
  | 1%nat => Mat4 (m4r0 m) r (m4r2 m) (m4r3 m)
  | 2%nat => Mat4 (m4r0 m) (m4r1 m) r (m4r3 m)
  | _ => Mat4 (m4r0 m) (m4r1 m) (m4r2 m) r
  end.

(** [m[i][j]] and the assignment [m[i][j] = a]. *)
Definition mat4_get (m : mat4) (i j : nat) : F := vec4_get (mat4_row m i) j.

Definition mat4_set (m : mat4) (i j : nat) (a : F) : mat4 :=
  mat4_set_row m i (vec4_set (mat4_row m i) j a).

(** [mat4(float diag = 1)]:
    [row[0].x = row[1].y = row[2].z = row[3].w = diag] on rows that are
    default-constructed to zero. *)
Definition mat4_diag (diag : F) : mat4 :=
  let z := vec4_s zero in
  let m := Mat4 z z z z in
  let m := mat4_set m 3 3 diag in
  let m := mat4_set m 2 2 diag in
  let m := mat4_set m 1 1 diag in
  mat4_set m 0 0 diag.

(** [mat4 operator * (const mat4 &m) const]: the triple loop over
    [i], [j], [k] accumulating into [a(0)]. *)
Definition mat4_mul (l m : mat4) : mat4 :=
  for_n 4 (fun i a =>
    for_n 4 (fun j a =>
      for_n 4 (fun k a =>
        mat4_set a i j (mat4_get a i j + mat4_get l i k * mat4_get m k j)) a) a)
    (mat4_diag zero).

(** [vec4 operator * (const vec4 &v) const] *)
Definition mat4_mul_vec (m : mat4) (v : vec4) : vec4 :=
  Vec4 (dot4 (m4r0 m) v) (dot4 (m4r1 m) v) (dot4 (m4r2 m) v) (dot4 (m4r3 m) v).

(** [Orthographic(left, right, bottom, top, zNear, zFar)] *)
Definition Orthographic (left right bottom top zNear zFar : F) : mat4 :=
  let c := mat4_diag one in
  let c := mat4_set c 0 0 (two / (right - left)) in
  let c := mat4_set c 1 1 (two / (top - bottom)) in
  let c := mat4_set c 2 2 (two / (zNear - zFar)) in
  let c := mat4_set c 3 3 one in
  let c := mat4_set c 0 3 (- (right + left) / (right - left)) in
  let c := mat4_set c 1 3 (- (top + bottom) / (top - bottom)) in
  mat4_set c 2 3 (- (zFar + zNear) / (zFar - zNear)).

(** The sixteen floats behind [&m[0][0]], row after row, and the matrix
    whose storage holds sixteen given floats. *)
Definition flat4 (m : mat4) : list F :=
  flat_map (fun r => [x4 r; y4 r; z4 r; w4 r]) [m4r0 m; m4r1 m; m4r2 m; m4r3 m].

Definition buf_get (b : list F) (k : nat) : F := nth k b zero.

Fixpoint buf_set (b : list F) (k : nat) (v : F) : list F :=
  match b, k with
  | [], _ => []
  | _ :: t, O => v :: t
  | h :: t, S k' => h :: buf_set t k' v
  end.

Definition unflat4 (b : list F) : mat4 :=
  let r i := Vec4 (buf_get b (4 * i)) (buf_get b (4 * i + 1))
                  (buf_get b (4 * i + 2)) (buf_get b (4 * i + 3)) in
  Mat4 (r 0%nat) (r 1%nat) (r 2%nat) (r 3%nat).

(** The 3x3 minor of a 4x4 matrix and the Laplace expansion of its
    determinant along the first row: the textbook determinant, against
    which the inversion routine is measured. *)
Definition skip (i k : nat) : nat := if (k <? i)%nat then k else S k.

Definition minor4 (m : mat4) (i j : nat) : mat3 :=
  let g a b := mat4_get m (skip i a) (skip j b) in
  Mat3 (Vec3 (g 0 0) (g 0 1) (g 0 2))%nat
       (Vec3 (g 1 0) (g 1 1) (g 1 2))%nat
       (Vec3 (g 2 0) (g 2 1) (g 2 2))%nat.

Definition det4 (m : mat4) : F :=
  mat4_get m 0 0 * det3 (minor4 m 0 0) - mat4_get m 0 1 * det3 (minor4 m 0 1)
  + mat4_get m 0 2 * det3 (minor4 m 0 2) - mat4_get m 0 3 * det3 (minor4 m 0 3).

(** *** Quaternion *)

Record Quaternion : Type := Quat { qx : F; qy : F; qz : F; qw : F }.

(** [caseMacro(i, j, k, I, J, K)]: the values assigned to the
    components named [i], [j], [k] and to [w]. *)
Definition caseMacro (mat : mat3) (I J K : nat) : F * F * F * F :=
  let g := mat3_get mat in
  let i := fsqrt (lit 1 4 * (g I I - g J J - g K K + one)) in
  let s := lit 1 4 / i in
  let j := (g I J + g J I) * s in
  let k := (g K I + g I K) * s in
  let w := (g K J - g J K) * s in
  (i, j, k, w).

(** [Quaternion(mat3 mat)], with [X = 0, Y = 1, Z = 2].  The argument of
    [sqrt] is a [float] and the result is stored in a [float]: whether
    the root is taken in [float] or in [double] and converted, the value
    is the correctly rounded root. *)
Definition Quaternion_of_mat3 (mat : mat3) : Quaternion :=
  let g := mat3_get mat in
  let tr := g 0 0 + g 1 1 + g 2 2 in
  if tr >=? zero then
    let w := fsqrt (lit 1 4 * (tr + one)) in
    let s := lit 1 4 / w in
    let x := (g 2 1 - g 1 2) * s in
    let y := (g 0 2 - g 2 0) * s in
    let z := (g 1 0 - g 0 1) * s in
    Quat x y z w
  else
    match (if g 0 0 >=? g 1 1
           then (if g 0 0 >=? g 2 2 then 0 else 2)
           else (if g 1 1 >=? g 2 2 then 1 else 2))%nat with
    | 0%nat => let '(x, y, z, w) := caseMacro mat 0 1 2 in Quat x y z w
    | 1%nat => let '(y, z, x, w) := caseMacro mat 1 2 0 in Quat x y z w
    | _ => let '(z, x, y, w) := caseMacro mat 2 0 1 in Quat x y z w
    end.

(** [float Norm()] *)
Definition Norm (q : Quaternion) : F :=
  qx q * qx q + qy q * qy q + qz q * qz q + qw q * qw q.

(** [mat3 Get3x3()] *)
Definition Get3x3 (q : Quaternion) : mat3 :=
  let norm := Norm q in
  if fabs norm <? FLT_EPSILON then
    Mat3 (Vec3 one zero zero) (Vec3 zero one zero) (Vec3 zero zero one)
  else
    let s := two / norm in
    let xs := qx q * s in let ys := qy q * s in let zs := qz q * s in
    let wx := qw q * xs in let wy := qw q * ys in let wz := qw q * zs in
    let xx := qx q * xs in let xy := qx q * ys in let xz := qx q * zs in
    let yy := qy q * ys in let yz := qy q * zs in let zz := qz q * zs in
    Mat3 (Vec3 (one - (yy + zz)) (xy + wz) (xz - wy))
         (Vec3 (xy - wz) (one - (xx + zz)) (yz + wx))
         (Vec3 (xz + wy) (yz - wx) (one - (xx + yy))).

(** [length(const vec3 &v)] *)
Definition length3 (v : vec3) : F := fsqrt (dot3 v v).

(** [mat4(const mat3 &m)]: the rows are default-constructed to zero,
    the 3x3 block is copied, then [row[3][3] = 1]. *)
Definition mat4_of_mat3 (m : mat3) : mat4 :=
  let z := vec4_s zero in
  let r := Mat4 z z z z in
  let r := for_n 3 (fun i r =>
             for_n 3 (fun j r => mat4_set r i j (mat3_get m i j)) r) r in
  mat4_set r 3 3 one.

(** [Quaternion(mat4 m)]: the transposed 3x3 block, its entries divided
    by the lengths of the columns of [m], handed to [Quaternion(mat3)]. *)
Definition Quaternion_of_mat4 (m : mat4) : Quaternion :=
  let g := mat4_get m in
  let t := Mat3 (Vec3 (g 0 0) (g 1 0) (g 2 0)) (Vec3 (g 0 1) (g 1 1) (g 2 1))
                (Vec3 (g 0 2) (g 1 2) (g 2 2)) in
  let xlen := length3 (Vec3 (g 0 0) (g 1 0) (g 2 0)) in
  let ylen := length3 (Vec3 (g 0 1) (g 1 1) (g 2 1)) in
  let zlen := length3 (Vec3 (g 0 2) (g 1 2) (g 2 2)) in
  let t := for_n 3 (fun i t => mat3_set t i 0 (mat3_get t i 0 / xlen)) t in
  let t := for_n 3 (fun i t => mat3_set t i 1 (mat3_get t i 1 / ylen)) t in
  let t := for_n 3 (fun i t => mat3_set t i 2 (mat3_get t i 2 / zlen)) t in
  Quaternion_of_mat3 t.

(** [mat4 GetMatrix()] *)
Definition GetMatrix (q : Quaternion) : mat4 := mat4_of_mat3 (Get3x3 q).

(** The upper-left 3x3 block of a 4x4 matrix. *)
Definition upper3 (m : mat4) : mat3 :=
  let g := mat4_get m in
  Mat3 (Vec3 (g 0 0) (g 0 1) (g 0 2)) (Vec3 (g 1 0) (g 1 1) (g 1 2))
       (Vec3 (g 2 0) (g 2 1) (g 2 2)).

(** [operator +], [operator * (float s)] and [Dot] of [Quaternion]. *)
Definition quat_add (a q : Quaternion) : Quaternion :=
  Quat (qx a + qx q) (qy a + qy q) (qz a + qz q) (qw a + qw q).

Definition quat_scale (a : Quaternion) (s : F) : Quaternion :=
  Quat (s * qx a) (s * qy a) (s * qz a) (s * qw a).

Definition Dot (qL qR : Quaternion) : F :=
  qx qL * qx qR + qy qL * qy qR + qz qL * qz qR + qw qL * qw qR.

End VecMat.

Arguments vec2 F : clear implicits.
Arguments vec3 F : clear implicits.
Arguments vec4 F : clear implicits.
Arguments mat3 F : clear implicits.
Arguments mat4 F : clear implicits.
Arguments Quaternion F : clear implicits.

(** *** InvertMatrix4x4 *)

(** The local class [Helper] of [InvertMatrix4x4]: [int] index
    arithmetic with the truncating [%] of C++, products in [float], the
    determinant and the scaling in [double]. *)
Module Helper.
Section Helper.

Context {F D : Type} {SF : Scalar F} {SD : Scalar D} {W : Widen F D}.
Local Open Scope fl_scope.

(** [float e(int a, int b, const float *m)] *)
Definition e (a b : Z) (m : list F) : F :=
  buf_get m (Z.to_nat (Z.rem b 4 * 4 + Z.rem a 4)).

(** [float invf(int i, int j, const float *m)] *)
Definition invf (i j : Z) (m : list F) : F :=
  let o := (2 + (j - i))%Z in
  let i := (i + (4 + o))%Z in
  let j := (j + (4 - o))%Z in
  let inv :=
      e (i + 1) (j - 1) m * e (i + 0) (j + 0) m * e (i - 1) (j + 1) m
    + e (i + 1) (j + 1) m * e (i + 0) (j - 1) m * e (i - 1) (j + 0) m
    + e (i - 1) (j - 1) m * e (i + 1) (j + 0) m * e (i + 0) (j + 1) m
    - e (i - 1) (j - 1) m * e (i + 0) (j + 0) m * e (i + 1) (j + 1) m
    - e (i - 1) (j + 1) m * e (i + 0) (j - 1) m * e (i + 1) (j + 0) m
    - e (i + 1) (j - 1) m * e (i - 1) (j + 0) m * e (i + 0) (j + 1) m in
  if (Z.rem o 2 =? 0)%Z then - inv else inv.

(** The array [inv] after the first pair of loops of [invert]. *)
Definition cofactors (m : list F) : list F :=
  for_n 4 (fun i inv =>
    for_n 4 (fun j inv =>
      buf_set inv (j * 4 + i) (invf (Z.of_nat i) (Z.of_nat j) m)) inv)
    (repeat zero 16).

(** The [double D] after the loop over [k]. *)
Definition determinant (m : list F) : D :=
  let inv := cofactors m in
  for_n 4 (fun k D => D + widen (buf_get m k) * widen (buf_get inv (k * 4)))
    (zero (F := D)).

(** [bool invert(float *out)]: the returned flag and the final content
    of the buffer [out]. *)
Definition invert (m : list F) (out : list F) : bool * list F :=
  let inv := cofactors m in
  let D := determinant m in
  if D ==? zero then (false, out)
  else
    let D := one / D in
    (true,
     for_n 16 (fun i out => buf_set out i (narrow (widen (buf_get inv i) * D))) out).

End Helper.
End Helper.

Section Inverse.

Context {F D : Type} {SF : Scalar F} {SD : Scalar D} {W : Widen F D}.

(** [bool InvertMatrix4x4(const float *m, float *out)] *)
Definition InvertMatrix4x4 (m : list F) (out : list F) : bool * list F :=
  Helper.invert m out.

(** [mat4 Inverse(mat4 m)]: [inv] is default-constructed, its storage
    is handed to [InvertMatrix4x4], the flag is dropped. *)
Definition Inverse4 (m : mat4 F) : mat4 F :=
  let inv := mat4_diag one in
  unflat4 (snd (InvertMatrix4x4 (flat4 m) (flat4 inv))).

End Inverse.

(** *** Slerp *)

(** [sin] and [acos] of [<math.h>]. *)
Class Trig (F : Type) : Type := {
  fsin : F -> F;
  facos : F -> F
}.

#[export] Instance trig_exact : Trig R := { fsin := sin; facos := acos }.

Section Slerp.

Context {F : Type} {SF : Scalar F} {TF : Trig F}.
Local Open Scope fl_scope.

(** [#define _PI 3.141592f] *)
Definition _PI : F := lit 3141592 1000000.

(** [void Slerp(Quaternion &qu0, Quaternion &qu1, float t)]: the value
    assigned to [*this]. *)
Definition Slerp (qu0 qu1 : Quaternion F) (t : F) : Quaternion F :=
  let epsilon := lit 1 100000 in
  let cosOmega := Dot qu0 qu1 in
  if (one + cosOmega) >? epsilon then
    let (qu0Part, qu1Part) :=
      if (one - cosOmega) >? epsilon then
        let omega := facos cosOmega in
        let sinOmega := fsin omega in
        (fsin ((one - t) * omega) / sinOmega, fsin (t * omega) / sinOmega)
      else (one - t, t) in
    let s1 := quat_scale qu0 qu0Part in
    let s2 := quat_scale qu1 qu1Part in
    quat_add s1 s2
  else
    let qup := Quat (- qy qu0) (qx qu0) (- qw qu0) (qz qu0) in
    let qu0Part := fsin ((lit 1 2 - t) * _PI) in
    let qu1Part := fsin (t * _PI) in
    let s1 := quat_scale qu0 qu0Part in
    let s2 := quat_scale qup qu1Part in
    quat_add s1 s2.

End Slerp.

(** *** Integer vectors *)

(** [int] is 32 bits wide. *)
Definition INT_MIN : Z := - 2 ^ 31.
Definition INT_MAX : Z := 2 ^ 31 - 1.

(** The integer [floor(x)] of a binary32 number: [x] is
    [(-1)^s * m * 2^e]; none for an infinity or a NaN. *)
Definition b32_floor (x : float32) : option Z :=
  match x with
  | S754_zero _ => Some 0%Z
  | S754_finite s m e =>
      Some (if (0 <=? e)%Z then (cond_Zopp s (Zpos m) * 2 ^ e)%Z
            else (cond_Zopp s (Zpos m) / 2 ^ (- e))%Z)
  | _ => None
  end.

(** [int Flint(float x) { return (int) floor(x); }]: the conversion to
    [int] is defined when the integer fits, and has no defined result
    (none) otherwise. *)
Definition Flint (x : float32) : option Z :=
  match b32_floor x with
  | Some z => if ((INT_MIN <=? z) && (z <=? INT_MAX))%Z then Some z else None
  | None => None
  end.

Record int2 : Type := Int2 { i2_1 : Z; i2_2 : Z }.
Record int3 : Type := Int3 { i3_1 : Z; i3_2 : Z; i3_3 : Z }.
Record int4 : Type := Int4 { i4_1 : Z; i4_2 : Z; i4_3 : Z; i4_4 : Z }.

(** [int2(vec2 v) : i1(Flint(v.x)), i2(Flint(v.y))] and its siblings. *)
Definition int2_of_vec2 (v : vec2 float32) : option int2 :=
  match Flint (x2 v), Flint (y2 v) with
  | Some a, Some b => Some (Int2 a b)
  | _, _ => None
  end.

Definition int3_of_vec3 (v : vec3 float32) : option int3 :=
  match Flint (x3 v), Flint (y3 v), Flint (z3 v) with
  | Some a, Some b, Some c => Some (Int3 a b c)
  | _, _, _ => None
  end.

Definition int4_of_vec4 (v : vec4 float32) : option int4 :=
  match Flint (x4 v), Flint (y4 v), Flint (z4 v), Flint (w4 v) with
  | Some a, Some b, Some c, Some d => Some (Int4 a b c d)
  | _, _, _, _ => None
  end.

(** The real number a binary32 value denotes (0 for an infinity or a
    NaN, which denote none). *)
Definition b32_to_R (x : float32) : R :=
  match x with
  | S754_finite s m e => IZR (cond_Zopp s (Zpos m)) * powerRZ 2 e
  | _ => 0%R
  end.

(** The real matrix that a binary32 matrix denotes. *)
Definition vec4_to_R (v : vec4 float32) : vec4 R :=
  Vec4 (b32_to_R (x4 v)) (b32_to_R (y4 v)) (b32_to_R (z4 v)) (b32_to_R (w4 v)).

Definition mat4_to_R (m : mat4 float32) : mat4 R :=
  Mat4 (vec4_to_R (m4r0 m)) (vec4_to_R (m4r1 m)) (vec4_to_R (m4r2 m))
       (vec4_to_R (m4r3 m)).

(** A binary32 number: a zero or a finite value in the format. *)
Definition is_number (x : float32) : bool :=
  match x with
  | S754_zero _ => true
  | S754_finite _ m e => SpecFloat.bounded 24 128 m e
  | _ => false
  end.

(** The floor of the real number a binary32 value denotes, and the
    floats for which the conversion [(int) floor(x)] is defined. *)
Definition floorR (x : float32) : Z := Int_part (b32_to_R x).

Definition fits_int (x : float32) : Prop :=
  is_number x = true /\ (INT_MIN <= floorR x <= INT_MAX)%Z.

(** Componentwise selection of [Bounds], and what it is measured
    against: [r] is a minimum (maximum) of the list when it occurs in it
    and compares below (above) or equal to every element; it is a
    largest element when it occurs and no element compares above it. *)
Definition not_nan (x : float32) : bool :=
  match x with S754_nan => false | _ => true end.

Definition fmin (m a : float32) : float32 := if (m <? a)%fl then m else a.
Definition fmax (m a : float32) : float32 := if (m >? a)%fl then m else a.

Definition is_min (l : list float32) (r : float32) : Prop :=
  In r l /\ Forall (fun a => SFleb r a = true) l.
Definition is_max (l : list float32) (r : float32) : Prop :=
  In r l /\ Forall (fun a => SFleb a r = true) l.
Definition largest (l : list float32) (r : float32) : Prop :=
  In r l /\ Forall (fun a => SFltb r a = false) l.

Definition numbers2 (pts : list (vec2 float32)) : Prop :=
  Forall (fun p => is_number (x2 p) = true /\ is_number (y2 p) = true) pts.
Definition numbers3 (pts : list (vec3 float32)) : Prop :=
  Forall (fun p => is_number (x3 p) = true /\ is_number (y3 p) = true /\
                   is_number (z3 p) = true) pts.

(** A pure rotation, in exact arithmetic: orthonormal rows and
    determinant 1. *)
Definition pure_rotation (m : mat3 R) : Prop :=
  dot3 (m3r0 m) (m3r0 m) = 1%R /\ dot3 (m3r1 m) (m3r1 m) = 1%R /\
  dot3 (m3r2 m) (m3r2 m) = 1%R /\ dot3 (m3r0 m) (m3r1 m) = 0%R /\
  dot3 (m3r0 m) (m3r2 m) = 0%R /\ dot3 (m3r1 m) (m3r2 m) = 0%R /\
  det3 m = 1%R.

(** Two quaternions agree within [tol] in every component. *)
Definition quat_near (tol : R) (p q : Quaternion R) : Prop :=
  (Rabs (qx p - qx q) <= tol)%R /\ (Rabs (qy p - qy q) <= tol)%R /\
  (Rabs (qz p - qz q) <= tol)%R /\ (Rabs (qw p - qw q) <= tol)%R.

(** The textbook adjugate and determinant, against which the inversion
    routines are measured.  The cofactor of [m[i][j]] is the
    determinant of the matrix left when row [i] and column [j] are
    deleted, negated when [i + j] is odd; the adjugate holds at
    [[i][j]] the cofactor of [m[j][i]] (the transposed matrix of
    cofactors); the determinant of a 3x3 matrix is expanded along its
    first column. *)
Section Cofactors.

Context {F : Type} {SF : Scalar F}.
Local Open Scope fl_scope.

Definition det2 (a b c d : F) : F := a * d - b * c.

Definition cofactor3 (m : mat3 F) (i j : nat) : F :=
  let g a b := mat3_get m (skip i a) (skip j b) in
  let d := det2 (g 0 0)%nat (g 0 1)%nat (g 1 0)%nat (g 1 1)%nat in
  if Nat.even (i + j) then d else - d.

Definition adjugate3 (m : mat3 F) : mat3 F :=
  Mat3 (Vec3 (cofactor3 m 0 0) (cofactor3 m 1 0) (cofactor3 m 2 0))
       (Vec3 (cofactor3 m 0 1) (cofactor3 m 1 1) (cofactor3 m 2 1))
       (Vec3 (cofactor3 m 0 2) (cofactor3 m 1 2) (cofactor3 m 2 2)).

Definition det3_by_column (m : mat3 F) : F :=
  cofactor3 m 0 0 * mat3_get m 0 0 + cofactor3 m 1 0 * mat3_get m 1 0
  + cofactor3 m 2 0 * mat3_get m 2 0.

Definition cofactor4 (m : mat4 F) (i j : nat) : F :=
  let d := det3 (minor4 m i j) in
  if Nat.even (i + j) then d else - d.

Definition adjugate4 (m : mat4 F) : mat4 F :=
  Mat4 (Vec4 (cofactor4 m 0 0) (cofactor4 m 1 0) (cofactor4 m 2 0) (cofactor4 m 3 0))
       (Vec4 (cofactor4 m 0 1) (cofactor4 m 1 1) (cofactor4 m 2 1) (cofactor4 m 3 1))
       (Vec4 (cofactor4 m 0 2) (cofactor4 m 1 2) (cofactor4 m 2 2) (cofactor4 m 3 2))
       (Vec4 (cofactor4 m 0 3) (cofactor4 m 1 3) (cofactor4 m 2 3) (cofactor4 m 3 3)).

End Cofactors.

(** ** The rest of the library *)

(** [cos] and [tan] of [<math.h>]. *)
Class CosTan (F : Type) : Type := {
  fcos : F -> F;
  ftan : F -> F
}.

#[export] Instance costan_exact : CosTan R := { fcos := cos; ftan := tan }.

Section Geometry.

Context {F : Type} {SF : Scalar F}.
Local Open Scope fl_scope.

(** *** vec2 *)

(** [operator * (float s)] ([vec2(s*x, s*y)]) and [operator / (float s)]
    ([float r = 1.f/s; return *this*r]). *)
Definition vec2_scale (a : vec2 F) (s : F) : vec2 F := Vec2 (s * x2 a) (s * y2 a).
Definition vec2_div (a : vec2 F) (s : F) : vec2 F :=
  let r := one / s in vec2_scale a r.

(** [dot], [cross], [length] and [normalize] of [vec2]. *)
Definition dot2 (a b : vec2 F) : F := x2 a * x2 b + y2 a * y2 b.
Definition cross2 (v1 v2 : vec2 F) : F := x2 v1 * y2 v2 - y2 v1 * x2 v2.
Definition length2 (v : vec2 F) : F := fsqrt (dot2 v v).
Definition normalize2 (v : vec2 F) : vec2 F := vec2_div v (length2 v).

(** *** vec3 *)

(** [operator +], [operator * (float s)], [operator * (const vec3 &)]
    and [operator / (float s)]. *)
Definition vec3_add (a v : vec3 F) : vec3 F :=
  Vec3 (x3 a + x3 v) (y3 a + y3 v) (z3 a + z3 v).
Definition vec3_scale (a : vec3 F) (s : F) : vec3 F :=
  Vec3 (s * x3 a) (s * y3 a) (s * z3 a).
Definition vec3_mul (a v : vec3 F) : vec3 F :=
  Vec3 (x3 a * x3 v) (y3 a * y3 v) (z3 a * z3 v).
Definition vec3_div (a : vec3 F) (s : F) : vec3 F :=
  let r := one / s in vec3_scale a r.

(** [normalize(const vec3 &v)] and [cross(const vec3 &a, const vec3 &b)] *)
Definition normalize3 (v : vec3 F) : vec3 F := vec3_div v (length3 v).
Definition cross3 (a b : vec3 F) : vec3 F :=
  Vec3 (y3 a * z3 b - z3 a * y3 b) (z3 a * x3 b - x3 a * z3 b)
       (x3 a * y3 b - y3 a * x3 b).

(** *** vec4 *)

(** [vec4(const vec3 &v, float w = 1)] *)
Definition vec4_of_vec3 (v : vec3 F) (w : F) : vec4 F := Vec4 (x3 v) (y3 v) (z3 v) w.

(** [operator * (float s)], [operator / (float s)], [length] and
    [normalize] of [vec4]. *)
Definition vec4_scale (a : vec4 F) (s : F) : vec4 F :=
  Vec4 (s * x4 a) (s * y4 a) (s * z4 a) (s * w4 a).
Definition vec4_div (a : vec4 F) (s : F) : vec4 F :=
  let r := one / s in vec4_scale a r.
Definition length4 (v : vec4 F) : F := fsqrt (dot4 v v).
Definition normalize4 (v : vec4 F) : vec4 F := vec4_div v (length4 v).

(** *** mat3 *)

(** [vec3 operator * (const vec3 &v) const] *)
Definition mat3_mul_vec (m : mat3 F) (v : vec3 F) : vec3 F :=
  Vec3 (dot3 (m3r0 m) v) (dot3 (m3r1 m) v) (dot3 (m3r2 m) v).

(** [mat3 TransposeInverseMatrix3x3(mat3 m)] *)
Definition TransposeInverseMatrix3x3 (m : mat3 F) : mat3 F :=
  let g := mat3_get m in
  let det := g 0 0 * (g 1 1 * g 2 2 - g 2 1 * g 1 2)
             - g 0 1 * (g 1 0 * g 2 2 - g 1 2 * g 2 0)
             + g 0 2 * (g 1 0 * g 2 1 - g 1 1 * g 2 0) in
  let invdet := one / det in
  let r := mat3_diag one in
  let r := mat3_set r 0 0 ((g 1 1 * g 2 2 - g 2 1 * g 1 2) * invdet) in
  let r := mat3_set r 1 0 (- (g 0 1 * g 2 2 - g 0 2 * g 2 1) * invdet) in
  let r := mat3_set r 2 0 ((g 0 1 * g 1 2 - g 0 2 * g 1 1) * invdet) in
  let r := mat3_set r 0 1 (- (g 1 0 * g 2 2 - g 1 2 * g 2 0) * invdet) in
  let r := mat3_set r 1 1 ((g 0 0 * g 2 2 - g 0 2 * g 2 0) * invdet) in
  let r := mat3_set r 2 1 (- (g 0 0 * g 1 2 - g 1 0 * g 0 2) * invdet) in
  let r := mat3_set r 0 2 ((g 1 0 * g 2 1 - g 2 0 * g 1 1) * invdet) in
  let r := mat3_set r 1 2 (- (g 0 0 * g 2 1 - g 2 0 * g 0 1) * invdet) in
  mat3_set r 2 2 ((g 0 0 * g 1 1 - g 1 0 * g 0 1) * invdet).

(** [mat3 Inverse(mat3 m)]: [inv] is default-constructed, the flag of
    [InvertMatrix3x3] is dropped. *)
Definition Inverse3 (m : mat3 F) : mat3 F :=
  let inv := mat3_diag one in
  snd (InvertMatrix3x3 m inv).

(** *** mat4 *)

(** [mat4 Scale(float x, float y, float z)] and [Scale(vec3 s)] *)
Definition Scale (x y z : F) : mat4 F :=
  let c := mat4_diag one in
  let c := mat4_set c 0 0 x in
  let c := mat4_set c 1 1 y in
  mat4_set c 2 2 z.

Definition Scale_vec (s : vec3 F) : mat4 F := Scale (x3 s) (y3 s) (z3 s).

(** [mat4 Translate(float x, float y, float z)] and [Translate(vec3 t)] *)
Definition Translate (x y z : F) : mat4 F :=
  Mat4 (Vec4 one zero zero x) (Vec4 zero one zero y)
       (Vec4 zero zero one z) (Vec4 zero zero zero one).

Definition Translate_vec (t : vec3 F) : mat4 F := Translate (x3 t) (y3 t) (z3 t).

(** [static float DegreesToRadians = 3.14159265358f/180.f]: the literal
    [3.14159265358f] is the binary32 number 13176795 * 2^-22. *)
Definition DegreesToRadians : F := lit 13176795 4194304 / fofZ 180.

(** [mat4 Transpose(mat4 m)] *)
Definition Transpose4 (m : mat4 F) : mat4 F :=
  let g := mat4_get m in
  Mat4 (Vec4 (g 0 0) (g 1 0) (g 2 0) (g 3 0))
       (Vec4 (g 0 1) (g 1 1) (g 2 1) (g 3 1))
       (Vec4 (g 0 2) (g 1 2) (g 2 2) (g 3 2))
       (Vec4 (g 0 3) (g 1 3) (g 2 3) (g 3 3)).

(** [mat4 ReferenceFrame(vec3 x, vec3 y, vec3 z, vec3 o)] *)
Definition ReferenceFrame (x y z o : vec3 F) : mat4 F :=
  Transpose4 (Mat4 (vec4_of_vec3 x zero) (vec4_of_vec3 y zero)
                   (vec4_of_vec3 z zero) (vec4_of_vec3 o one)).

(** [mat4 LookTowards(vec3 eye, vec3 lookV, vec3 up)] and
    [mat4 LookAt(vec3 eye, vec3 lookat, vec3 up)] *)
Definition LookTowards (eye lookV up : vec3 F) : mat4 F :=
  let z := normalize3 lookV in
  let x := normalize3 (cross3 z up) in
  let y := cross3 x z in
  Mat4 (Vec4 (x3 x) (y3 x) (z3 x) (- dot3 x eye))
       (Vec4 (x3 y) (y3 y) (z3 y) (- dot3 y eye))
       (Vec4 (- x3 z) (- y3 z) (- z3 z) (dot3 z eye))
       (Vec4 zero zero zero one).

Definition LookAt (eye lookat up : vec3 F) : mat4 F :=
  LookTowards eye (vec3_sub lookat eye) up.

(** *** Quaternion *)

(** [Quaternion operator * (const Quaternion &q) const] *)
Definition quat_mul (a q : Quaternion F) : Quaternion F :=
  let xx := qx a * qw q + qy a * qz q - qz a * qy q + qw a * qx q in
  let yy := - qx a * qz q + qy a * qw q + qz a * qx q + qw a * qy q in
  let zz := qx a * qy q - qy a * qx q + qz a * qw q + qw a * qz q in
  let ww := - qx a * qx q - qy a * qy q - qz a * qz q + qw a * qw q in
  Quat xx yy zz ww.

End Geometry.

Section Angles.

Context {F : Type} {SF : Scalar F} {TF : Trig F} {CF : CosTan F}.
Local Open Scope fl_scope.

(** [mat4 RotateX(float theta)], [RotateY] and [RotateZ]: the angle is
    in degrees; [c[2][2] = c[1][1] = cos(angle)] assigns [c[1][1]]
    first. *)
Definition RotateX (theta : F) : mat4 F :=
  let angle := DegreesToRadians * theta in
  let c := mat4_diag one in
  let c := mat4_set c 1 1 (fcos angle) in
  let c := mat4_set c 2 2 (mat4_get c 1 1) in
  let c := mat4_set c 2 1 (fsin angle) in
  mat4_set c 1 2 (- mat4_get c 2 1).

Definition RotateY (theta : F) : mat4 F :=
  let angle := DegreesToRadians * theta in
  let c := mat4_diag one in
  let c := mat4_set c 0 0 (fcos angle) in
  let c := mat4_set c 2 2 (mat4_get c 0 0) in
  let c := mat4_set c 0 2 (fsin angle) in
  mat4_set c 2 0 (- mat4_get c 0 2).

Definition RotateZ (theta : F) : mat4 F :=
  let angle := DegreesToRadians * theta in
  let c := mat4_diag one in
  let c := mat4_set c 1 1 (fcos angle) in
  let c := mat4_set c 0 0 (mat4_get c 1 1) in
  let c := mat4_set c 1 0 (fsin angle) in
  mat4_set c 0 1 (- mat4_get c 1 0).

(** [mat4 Perspective(float verticalFOV, float aspectRatio, float zNear,
    float zFar)] *)
Definition Perspective (verticalFOV aspectRatio zNear zFar : F) : mat4 F :=
  let t := ftan (verticalFOV * DegreesToRadians / two) in
  let fnDif := zFar - zNear in
  let m := mat4_diag zero in
  let m := mat4_set m 0 0 (one / (aspectRatio * t)) in
  let m := mat4_set m 1 1 (one / t) in
  let m := mat4_set m 2 2 (- (zFar + zNear) / fnDif) in
  let m := mat4_set m 2 3 (- two * zFar * zNear / fnDif) in
  mat4_set m 3 2 (- one).

(** [Quaternion(vec3 axis, float radAng)] *)
Definition Quaternion_of_axis (axis : vec3 F) (radAng : F) : Quaternion F :=
  let c := fcos (radAng / two) in
  let s := fsin (radAng / two) in
  let a := normalize3 axis in
  Quat (s * x3 a) (s * y3 a) (s * z3 a) c.

End Angles.

(** A binary32 value with the sign of a zero dropped, a matrix mapped
    entry by entry, and the vectors and matrices made of numbers. *)
Definition unsigned_zero (x : float32) : float32 :=
  match x with S754_zero _ => S754_zero false | _ => x end.

Definition vec4_map {F : Type} (f : F -> F) (v : vec4 F) : vec4 F :=
  Vec4 (f (x4 v)) (f (y4 v)) (f (z4 v)) (f (w4 v)).
Definition mat4_map {F : Type} (f : F -> F) (m : mat4 F) : mat4 F :=
  Mat4 (vec4_map f (m4r0 m)) (vec4_map f (m4r1 m)) (vec4_map f (m4r2 m))
       (vec4_map f (m4r3 m)).

Definition number_vec3 (v : vec3 float32) : bool :=
  is_number (x3 v) && is_number (y3 v) && is_number (z3 v).
Definition number_vec4 (v : vec4 float32) : bool :=
  is_number (x4 v) && is_number (y4 v) && is_number (z4 v) && is_number (w4 v).
Definition number_mat4 (m : mat4 float32) : bool :=
  number_vec4 (m4r0 m) && number_vec4 (m4r1 m) && number_vec4 (m4r2 m) &&
  number_vec4 (m4r3 m).

(** Vectors and matrices with no NaN among their components: numbers
    and infinities. *)
Definition no_nan_vec2 (v : vec2 float32) : bool := not_nan (x2 v) && not_nan (y2 v).
Definition no_nan_vec3 (v : vec3 float32) : bool :=
  not_nan (x3 v) && not_nan (y3 v) && not_nan (z3 v).
Definition no_nan_vec4 (v : vec4 float32) : bool :=
  not_nan (x4 v) && not_nan (y4 v) && not_nan (z4 v) && not_nan (w4 v).
Definition no_nan_mat3 (m : mat3 float32) : bool :=
  no_nan_vec3 (m3r0 m) && no_nan_vec3 (m3r1 m) && no_nan_vec3 (m3r2 m).
Definition no_nan_mat4 (m : mat4 float32) : bool :=
  no_nan_vec4 (m4r0 m) && no_nan_vec4 (m4r1 m) && no_nan_vec4 (m4r2 m)
  && no_nan_vec4 (m4r3 m).

(** ** Siege: the animated characters of [Apps/Siege.cpp] *)

(** [int] arithmetic: 32 bits, two's complement; [+] and [-] wrap as
    the compiled code does, [/] and [%] truncate and have no result
    when the divisor is zero or the quotient does not fit. *)
Definition wrap_int (z : Z) : Z := ((z + 2 ^ 31) mod 2 ^ 32 - 2 ^ 31)%Z.

Definition int_div (a b : Z) : option Z :=
  if ((b =? 0) || ((a =? INT_MIN) && (b =? -1)))%Z then None else Some (Z.quot a b).
Definition int_rem (a b : Z) : option Z :=
  if ((b =? 0) || ((a =? INT_MIN) && (b =? -1)))%Z then None else Some (Z.rem a b).

Module Siege.

(** [int2 archerAnimations[]] and [int2 barbarianAnimations[]] *)
Definition archerAnimations : list int2 :=
  [Int2 0 4; Int2 5 9; Int2 10 14; Int2 15 19].
Definition barbarianAnimations : list int2 :=
  [Int2 0 4; Int2 5 9; Int2 10 14; Int2 15 19; Int2 20 24].

Section Character.

Context {F : Type} {SF : Scalar F}.
Local Open Scope fl_scope.

(** The class [Sprite] of [Sprite.h] is used through its member
    [position] and its methods [SetUVforFrame], [Release] and
    [SetPosition]; what they do to a sprite is left open. *)
Variable Sprite : Type.
Variable position : Sprite -> vec2 F.
Variable SetUVforFrame : Z -> Z -> Z -> Z -> Sprite -> Sprite.
Variable Release : Sprite -> Sprite.
Variable SetPosition : vec2 F -> Sprite -> Sprite.

(** [struct SpriteInfo] *)
Record SpriteInfo : Type := {
  info_rows : Z;
  info_cols : Z;
  info_nFrames : Z;
  info_speed : F;
  info_animations : list int2;
  info_nAnimations : Z;
  info_attack : Z;
  info_moving : Z;
  info_death : Z;
  info_hurt : Z;
  info_health : Z;
  info_damage : Z
}.

(** [class Character]; [animations] points to one of the two arrays
    above, which is the list. *)
Record Character : Type := {
  sprite : Sprite;
  IsMoving : bool;
  health : Z;
  damage : Z;
  speed : F;
  IsDead : bool;
  CurrentAnimation : Z;
  nRows : Z;
  nCols : Z;
  animations : list int2;
  nAnimations : Z;
  attack : Z;
  moving : Z;
  death : Z;
  hurt : Z;
  startFrame : Z;
  frame : Z;
  nFrames : Z;
  frameDuration : F;
  change : F
}.

(** Assignments to the members that the methods write. *)
Definition set_sprite (c : Character) (v : Sprite) : Character :=
  Build_Character v (IsMoving c) (health c) (damage c) (speed c) (IsDead c)
    (CurrentAnimation c) (nRows c) (nCols c) (animations c) (nAnimations c)
    (attack c) (moving c) (death c) (hurt c) (startFrame c) (frame c) (nFrames c)
    (frameDuration c) (change c).
Definition set_IsMoving (c : Character) (v : bool) : Character :=
  Build_Character (sprite c) v (health c) (damage c) (speed c) (IsDead c)
    (CurrentAnimation c) (nRows c) (nCols c) (animations c) (nAnimations c)
    (attack c) (moving c) (death c) (hurt c) (startFrame c) (frame c) (nFrames c)
    (frameDuration c) (change c).
Definition set_health (c : Character) (v : Z) : Character :=
  Build_Character (sprite c) (IsMoving c) v (damage c) (speed c) (IsDead c)
    (CurrentAnimation c) (nRows c) (nCols c) (animations c) (nAnimations c)
    (attack c) (moving c) (death c) (hurt c) (startFrame c) (frame c) (nFrames c)
    (frameDuration c) (change c).
Definition set_IsDead (c : Character) (v : bool) : Character :=
  Build_Character (sprite c) (IsMoving c) (health c) (damage c) (speed c) v
    (CurrentAnimation c) (nRows c) (nCols c) (animations c) (nAnimations c)
    (attack c) (moving c) (death c) (hurt c) (startFrame c) (frame c) (nFrames c)
    (frameDuration c) (change c).
Definition set_CurrentAnimation (c : Character) (v : Z) : Character :=
  Build_Character (sprite c) (IsMoving c) (health c) (damage c) (speed c) (IsDead c)
    v (nRows c) (nCols c) (animations c) (nAnimations c)
    (attack c) (moving c) (death c) (hurt c) (startFrame c) (frame c) (nFrames c)
    (frameDuration c) (change c).
Definition set_startFrame (c : Character) (v : Z) : Character :=
  Build_Character (sprite c) (IsMoving c) (health c) (damage c) (speed c) (IsDead c)
    (CurrentAnimation c) (nRows c) (nCols c) (animations c) (nAnimations c)
    (attack c) (moving c) (death c) (hurt c) v (frame c) (nFrames c)
    (frameDuration c) (change c).
Definition set_frame (c : Character) (v : Z) : Character :=
  Build_Character (sprite c) (IsMoving c) (health c) (damage c) (speed c) (IsDead c)
    (CurrentAnimation c) (nRows c) (nCols c) (animations c) (nAnimations c)
    (attack c) (moving c) (death c) (hurt c) (startFrame c) v (nFrames c)
    (frameDuration c) (change c).
Definition set_nFrames (c : Character) (v : Z) : Character :=
  Build_Character (sprite c) (IsMoving c) (health c) (damage c) (speed c) (IsDead c)
    (CurrentAnimation c) (nRows c) (nCols c) (animations c) (nAnimations c)
    (attack c) (moving c) (death c) (hurt c) (startFrame c) (frame c) v
    (frameDuration c) (change c).
Definition set_change (c : Character) (v : F) : Character :=
  Build_Character (sprite c) (IsMoving c) (health c) (damage c) (speed c) (IsDead c)
    (CurrentAnimation c) (nRows c) (nCols c) (animations c) (nAnimations c)
    (attack c) (moving c) (death c) (hurt c) (startFrame c) (frame c) (nFrames c)
    (frameDuration c) v.

(** [Character(Sprite s, SpriteInfo info)]: the default member
    initializers, then the assignments of the body; [now] is the value
    of [(float)glfwGetTime()] when the object is created. *)
Definition Character_of (s : Sprite) (info : SpriteInfo) (now : F) : Character :=
  let frameDuration := lit 1 10 in
  {| sprite := s; IsMoving := true; health := info_health info;
     damage := info_damage info; speed := info_speed info; IsDead := false;
     CurrentAnimation := 1; nRows := info_rows info; nCols := info_cols info;
     animations := info_animations info; nAnimations := info_nAnimations info;
     attack := info_attack info; moving := info_moving info;
     death := info_death info; hurt := info_hurt info;
     startFrame := 0; frame := 0; nFrames := info_nFrames info;
     frameDuration := frameDuration; change := now + frameDuration |}.

(** [void SetFrame(int f)]: none when [frame / nCols] has no result. *)
Definition SetFrame (f : Z) (c : Character) : option Character :=
  let c := set_frame c f in
  match int_div (frame c) (nCols c), int_rem (frame c) (nCols c) with
  | Some row, Some col =>
      Some (set_sprite c (SetUVforFrame row col (nRows c) (nCols c) (sprite c)))
  | _, _ => None
  end.

(** [void SetAnimation(int a)]: none when [animations[a]] is read
    outside the array. *)
Definition SetAnimation (a : Z) (c : Character) : option Character :=
  if (a <? nAnimations c)%Z then
    if (a <? 0)%Z then None
    else
      match nth_error (animations c) (Z.to_nat a) with
      | None => None
      | Some i =>
          let c := set_nFrames c (wrap_int (wrap_int (i2_2 i - i2_1 i) + 1)) in
          let c := set_CurrentAnimation c a in
          let c := set_startFrame c (i2_1 i) in
          SetFrame (i2_1 i) c
      end
  else Some c.

(** [void Animate()]: [now] is the value of [(float)glfwGetTime()]. *)
Definition Animate (now : F) (c : Character) : option Character :=
  if now >? change c then
    let c := set_change c (now + frameDuration c) in
    SetFrame (if (frame c =? wrap_int (wrap_int (startFrame c + nFrames c) - 1))%Z
              then startFrame c else wrap_int (frame c + 1)) c
  else Some c.

(** [void Attack()] and [void Moving()] *)
Definition Attack (c : Character) : option Character :=
  let c := set_IsMoving c false in
  SetAnimation (attack c) c.

Definition Moving (c : Character) : option Character :=
  let c := set_IsMoving c true in
  SetAnimation (moving c) c.

(** [void Death()] *)
Definition Death (c : Character) : option Character :=
  if negb (IsDead c) then
    match SetAnimation (death c) c with
    | Some c =>
        let c := set_sprite c (Release (sprite c)) in
        Some (set_IsDead c true)
    | None => None
    end
  else Some c.

(** [void Hurting(int dmg)] *)
Definition Hurting (dmg : Z) (c : Character) : option Character :=
  let c := set_health c (wrap_int (health c - dmg)) in
  let c := set_IsMoving c false in
  if (health c <=? 0)%Z then Death c else SetAnimation (hurt c) c.

(** [void UpdatePosition()] *)
Definition UpdatePosition (c : Character) : Character :=
  if IsMoving c then
    let currentPosition :=
      Vec2 (x2 (position (sprite c)) + speed c) (y2 (position (sprite c))) in
    set_sprite c (SetPosition currentPosition (sprite c))
  else c.

(** The four sprite sheets of the game; [.001] is a [double] literal
    stored in a [float]. *)
Definition archerInfo : SpriteInfo :=
  {| info_rows := 4; info_cols := 5; info_nFrames := 4 * 5; info_speed := lit 1 1000;
     info_animations := archerAnimations;
     info_nAnimations := Z.of_nat (length archerAnimations);
     info_attack := 0; info_moving := 1; info_death := 3; info_hurt := 2;
     info_health := 100; info_damage := 20 |}.
Definition barbarianInfo : SpriteInfo :=
  {| info_rows := 5; info_cols := 5; info_nFrames := 5 * 5; info_speed := lit 1 1000;
     info_animations := barbarianAnimations;
     info_nAnimations := Z.of_nat (length barbarianAnimations);
     info_attack := 3; info_moving := 1; info_death := 0; info_hurt := 2;
     info_health := 100; info_damage := 25 |}.
Definition EnemyBarbarianInfo : SpriteInfo :=
  {| info_rows := 5; info_cols := 5; info_nFrames := 5 * 5; info_speed := lit 1 1000;
     info_animations := barbarianAnimations;
     info_nAnimations := Z.of_nat (length barbarianAnimations);
     info_attack := 3; info_moving := 1; info_death := 0; info_hurt := 4;
     info_health := 100; info_damage := 25 |}.
Definition wizardInfo : SpriteInfo :=
  {| info_rows := 4; info_cols := 5; info_nFrames := 4 * 5; info_speed := lit 1 1000;
     info_animations := archerAnimations;
     info_nAnimations := Z.of_nat (length archerAnimations);
     info_attack := 0; info_moving := 1; info_death := 3; info_hurt := 2;
     info_health := 100; info_damage := 30 |}.

(** The methods a caller can invoke on a character, and a sequence of
    calls: none as soon as one has no result. *)
Inductive call : Type :=
| CallSetFrame (f : Z)
| CallSetAnimation (a : Z)
| CallAnimate (now : F)
| CallAttack
| CallMoving
| CallHurting (dmg : Z)
| CallDeath
| CallUpdatePosition.

Definition invoke (k : call) (c : Character) : option Character :=
  match k with
  | CallSetFrame f => SetFrame f c
  | CallSetAnimation a => SetAnimation a c
  | CallAnimate now => Animate now c
  | CallAttack => Attack c
  | CallMoving => Moving c
  | CallHurting dmg => Hurting dmg c
  | CallDeath => Death c
  | CallUpdatePosition => Some (UpdatePosition c)
  end.

Fixpoint invoke_all (ks : list call) (c : Character) : option Character :=
  match ks with
  | [] => Some c
  | k :: ks =>
      match invoke k c with
      | Some c => invoke_all ks c
      | None => None
      end
  end.

End Character.

Arguments SpriteInfo F : clear implicits.
Arguments Character F Sprite : clear implicits.
Arguments call F : clear implicits.

End Siege.

(** The animation table of a character can be read at every index below
    [nAnimations], its four animation indices are not negative and its
    sheet has columns. *)
Definition tables_ok {F Sprite : Type} (c : Siege.Character F Sprite) : Prop :=
  (0 < Siege.nCols c /\
   Siege.nAnimations c <= Z.of_nat (length (Siege.animations c)) /\
   0 <= Siege.attack c /\ 0 <= Siege.moving c /\ 0 <= Siege.death c /\
   0 <= Siege.hurt c)%Z.

(** The current frame is one of the frames [startFrame], ...,
    [startFrame + nFrames - 1] of the running animation. *)
Definition in_animation {F Sprite : Type} (c : Siege.Character F Sprite) : Prop :=
  (0 <= Siege.startFrame c /\ 1 <= Siege.nFrames c /\
   Siege.startFrame c + Siege.nFrames c - 1 <= INT_MAX /\
   Siege.startFrame c <= Siege.frame c <= Siege.startFrame c + Siege.nFrames c - 1)%Z.

(** A call that does not hand a negative index to [SetAnimation]. *)
Definition safe_call {F : Type} (k : Siege.call F) : Prop :=
  match k with
  | Siege.CallSetAnimation a => (0 <= a)%Z
  | _ => True
  end.

(** The sheet and the tables of [c'] are those of [c]. *)
Definition same_tables {F Sprite : Type} (c c' : Siege.Character F Sprite) : Prop :=
  Siege.nCols c' = Siege.nCols c /\ Siege.nRows c' = Siege.nRows c /\
  Siege.animations c' = Siege.animations c /\
  Siege.nAnimations c' = Siege.nAnimations c /\
  Siege.attack c' = Siege.attack c /\ Siege.moving c' = Siege.moving c /\
  Siege.death c' = Siege.death c /\ Siege.hurt c' = Siege.hurt c.

(** ** Concrete inputs *)

Definition b32 (z : Z) : float32 := fofZ z.

Definition Inverse4_b32 : mat4 float32 -> mat4 float32 :=
  Inverse4 (SD := binary64) (W := widen_b32_b64).

Definition InvertMatrix4x4_b32 : list float32 -> list float32 -> bool * list float32 :=
  InvertMatrix4x4 (SD := binary64) (W := widen_b32_b64).

(** [a = (1,1,1,1)] and [b = (1,1,2,3)] *)
Definition hadamard_a : vec4 float32 := Vec4 (b32 1) (b32 1) (b32 1) (b32 1).
Definition hadamard_b : vec4 float32 := Vec4 (b32 1) (b32 1) (b32 2) (b32 3).

(** [Orthographic(-1, 1, -1, 1, -1, 1)] and the corner [(1,1,1,1)] *)
Definition ortho_unit : mat4 float32 :=
  Orthographic (b32 (-1)) (b32 1) (b32 (-1)) (b32 1) (b32 (-1)) (b32 1).
Definition corner : vec4 float32 := Vec4 (b32 1) (b32 1) (b32 1) (b32 1).

(** The matrix [diag(1, 1, 2^-24)], of determinant 2^-24. *)
Definition near_singular3 : mat3 float32 :=
  Mat3 (Vec3 (b32 1) (b32 0) (b32 0))
       (Vec3 (b32 0) (b32 1) (b32 0))
       (Vec3 (b32 0) (b32 0) (lit 1 16777216)).

(** A matrix of determinant 3 with entries up to 1321. *)
Definition ill_conditioned4 : mat4 float32 :=
  Mat4 (Vec4 (b32 1000) (b32 757) (b32 0) (b32 0))
       (Vec4 (b32 1321) (b32 1000) (b32 0) (b32 0))
       (Vec4 (b32 0) (b32 0) (b32 1) (b32 0))
       (Vec4 (b32 0) (b32 0) (b32 0) (b32 1)).

(** The rotation by a quarter turn about the z axis. *)
Definition quarter_turn_z : mat3 float32 :=
  Mat3 (Vec3 (b32 0) (b32 (-1)) (b32 0))
       (Vec3 (b32 1) (b32 0) (b32 0))
       (Vec3 (b32 0) (b32 0) (b32 1)).

(** A matrix whose second row is twice the first. *)
Definition singular4 : mat4 float32 :=
  Mat4 (Vec4 (b32 1) (b32 2) (b32 3) (b32 4))
       (Vec4 (b32 2) (b32 4) (b32 6) (b32 8))
       (Vec4 (b32 0) (b32 0) (b32 1) (b32 0))
       (Vec4 (b32 0) (b32 0) (b32 0) (b32 1)).

(** The translation by [(5, 7, 9)] composed with the scaling by
    [(1, 2, 4)]. *)
Definition affine4 : mat4 float32 :=
  Mat4 (Vec4 (b32 1) (b32 0) (b32 0) (b32 5))
       (Vec4 (b32 0) (b32 2) (b32 0) (b32 7))
       (Vec4 (b32 0) (b32 0) (b32 4) (b32 9))
       (Vec4 (b32 0) (b32 0) (b32 0) (b32 1)).

(** The scaling by 2 on the first axis, in exact arithmetic. *)
Definition scale2_exact : mat4 R :=
  mat4_set (mat4_diag 1%R) 0 0 2%R.

(** [(-1.5, 2.5)], and a vector whose first component is 2^31. *)
Definition halves2 : vec2 float32 := Vec2 (lit (-3) 2) (lit 5 2).
Definition huge2 : vec2 float32 := Vec2 (b32 (2 ^ 31)) (b32 0).

(** The three points [(0,0)], [(2,3)], [(-1,5)]; a point at infinity. *)
Definition three_points : list (vec2 float32) :=
  [Vec2 (b32 0) (b32 0); Vec2 (b32 2) (b32 3); Vec2 (b32 (-1)) (b32 5)].
Definition point_at_infinity : list (vec2 float32) :=
  [Vec2 (S754_infinity false) (b32 0)].

(** The rotation about the z axis of cosine -4/5 and sine 3/5, of
    negative trace, in exact arithmetic. *)
Definition obtuse_turn_z : mat3 R :=
  Mat3 (Vec3 (-4 / 5) (-3 / 5) 0)%R
       (Vec3 (3 / 5) (-4 / 5) 0)%R
       (Vec3 0 0 1)%R.

(** The identity rotation as a quaternion, and its antipode. *)
Definition quat_pole : Quaternion R := Quat 0%R 0%R 0%R 1%R.
Definition quat_antipode : Quaternion R := Quat 0%R 0%R 0%R (-1)%R.

(** A unit quaternion at [1 + dot = 2/250001] from the antipode of
    [quat_pole]. *)
Definition quat_near_antipode : Quaternion R :=
  Quat (1000 / 250001)%R 0%R 0%R (- (249999 / 250001))%R.

(** The scaling by [(2^-25, 1, 1, 1)], of determinant 2^-25. *)
Definition near_singular4 : mat4 float32 :=
  mat4_set (mat4_diag (b32 1)) 0 0 (lit 1 33554432).

(** A matrix with two equal rows. *)
Definition repeated_row4 : mat4 float32 :=
  Mat4 (Vec4 (b32 1) (b32 3) (b32 5) (b32 7))
       (Vec4 (b32 1) (b32 3) (b32 5) (b32 7))
       (Vec4 (lit 1 3) (lit 1 7) (lit 1 11) (lit 1 13))
       (Vec4 (lit 1 17) (lit 1 19) (lit 1 23) (lit 1 29)).

(** A matrix of numbers with a negative zero among its entries. *)
Definition signed_zero4 : mat4 float32 :=
  Mat4 (Vec4 (b32 2) (S754_zero true) (b32 0) (lit 1 3))
       (Vec4 (b32 (-7)) (b32 1) (S754_zero true) (b32 0))
       (Vec4 (b32 0) (b32 0) (lit (-5) 7) (b32 1))
       (Vec4 (S754_zero true) (b32 0) (b32 0) (b32 1)).

(** The point [(0.1, -2, 0)] and the translation by [(0.2, 2, -0)]. *)
Definition tenth_point : vec3 float32 := Vec3 (lit 1 10) (b32 (-2)) (b32 0).
Definition fifth_shift : vec3 float32 := Vec3 (lit 1 5) (b32 2) (S754_zero true).

(** A sprite that is nothing but its position, on which the calls on
    the sheet do nothing, and an archer made of it at time 0. *)
Definition plain_position (s : vec2 float32) : vec2 float32 := s.
Definition plain_SetUVforFrame (row col nRows nCols : Z) (s : vec2 float32) :
  vec2 float32 := s.
Definition plain_Release (s : vec2 float32) : vec2 float32 := s.
Definition plain_SetPosition (p s : vec2 float32) : vec2 float32 := p.

Definition archer : Siege.Character float32 (vec2 float32) :=
  Siege.Character_of (Vec2 (lit (-85) 100) (lit (-35) 100)) Siege.archerInfo (b32 0).

(** A matrix of determinant 10, and one of determinant 3 with entries
    up to 1321. *)
Definition det10_3 : mat3 float32 :=
  Mat3 (Vec3 (b32 4) (b32 7) (b32 0))
       (Vec3 (b32 2) (b32 6) (b32 0))
       (Vec3 (b32 0) (b32 0) (b32 1)).
Definition ill_conditioned3 : mat3 float32 :=
  Mat3 (Vec3 (b32 1000) (b32 757) (b32 0))
       (Vec3 (b32 1321) (b32 1000) (b32 0))
       (Vec3 (b32 0) (b32 0) (b32 1)).

(** The scalings by 2^-50 and by 2^43, of determinants 2^-200 and
    2^172. *)
Definition tiny_scale4 : mat4 float32 := mat4_diag (lit 1 (2 ^ 50)).
Definition huge_scale4 : mat4 float32 := mat4_diag (b32 (2 ^ 43)).

(** Vectors and matrices with an infinity among their components. *)
Definition infinite_first2 : vec2 float32 := Vec2 (S754_infinity false) (b32 1).
Definition zero_first2 : vec2 float32 := Vec2 (b32 0) (lit 1 3).
Definition infinite_corner3 : mat3 float32 :=
  Mat3 (Vec3 (S754_infinity false) (b32 0) (b32 1))
       (Vec3 (lit 1 3) (S754_zero true) (b32 2))
       (Vec3 (b32 5) (b32 (-7)) (S754_infinity true)).
Definition infinite_corner4 : mat4 float32 :=
  mat4_set signed_zero4 0 0 (S754_infinity false).

(** ** Properties *)

Unset Implicit Arguments.
Local Open Scope fl_scope.

(** *** Unfolding and extensionality *)

(** Unfolding of the code down to the operations of the carrier, for
    goals in exact arithmetic (the real operations are left alone). *)
Ltac unfold_code :=
  cbv [Inverse4 InvertMatrix4x4 Helper.invert Helper.determinant
       Helper.cofactors Helper.invf Helper.e
       mat4_mul mat4_diag mat4_set mat4_get mat4_row mat4_set_row
       vec4_get vec4_set vec4_s flat4 unflat4 buf_get buf_set
       for_n fold_left seq repeat flat_map app map nth
       det4 det3 minor4 skip
       mat3_diag mat3_set mat3_set_row mat3_get mat3_row vec3_get vec3_set vec3_s
       mat3_map vec3_map mat3_mul Transpose3 Adjoint3x3 det3_of_adjoint dot3
       m3r0 m3r1 m3r2 x3 y3 z3 m4r0 m4r1 m4r2 m4r3 x4 y4 z4 w4
       qx qy qz qw Norm Dot quat_add quat_scale
       zero one two lit
       fadd fsub fmul fdiv fneg fofZ exactR widen narrow widen_exact
       Nat.mul Nat.add Nat.ltb Nat.leb Nat.modulo Nat.div Nat.divmod Nat.sub
       fst snd
       Z.of_nat Z.to_nat Z.rem Z.quotrem Z.add Z.sub Z.mul Z.opp Z.eqb
       Z.pos_sub Z.succ_double Z.pred_double Z.double Z.of_N
       Pos.of_succ_nat Pos.succ Pos.add Pos.mul Pos.to_nat Pos.iter_op
       Pos.pred_double Pos.eqb Pos.add_carry Pos.compare Pos.compare_cont
       Pos.sub_mask Pos.double_mask Pos.succ_double_mask Pos.double_pred_mask
       Pos.sub_mask_carry Pos.leb
       N.pos_div_eucl N.leb N.compare N.sub N.succ_double N.double].

Lemma mat4_ext {F} (a b c d a' b' c' d' : vec4 F) :
  a = a' -> b = b' -> c = c' -> d = d' -> Mat4 a b c d = Mat4 a' b' c' d'.
Proof. congruence. Qed.

Lemma vec4_ext {F} (a b c d a' b' c' d' : F) :
  a = a' -> b = b' -> c = c' -> d = d' -> Vec4 a b c d = Vec4 a' b' c' d'.
Proof. congruence. Qed.

Lemma mat3_ext {F} (a b c a' b' c' : vec3 F) :
  a = a' -> b = b' -> c = c' -> Mat3 a b c = Mat3 a' b' c'.
Proof. congruence. Qed.

Lemma vec3_ext {F} (a b c a' b' c' : F) :
  a = a' -> b = b' -> c = c' -> Vec3 a b c = Vec3 a' b' c'.
Proof. congruence. Qed.

(** *** Hadamard product of vec4 *)

(** In every carrier the [w] component of [a*b] is [a.w * b.z]. *)
Lemma vec4_mul_w {F} {SF : Scalar F} (a b : vec4 F) :
  w4 (vec4_mul a b) = w4 a * z4 b.
Proof. reflexivity. Qed.

(** C1 (the code departs from the claim): at [a = (1,1,1,1)] and
    [b = (1,1,2,3)] in binary32 the [w] component of [a*b] is [2], the
    product [a.w * b.z], while the componentwise product [a.w * b.w] is
    [3]; the in-place operator [*=] does return [3] there. *)
Theorem vec4_mul_w_not_hadamard :
  w4 (vec4_mul hadamard_a hadamard_b) = b32 2 /\
  w4 hadamard_a * w4 hadamard_b = b32 3 /\
  w4 (vec4_mul_assign hadamard_a hadamard_b) = b32 3 /\
  (w4 (vec4_mul hadamard_a hadamard_b) ==? w4 hadamard_a * w4 hadamard_b) = false.
Proof. vm_compute. repeat split; reflexivity. Qed.

(** *** Orthographic *)

(** C5, as stated, fails: the product is not [(1,1,1,1)], its [z]
    component does not compare equal to [1]. *)
Lemma Orthographic_corner_not_fixed :
  mat4_mul_vec ortho_unit corner <> corner /\
  (z4 (mat4_mul_vec ortho_unit corner) ==? z4 corner) = false.
Proof. split; [ vm_compute; discriminate | vm_compute; reflexivity ]. Qed.

(** C5, amended: [Orthographic(-1,1,-1,1,-1,1)] applied to [(1,1,1,1)]
    yields exactly [(1,1,-1,1)]: the [z] axis is reversed, since
    [c[2][2]] is [2/(zNear - zFar)]. *)
Theorem Orthographic_corner :
  mat4_mul_vec ortho_unit corner = Vec4 (b32 1) (b32 1) (b32 (-1)) (b32 1).
Proof. vm_compute. reflexivity. Qed.

(** *** InvertMatrix3x3 *)

(** The nine assignments of [Adjoint3x3] build the transposed cofactor
    matrix. *)
Lemma Adjoint3x3_entries {F} {SF : Scalar F} (inp : mat3 F) :
  let i := mat3_get inp in
  Adjoint3x3 inp =
  Mat3 (Vec3 (i 1 1 * i 2 2 - i 1 2 * i 2 1)
             (- (i 0 1 * i 2 2 - i 0 2 * i 2 1))
             (i 0 1 * i 1 2 - i 0 2 * i 1 1))
       (Vec3 (- (i 1 0 * i 2 2 - i 1 2 * i 2 0))
             (i 0 0 * i 2 2 - i 0 2 * i 2 0)
             (- (i 0 0 * i 1 2 - i 0 2 * i 1 0)))
       (Vec3 (i 1 0 * i 2 1 - i 1 1 * i 2 0)
             (- (i 0 0 * i 2 1 - i 0 1 * i 2 0))
             (i 0 0 * i 1 1 - i 0 1 * i 1 0)).
Proof. destruct inp as [[? ? ?] [? ? ?] [? ? ?]]. reflexivity. Qed.

(** In every carrier, operation for operation: [Adjoint3x3] is the
    adjugate, and the [det] of [InvertMatrix3x3] is the expansion of
    the determinant along the first column. *)
Lemma Adjoint3x3_adjugate {F} {SF : Scalar F} (inp : mat3 F) :
  Adjoint3x3 inp = adjugate3 inp /\
  det3_of_adjoint inp (Adjoint3x3 inp) = det3_by_column inp.
Proof. destruct inp as [[? ? ?] [? ? ?] [? ? ?]]. split; reflexivity. Qed.

(** In every carrier: the flag is the two-sided test on the determinant
    computed from the adjoint; on [false] the adjoint is left in [out]
    as it is, on [true] every entry is multiplied by [1/det]. *)
Lemma InvertMatrix3x3_unfold {F} {SF : Scalar F} (inp out : mat3 F) :
  let adj := Adjoint3x3 inp in
  let det := det3_of_adjoint inp adj in
  InvertMatrix3x3 inp out =
  if (det <? FLT_EPSILON) && (det >? - FLT_EPSILON) then (false, adj)
  else (true, mat3_map (fun a => one / det * a) adj).
Proof.
  unfold InvertMatrix3x3. cbv zeta.
  generalize (det3_of_adjoint inp (Adjoint3x3 inp)).
  generalize (Adjoint3x3 inp).
  intros [[? ? ?] [? ? ?] [? ? ?]] det.
  destruct ((det <? FLT_EPSILON) && (det >? - FLT_EPSILON)); reflexivity.
Qed.

(** In binary32 the two-sided test [d < eps && d > -eps] is [|d| < eps],
    for every positive finite [eps]; a NaN fails both. *)
Lemma b32_abs_lt (d : float32) (m : positive) (k : Z) :
  let eps := S754_finite false m k in
  SFltb d eps && SFltb (SFopp eps) d = SFltb (SFabs d) eps.
Proof.
  cbv zeta.
  destruct d as [[] | [] | | [] md ed]; try reflexivity; unfold SFltb; simpl.
  - rewrite (Z.compare_antisym ed k).
    destruct (ed ?= k)%Z; simpl; try reflexivity.
    change (Pos.compare_cont Eq m md) with (m ?= md)%positive.
    change (Pos.compare_cont Eq md m) with (md ?= m)%positive.
    rewrite (Pos.compare_antisym md m).
    destruct (md ?= m)%positive; reflexivity.
  - destruct (ed ?= k)%Z; try reflexivity.
    destruct (Pos.compare_cont Eq md m); reflexivity.
Qed.

(** In binary32, against the adjugate and the determinant by cofactors. *)
Lemma InvertMatrix3x3_b32 (inp out : mat3 float32) :
  let det := det3_by_column inp in
  InvertMatrix3x3 inp out =
  if fabs det <? FLT_EPSILON then (false, adjugate3 inp)
  else (true, mat3_map (fun a => one / det * a) (adjugate3 inp)).
Proof.
  intros det. rewrite InvertMatrix3x3_unfold. cbv zeta.
  destruct (Adjoint3x3_adjugate inp) as [-> ->]. fold det.
  change (FLT_EPSILON (F := float32))
    with (S754_finite false 8388608 (-46)).
  change (det <? S754_finite false 8388608 (-46))
    with (SFltb det (S754_finite false 8388608 (-46))).
  change (det >? - S754_finite false 8388608 (-46))
    with (SFltb (SFopp (S754_finite false 8388608 (-46))) det).
  rewrite b32_abs_lt. reflexivity.
Qed.

(** In exact arithmetic the expansion along the first column is the
    determinant, the entries written on [true] are those of the
    adjugate divided by it, and the product of the input with the
    output, on either side, is the identity on [true] and the
    determinant times the identity on [false]. *)
Lemma det3_by_column_exact (m : mat3 R) : det3_by_column m = det3 m.
Proof.
  destruct m as [[a b c] [d e f] [g h i]].
  cbv [det3_by_column cofactor3 det2 Nat.even].
  unfold_code. ring.
Qed.

Lemma FLT_EPSILON_pos : (0 < FLT_EPSILON)%R.
Proof. cbv [FLT_EPSILON]. unfold_code. lra. Qed.

Lemma InvertMatrix3x3_exact (m out : mat3 R) :
  InvertMatrix3x3 m out =
  if Rltb (Rabs (det3 m)) FLT_EPSILON then (false, adjugate3 m)
  else (true, mat3_map (fun a => (a / det3 m)%R) (adjugate3 m)).
Proof.
  rewrite InvertMatrix3x3_unfold. cbv zeta.
  destruct (Adjoint3x3_adjugate m) as [-> ->].
  rewrite det3_by_column_exact.
  change (det3 m <? FLT_EPSILON) with (Rltb (det3 m) FLT_EPSILON).
  change (det3 m >? - FLT_EPSILON) with (Rltb (- FLT_EPSILON) (det3 m)).
  assert (P := FLT_EPSILON_pos).
  unfold Rltb.
  destruct (Rlt_dec (Rabs (det3 m)) FLT_EPSILON) as [A | A];
    destruct (Rlt_dec (det3 m) FLT_EPSILON) as [H1 | H1];
    destruct (Rlt_dec (- FLT_EPSILON) (det3 m)) as [H2 | H2];
    cbn [andb]; revert A; unfold Rabs; destruct (Rcase_abs (det3 m)); intros A;
    try (exfalso; lra); try reflexivity;
    (assert (N : det3 m <> 0%R) by lra);
    f_equal; unfold mat3_map, vec3_map; apply mat3_ext; apply vec3_ext;
    change (one / det3 m * ?a) with (1 / det3 m * a)%R; field; exact N.
Qed.

Lemma InvertMatrix3x3_products (m out : mat3 R) :
  let r := InvertMatrix3x3 m out in
  mat3_mul m (snd r) = mat3_diag (if fst r then 1%R else det3 m) /\
  mat3_mul (snd r) m = mat3_diag (if fst r then 1%R else det3 m).
Proof.
  cbv zeta. rewrite InvertMatrix3x3_exact.
  assert (P := FLT_EPSILON_pos).
  unfold Rltb.
  destruct (Rlt_dec (Rabs (det3 m)) FLT_EPSILON) as [A | A]; cbn [fst snd].
  - clear. destruct m as [[a b c] [d e f] [g h i]].
    cbv [adjugate3 cofactor3 det2 Nat.even].
    unfold_code. split; apply mat3_ext; apply vec3_ext; ring.
  - assert (N : det3 m <> 0%R).
    { intros E. rewrite E, Rabs_R0 in A. lra. }
    revert N. clear. destruct m as [[a b c] [d e f] [g h i]].
    cbv [adjugate3 cofactor3 det2 Nat.even].
    unfold_code. intros N. split; apply mat3_ext; apply vec3_ext; field; exact N.
Qed.

(** C3, as stated, fails.  On [diag(1, 1, 2^-24)] the determinant is
    2^-24, the function returns [false] and leaves the adjoint
    [diag(2^-24, 2^-24, 1)] in [out]; the adjoint divided by the
    determinant would have 2^24 in its last entry.  On [true] the
    output is not the inverse to the last bit: for the matrix with rows
    [(4, 7, 0)], [(2, 6, 0)], [(0, 0, 1)], of determinant 10, the entry
    [0][0] of the product with the output is 1 + 2^-23; and the entries
    are products with [1/det], not quotients by [det]: for the matrix
    with rows [(1000, 757, 0)], [(1321, 1000, 0)], [(0, 0, 1)], of
    determinant 3, the entry [0][1] is -16536918 * 2^-16 where
    [-757 / 3] rounds to -16536917 * 2^-16. *)
Lemma InvertMatrix3x3_false_not_divided :
  let r := InvertMatrix3x3 near_singular3 (mat3_diag one) in
  let adj := Adjoint3x3 near_singular3 in
  let det := det3_of_adjoint near_singular3 adj in
  fst r = false /\
  det = lit 1 16777216 /\
  mat3_get (snd r) 2 2 = b32 1 /\
  mat3_get adj 2 2 / det = b32 16777216 /\
  one / det * mat3_get adj 2 2 = b32 16777216 /\
  snd r <> mat3_map (fun a => a / det) adj /\
  snd r <> mat3_map (fun a => one / det * a) adj /\
  (let r := InvertMatrix3x3 det10_3 (mat3_diag one) in
   fst r = true /\
   det3_by_column det10_3 = b32 10 /\
   mat3_get (mat3_mul det10_3 (snd r)) 0 0 = S754_finite false 8388609 (-23) /\
   mat3_mul det10_3 (snd r) <> mat3_diag one) /\
  (let r := InvertMatrix3x3 ill_conditioned3 (mat3_diag one) in
   let adj := adjugate3 ill_conditioned3 in
   let det := det3_by_column ill_conditioned3 in
   fst r = true /\ det = b32 3 /\ mat3_get adj 0 1 = b32 (-757) /\
   mat3_get (snd r) 0 1 = S754_finite true 16536918 (-16) /\
   mat3_get adj 0 1 / det = S754_finite true 16536917 (-16)).
Proof.
  vm_compute. repeat split; try reflexivity; discriminate.
Qed.

(** C3, amended.  In binary32, for every input, [InvertMatrix3x3]
    returns [false] exactly when the determinant, expanded along the
    first column, satisfies [|det| < FLT_EPSILON]; on [false] the
    output holds the adjugate, not divided; on [true] it holds the
    adjugate with every entry multiplied by [1/det].  In exact
    arithmetic that determinant is the determinant, the output on
    [true] is the adjugate divided by it, and it is the inverse: the
    product with the input, on either side, is the identity (on
    [false] it is the determinant times the identity). *)
Theorem InvertMatrix3x3_spec (inp out : mat3 float32) (m outR : mat3 R) :
  (let det := det3_by_column inp in
   InvertMatrix3x3 inp out =
   if fabs det <? FLT_EPSILON then (false, adjugate3 inp)
   else (true, mat3_map (fun a => one / det * a) (adjugate3 inp))) /\
  det3_by_column m = det3 m /\
  (InvertMatrix3x3 m outR =
   if Rltb (Rabs (det3 m)) FLT_EPSILON then (false, adjugate3 m)
   else (true, mat3_map (fun a => (a / det3 m)%R) (adjugate3 m))) /\
  (let r := InvertMatrix3x3 m outR in
   mat3_mul m (snd r) = mat3_diag (if fst r then 1%R else det3 m) /\
   mat3_mul (snd r) m = mat3_diag (if fst r then 1%R else det3 m)).
Proof.
  split; [exact (InvertMatrix3x3_b32 inp out) |].
  split; [exact (det3_by_column_exact m) |].
  split; [exact (InvertMatrix3x3_exact m outR) |].
  exact (InvertMatrix3x3_products m outR).
Qed.

(** *** InvertMatrix4x4 *)

Section Invert4Facts.

Context {F D : Type} {SF : Scalar F} {SD : Scalar D} {W : Widen F D}.

(** The double loop of [invert] stores [invf(i, j, m)] at [inv[j*4+i]]. *)
Lemma cofactors_entries (m : list F) :
  Helper.cofactors m =
  map (fun k => Helper.invf (Z.of_nat (k mod 4)) (Z.of_nat (k / 4)) m) (seq 0 16).
Proof. reflexivity. Qed.

Lemma cofactors_length (m : list F) : length (Helper.cofactors m) = 16%nat.
Proof. reflexivity. Qed.

(** The loop over [k] sums the first row of [m] against the first
    column of [inv], in [double]. *)
Lemma determinant_unfold (m : list F) :
  let inv := Helper.cofactors m in
  let t k := (widen (buf_get m k) * widen (buf_get inv (k * 4)) : D) in
  Helper.determinant m = zero + t 0%nat + t 1%nat + t 2%nat + t 3%nat.
Proof. reflexivity. Qed.

(** The final loop of [invert] overwrites the sixteen floats of [out]. *)
Lemma scale_loop (g : F -> F) (inv out : list F) :
  length inv = 16%nat -> length out = 16%nat ->
  for_n 16 (fun i out => buf_set out i (g (buf_get inv i))) out = map g inv.
Proof.
  intros Hi Ho.
  do 17 (destruct inv as [| ? inv]; try discriminate Hi).
  do 17 (destruct out as [| ? out]; try discriminate Ho).
  reflexivity.
Qed.

(** In every carrier: [false] and an untouched buffer when [D == 0],
    otherwise [true] and every cofactor multiplied by [1/D] in
    [double] and converted back. *)
Lemma invert_unfold (m out : list F) :
  length out = 16%nat ->
  let inv := Helper.cofactors m in
  let d : D := Helper.determinant m in
  Helper.invert m out =
  if d ==? zero then (false, out)
  else (true, map (fun c => narrow (widen c * (one / d))) inv).
Proof.
  intros Ho inv d. unfold Helper.invert. fold inv d.
  destruct (d ==? zero); [reflexivity |].
  f_equal.
  apply (scale_loop (fun c => narrow (widen c * (one / d)))); [reflexivity | exact Ho].
Qed.

End Invert4Facts.

(** In exact arithmetic the [D] of [invert] is the determinant. *)
Lemma determinant_exact (m : mat4 R) :
  Helper.determinant (D := R) (flat4 m) = det4 m.
Proof.
  destruct m as [[a00 a01 a02 a03] [a10 a11 a12 a13]
                 [a20 a21 a22 a23] [a30 a31 a32 a33]].
  unfold_code. ring.
Qed.

(** In exact arithmetic [invf(i, j, m)] is the cofactor of [m[i][j]]:
    the signed determinant of the minor without row [i] and column [j]. *)
Lemma invf_cofactor_exact (m : mat4 R) (i j : nat) :
  (i < 4)%nat -> (j < 4)%nat ->
  Helper.invf (Z.of_nat i) (Z.of_nat j) (flat4 m) =
  (if Nat.even (i + j) then det3 (minor4 m i j) else - det3 (minor4 m i j))%R.
Proof.
  intros Hi Hj.
  destruct m as [[a00 a01 a02 a03] [a10 a11 a12 a13]
                 [a20 a21 a22 a23] [a30 a31 a32 a33]].
  assert (Ci : (i = 0 \/ i = 1 \/ i = 2 \/ i = 3)%nat) by lia.
  assert (Cj : (j = 0 \/ j = 1 \/ j = 2 \/ j = 3)%nat) by lia.
  clear Hi Hj.
  destruct Ci as [-> | [-> | [-> | ->]]];
    destruct Cj as [-> | [-> | [-> | ->]]];
    unfold_code; cbv [Nat.even]; ring.
Qed.

(** In exact arithmetic the array [inv] of [invert] is the adjugate,
    what is written on [true] is the adjugate divided by the
    determinant, and that matrix is the inverse. *)
Lemma cofactors_adjugate_exact (m : mat4 R) :
  Helper.cofactors (flat4 m) = flat4 (adjugate4 m).
Proof.
  destruct m as [[a00 a01 a02 a03] [a10 a11 a12 a13]
                 [a20 a21 a22 a23] [a30 a31 a32 a33]].
  cbv [adjugate4 cofactor4 Nat.even].
  unfold_code.
  repeat (apply (f_equal2 cons); [ring |]). reflexivity.
Qed.

Lemma scaled_adjugate (d : R) (a : mat4 R) :
  map (fun c => narrow (widen c * (one / d))) (flat4 a) =
  flat4 (mat4_map (fun c => (c / d)%R) a).
Proof.
  destruct a as [[a00 a01 a02 a03] [a10 a11 a12 a13]
                 [a20 a21 a22 a23] [a30 a31 a32 a33]].
  cbv [mat4_map vec4_map]. unfold_code.
  repeat (apply (f_equal2 cons); [unfold Rdiv; ring |]). reflexivity.
Qed.

Lemma InvertMatrix4x4_exact (m : mat4 R) (out : list R) :
  length out = 16%nat ->
  InvertMatrix4x4 (D := R) (flat4 m) out =
  if Reqb (det4 m) 0 then (false, out)
  else (true, flat4 (mat4_map (fun c => (c / det4 m)%R) (adjugate4 m))).
Proof.
  intros Ho. unfold InvertMatrix4x4.
  rewrite (invert_unfold (D := R)) by exact Ho. cbv zeta.
  rewrite determinant_exact, cofactors_adjugate_exact.
  change (det4 m ==? zero) with (Reqb (det4 m) 0).
  destruct (Reqb (det4 m) 0); [reflexivity |].
  f_equal. apply scaled_adjugate.
Qed.

Lemma adjugate4_inverse (m : mat4 R) :
  det4 m <> 0%R ->
  let inv := mat4_map (fun c => (c / det4 m)%R) (adjugate4 m) in
  mat4_mul m inv = mat4_diag 1%R /\ mat4_mul inv m = mat4_diag 1%R.
Proof.
  intros N. cbv zeta. revert N.
  destruct m as [[a00 a01 a02 a03] [a10 a11 a12 a13]
                 [a20 a21 a22 a23] [a30 a31 a32 a33]].
  cbv [adjugate4 cofactor4 Nat.even mat4_map vec4_map].
  unfold_code. intros N.
  split; apply mat4_ext; apply vec4_ext; field; exact N.
Qed.

(** The two scalings, and the real determinant of a scaling by a
    finite binary32 value. *)
Lemma tiny_entry : lit 1 (2 ^ 50) = S754_finite false 8388608 (-73) :> float32.
Proof. vm_compute. reflexivity. Qed.

Lemma huge_entry : b32 (2 ^ 43) = S754_finite false 8388608 20.
Proof. vm_compute. reflexivity. Qed.

Lemma det4_diag_b32 (s : bool) (m : positive) (e : Z) :
  det4 (mat4_to_R (mat4_diag (S754_finite s m e))) <> 0%R.
Proof.
  set (a := b32_to_R (S754_finite s m e)).
  assert (Ha : a <> 0%R).
  { unfold a, b32_to_R. apply Rmult_integral_contrapositive_currified.
    - apply not_0_IZR. destruct s; discriminate.
    - apply Rgt_not_eq, powerRZ_lt. lra. }
  replace (det4 (mat4_to_R (mat4_diag (S754_finite s m e)))) with (a * a * a * a)%R.
  - clearbody a.
    repeat (apply Rmult_integral_contrapositive_currified; [| exact Ha]). exact Ha.
  - unfold a. generalize (S754_finite s m e). intros x.
    cbv [mat4_to_R vec4_to_R]. unfold_code.
    cbv [binary32 b32_ofZ binary_normalize b32_to_R]. ring.
Qed.

Lemma det4_scale2_exact : det4 scale2_exact <> 0%R.
Proof. unfold scale2_exact. unfold_code. lra. Qed.

(** C2, as stated, fails.  The scaling by 2^-50 has a non-zero
    determinant, 2^-200, but its cofactors, 2^-150, underflow to zero:
    the computed determinant is zero, the function returns [false] and
    writes nothing.  The scaling by 2^43 has cofactors 2^129, which
    overflow to an infinity: the computed determinant is an infinity,
    the function returns [true], and what it writes on the diagonal is
    [infinity * 0], a NaN, not the inverse 2^-43. *)
Lemma InvertMatrix4x4_not_the_inverse :
  let out := flat4 (mat4_diag (b32 7)) in
  (det4 (mat4_to_R tiny_scale4) <> 0%R /\
   Helper.determinant (SD := binary64) (W := widen_b32_b64) (flat4 tiny_scale4)
     = S754_zero false /\
   InvertMatrix4x4_b32 (flat4 tiny_scale4) out = (false, out)) /\
  (det4 (mat4_to_R huge_scale4) <> 0%R /\
   Helper.determinant (SD := binary64) (W := widen_b32_b64) (flat4 huge_scale4)
     = S754_infinity false /\
   fst (InvertMatrix4x4_b32 (flat4 huge_scale4) out) = true /\
   buf_get (snd (InvertMatrix4x4_b32 (flat4 huge_scale4) out)) 0 = S754_nan).
Proof.
  cbv zeta. split; split.
  - unfold tiny_scale4. rewrite tiny_entry. apply det4_diag_b32.
  - split; vm_compute; reflexivity.
  - unfold huge_scale4. rewrite huge_entry. apply det4_diag_b32.
  - repeat split; vm_compute; reflexivity.
Qed.

(** C2, amended.  In binary32: [InvertMatrix4x4] returns [false]
    exactly when the determinant it computes, the sum in [double] of
    the first row of [m] against the cofactors [inv[0]], [inv[4]],
    [inv[8]], [inv[12]], compares equal to zero, and then leaves the
    output buffer as it was; otherwise it returns [true] and the buffer
    holds every cofactor multiplied by [1/D] in [double] and converted
    to [float].  In exact arithmetic: the array [inv] is the adjugate,
    [D] is the determinant, [false] is returned with the buffer
    untouched when the determinant is zero, and otherwise [true] with
    the adjugate divided by the determinant, which is the inverse. *)
Theorem InvertMatrix4x4_spec (m out : list float32) (e : mat4 R) (outR : list R) :
  length out = 16%nat -> length outR = 16%nat ->
  (let inv := Helper.cofactors m in
   let t k := SFmul 53 1024 (b32_to_b64 (buf_get m k))
                            (b32_to_b64 (buf_get inv (k * 4))) in
   let d := SFadd 53 1024 (SFadd 53 1024 (SFadd 53 1024 (SFadd 53 1024
              (b64_ofZ 0) (t 0%nat)) (t 1%nat)) (t 2%nat)) (t 3%nat) in
   (fst (InvertMatrix4x4_b32 m out) = false <-> SFeqb d (S754_zero false) = true) /\
   InvertMatrix4x4_b32 m out =
   if SFeqb d (S754_zero false) then (false, out)
   else (true, map (fun c => b64_to_b32 (SFmul 53 1024 (b32_to_b64 c)
                                           (SFdiv 53 1024 (b64_ofZ 1) d))) inv)) /\
  Helper.cofactors (flat4 e) = flat4 (adjugate4 e) /\
  Helper.determinant (D := R) (flat4 e) = det4 e /\
  (det4 e = 0%R -> InvertMatrix4x4 (D := R) (flat4 e) outR = (false, outR)) /\
  (det4 e <> 0%R ->
   let inv := mat4_map (fun c => (c / det4 e)%R) (adjugate4 e) in
   InvertMatrix4x4 (D := R) (flat4 e) outR = (true, flat4 inv) /\
   mat4_mul e inv = mat4_diag 1%R /\ mat4_mul inv e = mat4_diag 1%R).
Proof.
  intros Ho HoR. split.
  - intros inv t d.
    assert (E := invert_unfold (SD := binary64) (W := widen_b32_b64) m out Ho).
    cbv zeta in E. rewrite (determinant_unfold (D := float64)) in E.
    unfold InvertMatrix4x4_b32, InvertMatrix4x4. rewrite E.
    change (@fadd float64 binary64) with (SFadd 53 1024).
    fold inv. cbv zeta.
    change (?a ==? zero) with (SFeqb d (S754_zero false)).
    split; [| reflexivity].
    destruct (SFeqb d (S754_zero false)); simpl; split; congruence.
  - split; [apply cofactors_adjugate_exact |].
    split; [apply determinant_exact |].
    assert (E := InvertMatrix4x4_exact e outR HoR). unfold Reqb in E.
    split.
    + intros Z. destruct (Req_dec_T (det4 e) 0) as [_ | N]; [exact E | contradiction].
    + intros N. cbv zeta.
      destruct (Req_dec_T (det4 e) 0) as [Z | _]; [contradiction |].
      split; [exact E | exact (adjugate4_inverse e N)].
Qed.

(** The test is not an epsilon band: the scaling by [(2^-25, 1, 1, 1)]
    has a determinant below [FLT_EPSILON] and is inverted; in exact
    arithmetic the scaling by [(2, 1, 1, 1)] is inverted. *)
Lemma InvertMatrix4x4_spec_witness :
  let out := flat4 (mat4_diag (b32 1)) in
  let outR := flat4 (mat4_diag 1%R) in
  let inv := mat4_map (fun c => (c / det4 scale2_exact)%R) (adjugate4 scale2_exact) in
  length out = 16%nat /\ length outR = 16%nat /\
  det4 near_singular4 = lit 1 33554432 /\
  (fabs (det4 near_singular4) <? FLT_EPSILON) = true /\
  fst (InvertMatrix4x4_b32 (flat4 near_singular4) out) = true /\
  det4 scale2_exact <> 0%R /\
  InvertMatrix4x4 (D := R) (flat4 scale2_exact) outR = (true, flat4 inv) /\
  mat4_mul scale2_exact inv = mat4_diag 1%R /\
  mat4_mul inv scale2_exact = mat4_diag 1%R.
Proof.
  cbv zeta.
  split; [reflexivity |].
  split; [reflexivity |].
  split; [vm_compute; reflexivity |].
  split; [vm_compute; reflexivity |].
  destruct (InvertMatrix4x4_spec (flat4 near_singular4) (flat4 (mat4_diag (b32 1)))
              scale2_exact (flat4 (mat4_diag 1%R)) eq_refl eq_refl)
    as [[_ E] [_ [_ [_ X]]]].
  split; [rewrite E; vm_compute; reflexivity |].
  split; [exact det4_scale2_exact |].
  exact (X det4_scale2_exact).
Defined.

(** C10, amended: for every matrix whose determinant, as computed by
    [InvertMatrix4x4], compares equal to zero, [Inverse] returns the
    default-constructed [inv], the identity matrix. *)
Theorem Inverse4_singular (m : mat4 float32) :
  SFeqb (Helper.determinant (SD := binary64) (W := widen_b32_b64) (flat4 m))
        (S754_zero false) = true ->
  Inverse4_b32 m = mat4_diag one.
Proof.
  intros Hd. unfold Inverse4_b32, Inverse4.
  assert (E := invert_unfold (SD := binary64) (W := widen_b32_b64)
                 (flat4 m) (flat4 (mat4_diag one)) eq_refl).
  cbv zeta in E. unfold InvertMatrix4x4. rewrite E.
  change (Helper.determinant (flat4 m) ==? zero)
    with (SFeqb (Helper.determinant (SD := binary64) (W := widen_b32_b64) (flat4 m))
                (S754_zero false)).
  rewrite Hd. reflexivity.
Qed.

Lemma Inverse4_singular_witness : Inverse4_b32 singular4 = mat4_diag one.
Proof. apply Inverse4_singular. vm_compute. reflexivity. Defined.

(** *** Inverse of a 4x4 matrix *)

(** The real matrix that [ill_conditioned4] denotes. *)
Ltac b32_value z :=
  let v := eval vm_compute in (b32 z) in
  replace (b32 z) with v by (vm_compute; reflexivity).

Lemma ill_conditioned4_R :
  mat4_to_R ill_conditioned4 =
  (Mat4 (Vec4 1000 757 0 0) (Vec4 1321 1000 0 0) (Vec4 0 0 1 0) (Vec4 0 0 0 1))%R.
Proof.
  unfold ill_conditioned4.
  b32_value 1000%Z. b32_value 757%Z. b32_value 1321%Z. b32_value 1%Z. b32_value 0%Z.
  cbv [mat4_to_R vec4_to_R b32_to_R m4r0 m4r1 m4r2 m4r3 x4 y4 z4 w4 cond_Zopp].
  apply mat4_ext; apply vec4_ext; try reflexivity;
    unfold powerRZ; simpl; lra.
Qed.

(** C4, as stated, fails in binary32: the matrix with rows
    [(1000, 757, 0, 0)], [(1321, 1000, 0, 0)], [(0, 0, 1, 0)],
    [(0, 0, 0, 1)] has determinant 3, computed as exactly 3, yet the
    entry [1][1] of [M * Inverse(M)] is 1.03125 and the entry [0][1] is
    0.015625. *)
Lemma Inverse4_not_within_tolerance :
  let m := ill_conditioned4 in
  let p := mat4_mul m (Inverse4_b32 m) in
  Helper.determinant (SD := binary64) (W := widen_b32_b64) (flat4 m) = b64_ofZ 3 /\
  det4 m = b32 3 /\
  mat4_get p 1 1 = S754_finite false 8650752 (-23) /\
  mat4_get p 0 1 = S754_finite false 8388608 (-29) /\
  (Rabs (b32_to_R (S754_finite false 8650752 (-23)) - 1) > 1 / 10000)%R /\
  (Rabs (b32_to_R (S754_finite false 8388608 (-29)) - 0) > 1 / 10000)%R.
Proof.
  cbv zeta.
  split; [vm_compute; reflexivity |].
  split; [vm_compute; reflexivity |].
  split; [vm_compute; reflexivity |].
  split; [vm_compute; reflexivity |].
  unfold b32_to_R, cond_Zopp, powerRZ.
  split; (unfold Rabs; destruct Rcase_abs; simpl in *; lra).
Qed.

(** C4, amended.  In exact arithmetic, for every [M] of non-zero
    determinant, [M * Inverse(M)] is the identity matrix.  In binary32
    it is not within 1e-4 of the identity for every such [M]: for the
    matrix with rows [(1000, 757, 0, 0)], [(1321, 1000, 0, 0)],
    [(0, 0, 1, 0)], [(0, 0, 0, 1)], of determinant 3, the entry [1][1]
    of the product is 1.03125; for the scaling by 2^-50, of non-zero
    determinant, [Inverse(M)] is the identity and the product is [M]
    itself, with 2^-50 on its diagonal. *)
Theorem Inverse4_exact :
  (forall m : mat4 R,
     det4 m <> 0%R -> mat4_mul m (Inverse4 (D := R) m) = mat4_diag 1%R) /\
  (let m := ill_conditioned4 in
   let p := mat4_mul m (Inverse4_b32 m) in
   det4 (mat4_to_R m) = 3%R /\
   mat4_get p 1 1 = S754_finite false 8650752 (-23) /\
   (b32_to_R (mat4_get p 1 1) - 1 > 1 / 10000)%R) /\
  (let m := tiny_scale4 in
   let p := mat4_mul m (Inverse4_b32 m) in
   det4 (mat4_to_R m) <> 0%R /\
   Inverse4_b32 m = mat4_diag one /\
   p = m /\
   (1 - b32_to_R (mat4_get p 0 0) > 1 / 10000)%R).
Proof.
  split; [| split].
  - intros m Hdet.
    unfold Inverse4, InvertMatrix4x4.
    rewrite (invert_unfold (D := R)) by reflexivity. cbv zeta.
    rewrite determinant_exact.
    change (det4 m ==? zero) with (Reqb (det4 m) 0).
    unfold Reqb. destruct (Req_dec_T (det4 m) 0) as [E | _]; [contradiction |].
    cbv [snd]. revert Hdet.
    destruct m as [[a00 a01 a02 a03] [a10 a11 a12 a13]
                   [a20 a21 a22 a23] [a30 a31 a32 a33]].
    unfold_code. intros Hdet.
    apply mat4_ext; apply vec4_ext; field; exact Hdet.
  - cbv zeta.
    split; [rewrite ill_conditioned4_R; unfold_code; ring |].
    assert (E : mat4_get (mat4_mul ill_conditioned4 (Inverse4_b32 ill_conditioned4)) 1 1
                = S754_finite false 8650752 (-23)) by (vm_compute; reflexivity).
    rewrite E. split; [reflexivity |].
    unfold b32_to_R, cond_Zopp, powerRZ. simpl. lra.
  - cbv zeta.
    split; [unfold tiny_scale4; rewrite tiny_entry; apply det4_diag_b32 |].
    split; [vm_compute; reflexivity |].
    split; [vm_compute; reflexivity |].
    assert (E : mat4_get (mat4_mul tiny_scale4 (Inverse4_b32 tiny_scale4)) 0 0
                = S754_finite false 8388608 (-73)) by (vm_compute; reflexivity).
    rewrite E.
    unfold b32_to_R, cond_Zopp, powerRZ. simpl. lra.
Qed.

Lemma Inverse4_exact_witness :
  det4 scale2_exact <> 0%R /\
  mat4_mul scale2_exact (Inverse4 (D := R) scale2_exact) = mat4_diag 1%R.
Proof.
  split; [exact det4_scale2_exact |].
  exact (proj1 Inverse4_exact scale2_exact det4_scale2_exact).
Defined.

(** C10, as stated, fails: a matrix with two equal rows has
    determinant zero, but the determinant computed by [invert] is about
    -6.9e-8, not zero; [Inverse] then returns the scaled cofactors, with
    entries beyond 400000, and not the identity. *)
Lemma Inverse4_singular_not_detected :
  det4 (mat4_to_R repeated_row4) = 0%R /\
  Helper.determinant (SD := binary64) (W := widen_b32_b64) (flat4 repeated_row4)
    = S754_finite true 5207287069147136 (-76) /\
  fst (InvertMatrix4x4_b32 (flat4 repeated_row4) (flat4 (mat4_diag (b32 1)))) = true /\
  Inverse4_b32 repeated_row4 <> mat4_diag one /\
  (mat4_get (Inverse4_b32 repeated_row4) 1 0 >? b32 400000) = true.
Proof.
  split.
  - unfold repeated_row4, mat4_to_R, vec4_to_R. cbv [m4r0 m4r1 m4r2 m4r3 x4 y4 z4 w4].
    unfold_code. ring.
  - split; [vm_compute; reflexivity |].
    split; [vm_compute; reflexivity |].
    split; [vm_compute; discriminate | vm_compute; reflexivity].
Qed.

(** On the translation by [(5, 7, 9)] after the scaling by [(1, 2, 4)]
    the product is the identity, exactly, in binary32. *)
Lemma Inverse4_affine_example :
  mat4_mul affine4 (Inverse4_b32 affine4) = mat4_diag (b32 1).
Proof. vm_compute. reflexivity. Qed.

(** *** Conversion to integer vectors *)

Lemma powerRZ_2_pos (p : positive) : powerRZ 2 (Zpos p) = IZR (2 ^ Zpos p).
Proof.
  simpl. rewrite pow_IZR. now rewrite positive_nat_Z.
Qed.

Lemma powerRZ_2_neg (p : positive) : powerRZ 2 (Zneg p) = (/ IZR (2 ^ Zpos p))%R.
Proof.
  simpl. rewrite pow_IZR. now rewrite positive_nat_Z.
Qed.

Lemma Int_part_IZR (k : Z) : Int_part (IZR k) = k.
Proof. symmetry. apply Int_part_spec. lra. Qed.

(** The quotient of the floored division is the floor of the real
    quotient. *)
Lemma Int_part_div (a d : Z) :
  (0 < d)%Z -> Int_part (IZR a * / IZR d) = (a / d)%Z.
Proof.
  intros Hd. symmetry. apply Int_part_spec.
  assert (Hm := Z.div_mod a d ltac:(lia)).
  assert (Hr := Z.mod_pos_bound a d Hd).
  assert (HdR : (0 < IZR d)%R) by (apply IZR_lt; exact Hd).
  assert (Ha : IZR a = (IZR d * IZR (a / d) + IZR (a mod d))%R).
  { rewrite <- mult_IZR, <- plus_IZR. now rewrite <- Hm. }
  assert (H0 : (0 <= IZR (a mod d))%R) by (apply IZR_le; lia).
  assert (H1 : (IZR (a mod d) < IZR d)%R) by (apply IZR_lt; lia).
  rewrite Ha.
  replace ((IZR d * IZR (a / d) + IZR (a mod d)) * / IZR d)%R
    with (IZR (a / d) + IZR (a mod d) * / IZR d)%R by (field; lra).
  assert (H2 : (0 <= IZR (a mod d) * / IZR d < 1)%R).
  { split.
    - apply Rmult_le_pos; [exact H0 | left; now apply Rinv_0_lt_compat].
    - apply (Rmult_lt_reg_r (IZR d)); [exact HdR |].
      rewrite Rmult_assoc, Rinv_l by lra. lra. }
  lra.
Qed.

(** The integer computed by [floor] is the floor of the value. *)
Lemma b32_floor_correct (x : float32) :
  is_number x = true -> b32_floor x = Some (floorR x).
Proof.
  unfold floorR. destruct x as [s | s | | s m e]; try discriminate; intros _; simpl.
  - f_equal. symmetry. exact (Int_part_IZR 0).
  - f_equal. destruct e as [| p | p].
    + simpl. rewrite Rmult_1_r, Z.mul_1_r. now rewrite Int_part_IZR.
    + change (0 <=? Z.pos p)%Z with true. cbv iota.
      rewrite powerRZ_2_pos, <- mult_IZR. now rewrite Int_part_IZR.
    + change (0 <=? Z.neg p)%Z with false. cbv iota.
      rewrite powerRZ_2_neg. change (- Z.neg p)%Z with (Z.pos p).
      rewrite Int_part_div; [reflexivity | lia].
Qed.

Lemma Flint_correct (x : float32) : fits_int x -> Flint x = Some (floorR x).
Proof.
  intros [Hn [Hlo Hhi]]. unfold Flint. rewrite (b32_floor_correct x Hn).
  apply Z.leb_le in Hlo. apply Z.leb_le in Hhi. now rewrite Hlo, Hhi.
Qed.

(** C9, as stated, fails: 2^31 is a float whose floor, 2^31, is no
    [int], and a NaN has no floor; the conversion is not defined
    there. *)
Lemma Flint_out_of_range :
  is_number (x2 huge2) = true /\
  b32_floor (x2 huge2) = Some 2147483648%Z /\
  (INT_MAX < 2147483648)%Z /\
  Flint (x2 huge2) = None /\
  int2_of_vec2 huge2 = None /\
  Flint S754_nan = None.
Proof. vm_compute. repeat split; reflexivity. Qed.

(** C9, amended: for every float vector whose components are numbers
    with a floor in the range of [int], the conversion sets each
    integer component to the floor of the float component (toward
    minus infinity: -1.5 converts to -2). *)
Theorem int_of_vec_floor :
  (forall x, fits_int x -> Flint x = Some (floorR x)) /\
  (forall v, fits_int (x2 v) -> fits_int (y2 v) ->
     int2_of_vec2 v = Some (Int2 (floorR (x2 v)) (floorR (y2 v)))) /\
  (forall v, fits_int (x3 v) -> fits_int (y3 v) -> fits_int (z3 v) ->
     int3_of_vec3 v = Some (Int3 (floorR (x3 v)) (floorR (y3 v)) (floorR (z3 v)))) /\
  (forall v, fits_int (x4 v) -> fits_int (y4 v) -> fits_int (z4 v) -> fits_int (w4 v) ->
     int4_of_vec4 v =
     Some (Int4 (floorR (x4 v)) (floorR (y4 v)) (floorR (z4 v)) (floorR (w4 v)))) /\
  Flint (lit (-3) 2) = Some (-2)%Z.
Proof.
  split; [exact Flint_correct |].
  split; [| split; [| split]].
  - intros v Hx Hy. unfold int2_of_vec2.
    now rewrite (Flint_correct _ Hx), (Flint_correct _ Hy).
  - intros v Hx Hy Hz. unfold int3_of_vec3.
    now rewrite (Flint_correct _ Hx), (Flint_correct _ Hy), (Flint_correct _ Hz).
  - intros v Hx Hy Hz Hw. unfold int4_of_vec4.
    now rewrite (Flint_correct _ Hx), (Flint_correct _ Hy),
      (Flint_correct _ Hz), (Flint_correct _ Hw).
  - vm_compute. reflexivity.
Qed.

Lemma floorR_of_b32_floor (x : float32) (z : Z) :
  is_number x = true -> b32_floor x = Some z -> floorR x = z.
Proof.
  intros Hn Hz. rewrite (b32_floor_correct x Hn) in Hz. congruence.
Qed.

Lemma int_of_vec_floor_witness : int2_of_vec2 halves2 = Some (Int2 (-2) 2).
Proof.
  assert (Fx : floorR (x2 halves2) = (-2)%Z)
    by (apply floorR_of_b32_floor; vm_compute; reflexivity).
  assert (Fy : floorR (y2 halves2) = 2%Z)
    by (apply floorR_of_b32_floor; vm_compute; reflexivity).
  rewrite <- Fx at 1. rewrite <- Fy at 1.
  apply (proj1 (proj2 int_of_vec_floor)).
  - split; [vm_compute; reflexivity | rewrite Fx; vm_compute; split; discriminate].
  - split; [vm_compute; reflexivity | rewrite Fy; vm_compute; split; discriminate].
Defined.

(** *** Bounds *)

(** [SFcompare] orders the floats that are not NaN. *)
Lemma compare_cont_spec (a b : positive) :
  CompareSpec (a = b) (a < b)%positive (b < a)%positive (Pos.compare_cont Eq a b).
Proof. exact (Pos.compare_spec a b). Qed.

Ltac cmp_cases :=
  repeat match goal with
  | |- context [(?a ?= ?b)%Z] => destruct (Z.compare_spec a b)
  | H : context [(?a ?= ?b)%Z] |- _ => destruct (Z.compare_spec a b)
  | |- context [Pos.compare_cont Eq ?a ?b] => destruct (compare_cont_spec a b)
  | H : context [Pos.compare_cont Eq ?a ?b] |- _ => destruct (compare_cont_spec a b)
  end;
  cbv beta iota in *; try discriminate; try reflexivity; try lia.

Lemma SFltb_irrefl (x : spec_float) : SFltb x x = false.
Proof.
  unfold SFltb. destruct x as [[] | [] | | [] m e]; simpl; try reflexivity; cmp_cases.
Qed.

Lemma SFltb_trans (x y z : spec_float) :
  SFltb x y = true -> SFltb y z = true -> SFltb x z = true.
Proof.
  unfold SFltb.
  destruct x as [[] | [] | | [] mx ex], y as [[] | [] | | [] my ey],
    z as [[] | [] | | [] mz ez]; simpl; intros H1 H2;
    try discriminate; try reflexivity; cmp_cases.
Qed.

Lemma SFltb_asym (x y : spec_float) : SFltb x y = true -> SFltb y x = false.
Proof.
  intros H. destruct (SFltb y x) eqn:E; [| reflexivity].
  rewrite <- (SFltb_irrefl x). symmetry. now apply SFltb_trans with y.
Qed.


Lemma SFleb_refl (x : spec_float) : not_nan x = true -> SFleb x x = true.
Proof.
  unfold SFleb. destruct x as [[] | [] | | [] m e]; simpl; intros H;
    try discriminate; try reflexivity; cmp_cases.
Qed.

Lemma SFleb_trans (x y z : spec_float) :
  SFleb x y = true -> SFleb y z = true -> SFleb x z = true.
Proof.
  unfold SFleb.
  destruct x as [[] | [] | | [] mx ex], y as [[] | [] | | [] my ey],
    z as [[] | [] | | [] mz ez]; simpl; intros H1 H2;
    try discriminate; try reflexivity; cmp_cases.
Qed.

Lemma SFltb_le (x y : spec_float) : SFltb x y = true -> SFleb x y = true.
Proof.
  unfold SFltb, SFleb. destruct (SFcompare x y) as [[] |]; congruence.
Qed.

Lemma SFltb_false_ge (x y : spec_float) :
  not_nan x = true -> not_nan y = true -> SFltb x y = false -> SFleb y x = true.
Proof.
  unfold SFltb, SFleb.
  destruct x as [[] | [] | | [] mx ex], y as [[] | [] | | [] my ey];
    simpl; intros H1 H2 H3; try discriminate; try reflexivity; cmp_cases.
Qed.

Lemma digits2_pos_bound (m : positive) : (Zpos m < 2 ^ Zpos (digits2_pos m))%Z.
Proof.
  induction m as [p IH | p IH |]; simpl digits2_pos.
  - rewrite Pos2Z.inj_succ, Z.pow_succ_r by lia. lia.
  - rewrite Pos2Z.inj_succ, Z.pow_succ_r by lia. lia.
  - reflexivity.
Qed.

Lemma bounded_32 (m : positive) (e : Z) :
  SpecFloat.bounded 24 128 m e = true -> (Zpos m <= 16777215 /\ e <= 104)%Z.
Proof.
  unfold SpecFloat.bounded, canonical_mantissa, fexp, emin.
  intros H. apply andb_true_iff in H. destruct H as [Hc He].
  apply Z.eqb_eq in Hc. apply Z.leb_le in He.
  assert (Hd : (Zpos (digits2_pos m) <= 24)%Z) by lia.
  assert (Hb := digits2_pos_bound m).
  assert (Hp : (2 ^ Zpos (digits2_pos m) <= 2 ^ 24)%Z)
    by (apply Z.pow_le_mono_r; lia).
  change (2 ^ 24)%Z with 16777216%Z in Hp. lia.
Qed.

Lemma is_number_not_nan (x : float32) : is_number x = true -> not_nan x = true.
Proof. destruct x; simpl; congruence. Qed.

Lemma FLT_MAX_b32 : FLT_MAX (F := float32) = S754_finite false 16777215 104.
Proof. vm_compute. reflexivity. Qed.

Lemma neg_FLT_MAX_b32 : - FLT_MAX (F := float32) = S754_finite true 16777215 104.
Proof. vm_compute. reflexivity. Qed.

Lemma is_number_le_FLT_MAX (x : float32) :
  is_number x = true -> SFltb FLT_MAX x = false.
Proof.
  rewrite FLT_MAX_b32.
  destruct x as [[] | [] | | [] m e]; intros H; try discriminate H;
    try reflexivity.
  apply bounded_32 in H. unfold SFltb, SFcompare. cmp_cases.
Qed.

Lemma is_number_ge_neg_FLT_MAX (x : float32) :
  is_number x = true -> SFltb x (- FLT_MAX) = false.
Proof.
  rewrite neg_FLT_MAX_b32.
  destruct x as [[] | [] | | [] m e]; intros H; try discriminate H;
    try reflexivity.
  apply bounded_32 in H. unfold SFltb, SFcompare. cmp_cases.
Qed.



Lemma fold_fmin (l : list float32) : forall m0,
  not_nan m0 = true -> Forall (fun a => not_nan a = true) l ->
  let r := fold_left fmin l m0 in
  (r = m0 \/ In r l) /\ SFleb r m0 = true /\ Forall (fun a => SFleb r a = true) l.
Proof.
  induction l as [| a l IH]; intros m0 Hm Hl; simpl.
  - split; [now left | split; [now apply SFleb_refl | constructor]].
  - inversion Hl as [| ? ? Ha Hl']; subst.
    assert (Hs : (fmin m0 a = m0 \/ fmin m0 a = a) /\ not_nan (fmin m0 a) = true /\
                 SFleb (fmin m0 a) m0 = true /\ SFleb (fmin m0 a) a = true).
    { unfold fmin. change (m0 <? a) with (SFltb m0 a).
      destruct (SFltb m0 a) eqn:E.
      - repeat split; auto using SFleb_refl, SFltb_le.
      - repeat split; auto using SFleb_refl, SFltb_false_ge. }
    destruct Hs as [Hc [Hn [H0 H1]]].
    destruct (IH (fmin m0 a) Hn Hl') as [Hr [Hle Hall]].
    split; [| split].
    + destruct Hr as [Hr | Hr]; [| now right; right].
      rewrite Hr. destruct Hc as [-> | ->]; [now left | now right; left].
    + now apply SFleb_trans with (fmin m0 a).
    + constructor; [now apply SFleb_trans with (fmin m0 a) | exact Hall].
Qed.

Lemma fold_fmax (l : list float32) : forall m0,
  not_nan m0 = true -> Forall (fun a => not_nan a = true) l ->
  let r := fold_left fmax l m0 in
  (r = m0 \/ In r l) /\ SFleb m0 r = true /\ Forall (fun a => SFleb a r = true) l.
Proof.
  induction l as [| a l IH]; intros m0 Hm Hl; simpl.
  - split; [now left | split; [now apply SFleb_refl | constructor]].
  - inversion Hl as [| ? ? Ha Hl']; subst.
    assert (Hs : (fmax m0 a = m0 \/ fmax m0 a = a) /\ not_nan (fmax m0 a) = true /\
                 SFleb m0 (fmax m0 a) = true /\ SFleb a (fmax m0 a) = true).
    { unfold fmax. change (m0 >? a) with (SFltb a m0).
      destruct (SFltb a m0) eqn:E.
      - repeat split; auto using SFleb_refl, SFltb_le.
      - repeat split; auto using SFleb_refl, SFltb_false_ge. }
    destruct Hs as [Hc [Hn [H0 H1]]].
    destruct (IH (fmax m0 a) Hn Hl') as [Hr [Hle Hall]].
    split; [| split].
    + destruct Hr as [Hr | Hr]; [| now right; right].
      rewrite Hr. destruct Hc as [-> | ->]; [now left | now right; left].
    + now apply SFleb_trans with (fmax m0 a).
    + constructor; [now apply SFleb_trans with (fmax m0 a) | exact Hall].
Qed.

(** Starting from the sentinel, a non-empty list of numbers. *)
Lemma fold_fmin_sentinel (a : float32) (l : list float32) :
  Forall (fun a => is_number a = true) (a :: l) ->
  is_min (a :: l) (fold_left fmin (a :: l) FLT_MAX).
Proof.
  intros H. inversion H as [| ? ? Ha Hl]; subst.
  change (fold_left fmin (a :: l) FLT_MAX) with (fold_left fmin l (fmin FLT_MAX a)).
  assert (E : fmin FLT_MAX a = a).
  { unfold fmin. change (FLT_MAX <? a) with (SFltb FLT_MAX a).
    now rewrite is_number_le_FLT_MAX. }
  rewrite E.
  destruct (fold_fmin l a) as [Hr [Hle Hall]].
  - now apply is_number_not_nan.
  - eapply Forall_impl; [| exact Hl]. intros; now apply is_number_not_nan.
  - split.
    + destruct Hr as [-> | Hr]; [now left | now right].
    + constructor; assumption.
Qed.

Lemma fold_fmax_sentinel (a : float32) (l : list float32) :
  Forall (fun a => is_number a = true) (a :: l) ->
  is_max (a :: l) (fold_left fmax (a :: l) (- FLT_MAX)).
Proof.
  intros H. inversion H as [| ? ? Ha Hl]; subst.
  change (fold_left fmax (a :: l) (- FLT_MAX))
    with (fold_left fmax l (fmax (- FLT_MAX) a)).
  assert (E : fmax (- FLT_MAX) a = a).
  { unfold fmax. change (- FLT_MAX >? a) with (SFltb a (- FLT_MAX)).
    now rewrite is_number_ge_neg_FLT_MAX. }
  rewrite E.
  destruct (fold_fmax l a) as [Hr [Hle Hall]].
  - now apply is_number_not_nan.
  - eapply Forall_impl; [| exact Hl]. intros; now apply is_number_not_nan.
  - split.
    + destruct Hr as [-> | Hr]; [now left | now right].
    + constructor; assumption.
Qed.

(** [Bounds] folds each component on its own. *)
Lemma Bounds2_fold (pts : list (vec2 float32)) : forall mn mx,
  fold_left Bounds2_step pts (mn, mx) =
  (Vec2 (fold_left fmin (map x2 pts) (x2 mn)) (fold_left fmin (map y2 pts) (y2 mn)),
   Vec2 (fold_left fmax (map x2 pts) (x2 mx)) (fold_left fmax (map y2 pts) (y2 mx))).
Proof.
  induction pts as [| p pts IH]; intros [a b] [c d]; [reflexivity |].
  cbn [fold_left map]. unfold Bounds2_step at 2. rewrite IH. reflexivity.
Qed.

Lemma Bounds3_fold (pts : list (vec3 float32)) : forall mn mx,
  fold_left Bounds3_step pts (mn, mx) =
  (Vec3 (fold_left fmin (map x3 pts) (x3 mn)) (fold_left fmin (map y3 pts) (y3 mn))
        (fold_left fmin (map z3 pts) (z3 mn)),
   Vec3 (fold_left fmax (map x3 pts) (x3 mx)) (fold_left fmax (map y3 pts) (y3 mx))
        (fold_left fmax (map z3 pts) (z3 mx))).
Proof.
  induction pts as [| p pts IH]; intros [a b c] [d e f]; [reflexivity |].
  cbn [fold_left map]. unfold Bounds3_step at 2. rewrite IH. reflexivity.
Qed.

(** The nested conditionals of the return value select a largest span. *)
Lemma largest_of_two (a b : float32) :
  largest [a; b] (if a >? b then a else b).
Proof.
  change (a >? b) with (SFltb b a).
  destruct (SFltb b a) eqn:E; split; simpl; auto;
    repeat constructor; auto using SFltb_irrefl, SFltb_asym.
Qed.

Lemma largest_of_three (a b c : float32) :
  largest [a; b; c]
    (if a >? b then (if c >? a then c else a) else (if c >? b then c else b)).
Proof.
  change (a >? b) with (SFltb b a). change (c >? a) with (SFltb a c).
  change (c >? b) with (SFltb b c).
  destruct (SFltb b a) eqn:E1.
  - destruct (SFltb a c) eqn:E2; split; simpl; auto;
      repeat constructor; auto using SFltb_irrefl, SFltb_asym.
    apply SFltb_asym. now apply SFltb_trans with a.
  - destruct (SFltb b c) eqn:E2; split; simpl; auto;
      repeat constructor; auto using SFltb_irrefl, SFltb_asym.
    destruct (SFltb c a) eqn:E3; [| reflexivity].
    rewrite <- E1. symmetry. now apply SFltb_trans with c.
Qed.

Lemma numbers2_x (pts : list (vec2 float32)) :
  numbers2 pts -> Forall (fun a => is_number a = true) (map x2 pts).
Proof. intros H. apply Forall_map. eapply Forall_impl; [| exact H]. now intros p [? ?]. Qed.

Lemma numbers2_y (pts : list (vec2 float32)) :
  numbers2 pts -> Forall (fun a => is_number a = true) (map y2 pts).
Proof. intros H. apply Forall_map. eapply Forall_impl; [| exact H]. now intros p [? ?]. Qed.

Lemma numbers3_x (pts : list (vec3 float32)) :
  numbers3 pts -> Forall (fun a => is_number a = true) (map x3 pts).
Proof. intros H. apply Forall_map. eapply Forall_impl; [| exact H]. now intros p [? [? ?]]. Qed.

Lemma numbers3_y (pts : list (vec3 float32)) :
  numbers3 pts -> Forall (fun a => is_number a = true) (map y3 pts).
Proof. intros H. apply Forall_map. eapply Forall_impl; [| exact H]. now intros p [? [? ?]]. Qed.

Lemma numbers3_z (pts : list (vec3 float32)) :
  numbers3 pts -> Forall (fun a => is_number a = true) (map z3 pts).
Proof. intros H. apply Forall_map. eapply Forall_impl; [| exact H]. now intros p [? [? ?]]. Qed.

Lemma Bounds2_points (p : vec2 float32) (pts : list (vec2 float32)) :
  numbers2 (p :: pts) ->
  let '(r, mn, mx) := Bounds2 (p :: pts) in
  is_min (map x2 (p :: pts)) (x2 mn) /\ is_min (map y2 (p :: pts)) (y2 mn) /\
  is_max (map x2 (p :: pts)) (x2 mx) /\ is_max (map y2 (p :: pts)) (y2 mx) /\
  largest [x2 mx - x2 mn; y2 mx - y2 mn] r.
Proof.
  intros H. unfold Bounds2. rewrite Bounds2_fold.
  cbv beta iota zeta. cbn [x2 y2 vec2_s vec2_neg vec2_sub].
  split; [apply (fold_fmin_sentinel (x2 p) (map x2 pts)), (numbers2_x _ H) |].
  split; [apply (fold_fmin_sentinel (y2 p) (map y2 pts)), (numbers2_y _ H) |].
  split; [apply (fold_fmax_sentinel (x2 p) (map x2 pts)), (numbers2_x _ H) |].
  split; [apply (fold_fmax_sentinel (y2 p) (map y2 pts)), (numbers2_y _ H) |].
  apply largest_of_two.
Qed.

Lemma Bounds3_points (p : vec3 float32) (pts : list (vec3 float32)) :
  numbers3 (p :: pts) ->
  let '(r, mn, mx) := Bounds3 (p :: pts) in
  is_min (map x3 (p :: pts)) (x3 mn) /\ is_min (map y3 (p :: pts)) (y3 mn) /\
  is_min (map z3 (p :: pts)) (z3 mn) /\
  is_max (map x3 (p :: pts)) (x3 mx) /\ is_max (map y3 (p :: pts)) (y3 mx) /\
  is_max (map z3 (p :: pts)) (z3 mx) /\
  largest [x3 mx - x3 mn; y3 mx - y3 mn; z3 mx - z3 mn] r.
Proof.
  intros H. unfold Bounds3. rewrite Bounds3_fold.
  cbv beta iota zeta. cbn [x3 y3 z3 vec3_s vec3_neg vec3_sub].
  split; [apply (fold_fmin_sentinel (x3 p) (map x3 pts)), (numbers3_x _ H) |].
  split; [apply (fold_fmin_sentinel (y3 p) (map y3 pts)), (numbers3_y _ H) |].
  split; [apply (fold_fmin_sentinel (z3 p) (map z3 pts)), (numbers3_z _ H) |].
  split; [apply (fold_fmax_sentinel (x3 p) (map x3 pts)), (numbers3_x _ H) |].
  split; [apply (fold_fmax_sentinel (y3 p) (map y3 pts)), (numbers3_y _ H) |].
  split; [apply (fold_fmax_sentinel (z3 p) (map z3 pts)), (numbers3_z _ H) |].
  apply largest_of_three.
Qed.

(** C8, as stated, fails: with no point [min] is left at [FLT_MAX],
    the largest finite float and not an infinity; and for the single
    point [(+infinity, 0)] the [x] component of [min] stays at
    [FLT_MAX], which is not a component of any point. *)
Lemma Bounds_sentinel_is_finite :
  (let '(r, mn, mx) := Bounds2 (F := float32) [] in
   x2 mn = S754_finite false 16777215 104 /\ x2 mn <> S754_infinity false /\
   x2 mx = S754_finite true 16777215 104 /\ x2 mx <> S754_infinity true) /\
  (let '(r, mn, mx) := Bounds2 point_at_infinity in
   x2 mn = S754_finite false 16777215 104 /\
   ~ is_min (map x2 point_at_infinity) (x2 mn)).
Proof.
  split.
  - vm_compute. repeat split; try reflexivity; discriminate.
  - assert (E : Bounds2 point_at_infinity =
                (S754_infinity false,
                 Vec2 (S754_finite false 16777215 104) (S754_zero false),
                 Vec2 (S754_infinity false) (S754_zero false)))
      by (vm_compute; reflexivity).
    rewrite E. cbn [x2]. split; [reflexivity |].
    intros [Hin _]. cbn in Hin. destruct Hin as [Hin | []]. discriminate Hin.
Qed.

(** C8, amended: with no point, [Bounds] leaves every component of
    [min] at [FLT_MAX] and of [max] at [-FLT_MAX], and reports nothing
    (it returns the span [-FLT_MAX - FLT_MAX], minus infinity);
    for at least one point, all of whose components are numbers, every
    component of [min] ([max]) is a minimum (maximum) of that component
    over the points, and the returned value is a largest of the spans
    [max - min] of the axes. *)
Theorem Bounds_spec :
  snd (fst (Bounds2 (F := float32) [])) = vec2_s FLT_MAX /\
  snd (Bounds2 (F := float32) []) = vec2_s (- FLT_MAX) /\
  snd (fst (Bounds3 (F := float32) [])) = vec3_s FLT_MAX /\
  snd (Bounds3 (F := float32) []) = vec3_s (- FLT_MAX) /\
  FLT_MAX (F := float32) = S754_finite false 16777215 104 /\
  fst (fst (Bounds2 (F := float32) [])) = S754_infinity true /\
  fst (fst (Bounds3 (F := float32) [])) = S754_infinity true /\
  (forall p pts, numbers2 (p :: pts) ->
     let '(r, mn, mx) := Bounds2 (p :: pts) in
     is_min (map x2 (p :: pts)) (x2 mn) /\ is_min (map y2 (p :: pts)) (y2 mn) /\
     is_max (map x2 (p :: pts)) (x2 mx) /\ is_max (map y2 (p :: pts)) (y2 mx) /\
     largest [x2 mx - x2 mn; y2 mx - y2 mn] r) /\
  (forall p pts, numbers3 (p :: pts) ->
     let '(r, mn, mx) := Bounds3 (p :: pts) in
     is_min (map x3 (p :: pts)) (x3 mn) /\ is_min (map y3 (p :: pts)) (y3 mn) /\
     is_min (map z3 (p :: pts)) (z3 mn) /\
     is_max (map x3 (p :: pts)) (x3 mx) /\ is_max (map y3 (p :: pts)) (y3 mx) /\
     is_max (map z3 (p :: pts)) (z3 mx) /\
     largest [x3 mx - x3 mn; y3 mx - y3 mn; z3 mx - z3 mn] r).
Proof.
  split; [reflexivity |]. split; [reflexivity |].
  split; [reflexivity |]. split; [reflexivity |].
  split; [exact FLT_MAX_b32 |].
  split; [vm_compute; reflexivity |]. split; [vm_compute; reflexivity |].
  split; [exact Bounds2_points | exact Bounds3_points].
Qed.

Lemma Bounds_spec_witness :
  numbers2 three_points /\
  Bounds2 three_points = (b32 5, Vec2 (b32 (-1)) (b32 0), Vec2 (b32 2) (b32 5)) /\
  is_min (map x2 three_points) (b32 (-1)) /\ is_max (map y2 three_points) (b32 5).
Proof.
  assert (N : numbers2 three_points)
    by (repeat constructor; vm_compute; reflexivity).
  assert (E : Bounds2 three_points =
              (b32 5, Vec2 (b32 (-1)) (b32 0), Vec2 (b32 2) (b32 5)))
    by (vm_compute; reflexivity).
  split; [exact N |]. split; [exact E |].
  assert (H := proj1 (proj2 (proj2 (proj2 (proj2 (proj2 (proj2 (proj2 Bounds_spec)))))))
                 (Vec2 (b32 0) (b32 0))
                 [Vec2 (b32 2) (b32 3); Vec2 (b32 (-1)) (b32 5)] N).
  change (Vec2 (b32 0) (b32 0) :: [Vec2 (b32 2) (b32 3); Vec2 (b32 (-1)) (b32 5)])
    with three_points in H.
  rewrite E in H. cbn [x2 y2] in H.
  destruct H as [H1 [_ [_ [H4 _]]]]. split; assumption.
Defined.

(** *** Quaternion from a rotation matrix and back *)

Section RoundTrip.

Local Open Scope R_scope.

Lemma Get3x3_unit (x y z w : R) :
  x * x + y * y + z * z + w * w = 1 ->
  Get3x3 (Quat x y z w) =
  Mat3 (Vec3 (1 - (y * (y * 2) + z * (z * 2))) (x * (y * 2) + w * (z * 2))
             (x * (z * 2) - w * (y * 2)))
       (Vec3 (x * (y * 2) - w * (z * 2)) (1 - (x * (x * 2) + z * (z * 2)))
             (y * (z * 2) + w * (x * 2)))
       (Vec3 (x * (z * 2) + w * (y * 2)) (y * (z * 2) - w * (x * 2))
             (1 - (x * (x * 2) + y * (y * 2)))).
Proof.
  intros H. unfold Get3x3.
  change (Norm (Quat x y z w)) with (x * x + y * y + z * z + w * w).
  rewrite H.
  change (fabs 1 <? FLT_EPSILON)%fl with (Rltb (Rabs 1) (1 / 8388608)).
  unfold Rltb. destruct (Rlt_dec (Rabs 1) (1 / 8388608)) as [L | _].
  - rewrite Rabs_R1 in L. lra.
  - cbv [qx qy qz qw two one fofZ fdiv fmul fadd fsub exactR].
    replace (2 / 1) with 2 by field. reflexivity.
Qed.

Ltac rot_hyps :=
  cbv [pure_rotation dot3 det3 mat3_get mat3_row vec3_get m3r0 m3r1 m3r2 x3 y3 z3
       fadd fsub fmul exactR].

Ltac rot_entry := field_simplify_eq; [simpl pow; nsatz | lra].

(** C7, as stated, fails: the quarter turn about the z axis has
    orthonormal rows and determinant 1, exactly so in binary32, and the
    round trip returns its transpose: the entry [0][1] comes back as
    [1] where the matrix has [-1]. *)
Lemma Quaternion_round_trip_transposed :
  let r := Get3x3 (Quaternion_of_mat3 quarter_turn_z) in
  dot3 (m3r0 quarter_turn_z) (m3r0 quarter_turn_z) = b32 1 /\
  dot3 (m3r1 quarter_turn_z) (m3r1 quarter_turn_z) = b32 1 /\
  dot3 (m3r2 quarter_turn_z) (m3r2 quarter_turn_z) = b32 1 /\
  dot3 (m3r0 quarter_turn_z) (m3r1 quarter_turn_z) = b32 0 /\
  dot3 (m3r0 quarter_turn_z) (m3r2 quarter_turn_z) = b32 0 /\
  dot3 (m3r1 quarter_turn_z) (m3r2 quarter_turn_z) = b32 0 /\
  det3 quarter_turn_z = b32 1 /\
  r = Transpose3 quarter_turn_z /\
  mat3_get r 0 1 = b32 1 /\
  mat3_get quarter_turn_z 0 1 = b32 (-1) /\
  r <> quarter_turn_z.
Proof.
  vm_compute. repeat split; try reflexivity. discriminate.
Qed.

(** C7, amended: in exact arithmetic, for every pure rotation [R]
    (orthonormal rows, determinant 1), the quaternion constructed from
    [R], converted back by [Get3x3], gives the transpose of [R], in the
    branch [trace >= 0] and in the three largest-diagonal cases. *)
Theorem Quaternion_round_trip_exact (m : mat3 R) :
  pure_rotation m -> Get3x3 (Quaternion_of_mat3 m) = Transpose3 m.
Proof.
  destruct m as [[a b c] [d e f] [g h i]]. rot_hyps.
  intros [r00 [r11 [r22 [r01 [r02 [r12 det]]]]]].
  cbv [Quaternion_of_mat3 caseMacro Transpose3 mat3_get mat3_row vec3_get
       m3r0 m3r1 m3r2 x3 y3 z3 lit zero one fofZ fadd fsub fmul fdiv fsqrt fle exactR].
  unfold Rleb.
  destruct (Rle_dec 0 (a + e + i)) as [Htr | Htr].
  - set (W := sqrt (1 / 4 * (a + e + i + 1))).
    assert (HW : 4 * (W * W) = a + e + i + 1)
      by (unfold W; rewrite sqrt_sqrt; lra).
    assert (Wpos : 0 < W) by (apply sqrt_lt_R0; lra).
    clearbody W.
    rewrite Get3x3_unit by rot_entry.
    apply mat3_ext; apply vec3_ext; rot_entry.
  - destruct (Rle_dec e a) as [H1 | H1]; [destruct (Rle_dec i a) as [H2 | H2] |
                                          destruct (Rle_dec i e) as [H2 | H2]].
    + set (W := sqrt (1 / 4 * (a - e - i + 1))).
      assert (HW : 4 * (W * W) = a - e - i + 1)
        by (unfold W; rewrite sqrt_sqrt; lra).
      assert (Wpos : 0 < W) by (apply sqrt_lt_R0; lra).
      clearbody W.
      rewrite Get3x3_unit by rot_entry.
      apply mat3_ext; apply vec3_ext; rot_entry.
    + set (W := sqrt (1 / 4 * (i - a - e + 1))).
      assert (HW : 4 * (W * W) = i - a - e + 1)
        by (unfold W; rewrite sqrt_sqrt; lra).
      assert (Wpos : 0 < W) by (apply sqrt_lt_R0; lra).
      clearbody W.
      rewrite Get3x3_unit by rot_entry.
      apply mat3_ext; apply vec3_ext; rot_entry.
    + set (W := sqrt (1 / 4 * (e - i - a + 1))).
      assert (HW : 4 * (W * W) = e - i - a + 1)
        by (unfold W; rewrite sqrt_sqrt; lra).
      assert (Wpos : 0 < W) by (apply sqrt_lt_R0; lra).
      clearbody W.
      rewrite Get3x3_unit by rot_entry.
      apply mat3_ext; apply vec3_ext; rot_entry.
    + set (W := sqrt (1 / 4 * (i - a - e + 1))).
      assert (HW : 4 * (W * W) = i - a - e + 1)
        by (unfold W; rewrite sqrt_sqrt; lra).
      assert (Wpos : 0 < W) by (apply sqrt_lt_R0; lra).
      clearbody W.
      rewrite Get3x3_unit by rot_entry.
      apply mat3_ext; apply vec3_ext; rot_entry.
Qed.

Lemma Quaternion_round_trip_exact_witness :
  pure_rotation obtuse_turn_z /\
  Get3x3 (Quaternion_of_mat3 obtuse_turn_z) = Transpose3 obtuse_turn_z.
Proof.
  assert (H : pure_rotation obtuse_turn_z).
  { unfold obtuse_turn_z. rot_hyps. repeat split; lra. }
  split; [exact H | exact (Quaternion_round_trip_exact obtuse_turn_z H)].
Defined.

(** The transpose of a pure rotation is a pure rotation. *)
Lemma pure_rotation_transpose (m : mat3 R) :
  pure_rotation m -> pure_rotation (Transpose3 m).
Proof.
  destruct m as [[a b c] [d e f] [g h i]]. unfold Transpose3. rot_hyps.
  intros [r00 [r11 [r22 [r01 [r02 [r12 det]]]]]].
  repeat split; nsatz.
Qed.

Lemma Transpose3_involutive (m : mat3 R) : Transpose3 (Transpose3 m) = m.
Proof. destruct m as [[a b c] [d e f] [g h i]]. reflexivity. Qed.

(** One branch of [Quaternion(mat3)]: [arg] is the quantity under the
    square root, four times the square of the component computed
    first. *)
Ltac rotation_branch arg :=
  let W := fresh "W" in
  set (W := sqrt (1 / 4 * arg));
  assert (HW : 4 * (W * W) = arg) by (unfold W; rewrite sqrt_sqrt; lra);
  assert (Wpos : 0 < W) by (apply sqrt_lt_R0; lra);
  clearbody W;
  rewrite Get3x3_unit by rot_entry;
  apply mat3_ext; apply vec3_ext; rot_entry.

(** In exact arithmetic [Get3x3] of the quaternion of a pure rotation
    is its transpose. *)
Lemma Get3x3_of_rotation (m : mat3 R) :
  pure_rotation m -> Get3x3 (Quaternion_of_mat3 m) = Transpose3 m.
Proof.
  destruct m as [[a b c] [d e f] [g h i]]. rot_hyps.
  intros [r00 [r11 [r22 [r01 [r02 [r12 det]]]]]].
  cbv [Quaternion_of_mat3 caseMacro Transpose3 mat3_get mat3_row vec3_get
       m3r0 m3r1 m3r2 x3 y3 z3 lit zero one fofZ fadd fsub fmul fdiv fsqrt fle exactR].
  unfold Rleb.
  destruct (Rle_dec 0 (a + e + i)) as [Htr | Htr].
  - rotation_branch (a + e + i + 1).
  - destruct (Rle_dec e a) as [H1 | H1]; [destruct (Rle_dec i a) as [H2 | H2] |
                                          destruct (Rle_dec i e) as [H2 | H2]].
    + rotation_branch (a - e - i + 1).
    + rotation_branch (i - a - e + 1).
    + rotation_branch (e - i - a + 1).
    + rotation_branch (i - a - e + 1).
Qed.

(** The round trip through [Quaternion(mat4)] and [GetMatrix], which
    transposes once on the way in, reproduces a pure rotation. *)
Lemma Quaternion_of_mat4_round_trip (m : mat4 R) :
  pure_rotation (upper3 m) ->
  GetMatrix (Quaternion_of_mat4 m) = mat4_of_mat3 (upper3 m).
Proof.
  intros H. assert (Ht := pure_rotation_transpose _ H).
  unfold GetMatrix. f_equal.
  rewrite <- (Transpose3_involutive (upper3 m)).
  rewrite <- (Get3x3_of_rotation _ Ht). f_equal. f_equal.
  revert Ht. clear H.
  destruct m as [[a b c x] [d e f y] [g h i z] [p q r w]].
  cbv [upper3 Transpose3 mat4_get mat4_row vec4_get m4r0 m4r1 m4r2 m4r3 x4 y4 z4 w4].
  rot_hyps.
  intros [r00 [r11 [r22 [r01 [r02 [r12 det]]]]]].
  cbv [Quaternion_of_mat4 length3 dot3 for_n fold_left seq mat3_set mat3_get
       mat3_set_row mat3_row vec3_set vec3_get m3r0 m3r1 m3r2 x3 y3 z3
       mat4_get mat4_row vec4_get m4r0 m4r1 m4r2 m4r3 x4 y4 z4 w4
       fadd fmul fdiv fsqrt exactR].
  rewrite r00, r11, r22, sqrt_1.
  f_equal. apply mat3_ext; apply vec3_ext; field.
Qed.

End RoundTrip.

(** *** Slerp *)

Section SlerpFacts.

Local Open Scope R_scope.

Lemma PI_bounds : 31415 / 10000 < PI < 31417 / 10000.
Proof.
  assert (H := PI_2_3_7_ineq 2).
  unfold sum_f_R0, tg_alt, PI_2_3_7_tg, Ratan_seq in H.
  simpl in H. lra.
Qed.

Lemma sin_small (x : R) : Rabs x < 1 -> Rabs (sin x) <= Rabs x.
Proof.
  intros Hx. assert (HP := PI_bounds).
  destruct (Rtotal_order x 0) as [Hn | [-> | Hp]].
  - rewrite (Rabs_left x Hn) in *.
    assert (H1 : 0 < sin (- x)) by (apply sin_gt_0; lra).
    assert (H2 : sin (- x) < - x) by (apply sin_lt_x; lra).
    rewrite sin_neg in H1, H2. rewrite Rabs_left by lra. lra.
  - rewrite sin_0, Rabs_R0. lra.
  - rewrite (Rabs_right x) in * by lra.
    assert (H1 : 0 < sin x) by (apply sin_gt_0; lra).
    assert (H2 : sin x < x) by (apply sin_lt_x; lra).
    rewrite Rabs_right by lra. lra.
Qed.

Lemma cos_small (x : R) : Rabs x < 1 -> 1 - x * x <= cos x <= 1.
Proof.
  intros Hx. assert (HP := PI_bounds).
  assert (Hs := sin_small x Hx).
  assert (Hx' : -1 < x < 1) by (apply Rabs_def2 in Hx; lra).
  assert (Hc0 : 0 <= cos x) by (apply cos_ge_0; lra).
  assert (Hc1 := COS_bound x).
  assert (H2 := sin2_cos2 x). unfold Rsqr in H2.
  assert (Hss : sin x * sin x <= x * x).
  { apply Rsqr_le_abs_1 in Hs. exact Hs. }
  split; [| lra].
  assert (cos x * cos x <= cos x) by nra.
  lra.
Qed.

(** The weights of the nearly-opposite branch at the two ends. *)
Lemma sin_half_PI_lit :
  1 - 1 / 100000000 <= sin (1 / 2 * (3141592 / 1000000)) <= 1.
Proof.
  assert (HP := PI_bounds).
  replace (1 / 2 * (3141592 / 1000000))
    with (PI / 2 - (PI / 2 - 3141592 / 2000000)) by field.
  rewrite sin_shift.
  assert (Hd : Rabs (PI / 2 - 3141592 / 2000000) < 1)
    by (apply Rabs_def1; lra).
  assert (H := cos_small _ Hd).
  assert (Hd2 : (PI / 2 - 3141592 / 2000000) * (PI / 2 - 3141592 / 2000000)
                <= 1 / 100000000) by nra.
  lra.
Qed.

Lemma sin_PI_lit : - (1 / 4000) <= sin (3141592 / 1000000) <= 1 / 4000.
Proof.
  assert (HP := PI_bounds).
  rewrite <- sin_PI_x.
  assert (Hd : Rabs (PI - 3141592 / 1000000) < 1) by (apply Rabs_def1; lra).
  assert (H := sin_small _ Hd).
  unfold Rabs in H.
  destruct (Rcase_abs (sin (PI - 3141592 / 1000000)));
    destruct (Rcase_abs (PI - 3141592 / 1000000)); lra.
Qed.

Lemma quat_ext {F} (a b c d a' b' c' d' : F) :
  a = a' -> b = b' -> c = c' -> d = d' -> Quat a b c d = Quat a' b' c' d'.
Proof. congruence. Qed.

Lemma quat_near_refl (tol : R) (q : Quaternion R) : 0 <= tol -> quat_near tol q q.
Proof.
  intros H. unfold quat_near.
  repeat split; rewrite Rminus_diag, Rabs_R0; exact H.
Qed.

Ltac slerp_unfold :=
  cbv [Slerp Dot Norm quat_add quat_scale qx qy qz qw _PI lit one zero
       fofZ fadd fsub fmul fdiv fneg flt fsin facos exactR trig_exact].

(** Not nearly opposite: the ends are reproduced exactly. *)
Lemma Slerp_usual (q0 q1 : Quaternion R) :
  1 / 100000 < 1 + Dot q0 q1 ->
  Slerp q0 q1 0 = q0 /\ Slerp q0 q1 1 = q1.
Proof.
  destruct q0 as [x0 y0 z0 w0], q1 as [x1 y1 z1 w1]. slerp_unfold.
  set (c := x0 * x1 + y0 * y1 + z0 * z1 + w0 * w1).
  intros Hc. unfold Rltb.
  destruct (Rlt_dec (1 / 100000) (1 + c)) as [_ | N]; [| contradiction].
  destruct (Rlt_dec (1 / 100000) (1 - c)) as [Hc' | _].
  - assert (Hs : 0 < sin (acos c)).
    { destruct (acos_bound_lt c) as [H0 H1]; [lra |]. now apply sin_gt_0. }
    replace ((1 - 0) * acos c) with (acos c) by ring.
    replace (0 * acos c) with 0 by ring.
    replace ((1 - 1) * acos c) with 0 by ring.
    replace (1 * acos c) with (acos c) by ring.
    rewrite sin_0.
    split; apply quat_ext; field; lra.
  - split; apply quat_ext; ring.
Qed.

Lemma scaled_bound (s x : R) :
  1 - 1 / 100000000 <= s <= 1 -> -1 <= x <= 1 ->
  - (1 / 100000000) <= (1 - s) * x <= 1 / 100000000.
Proof. intros Hs Hx. split; nra. Qed.

Lemma small_product (p u : R) :
  - (1 / 4000) <= p <= 1 / 4000 -> -1 <= u <= 1 ->
  - (1 / 4000) <= p * u <= 1 / 4000.
Proof. intros Hp Hu. split; nra. Qed.

Lemma square_root_bound (a : R) :
  a * a <= 2 / 100000 -> - (45 / 10000) <= a <= 45 / 10000.
Proof. intros H. split; nra. Qed.

Lemma four_squares (a b c d : R) :
  a * a + b * b + c * c + d * d <= 2 / 100000 ->
  - (45 / 10000) <= a <= 45 / 10000 /\ - (45 / 10000) <= b <= 45 / 10000 /\
  - (45 / 10000) <= c <= 45 / 10000 /\ - (45 / 10000) <= d <= 45 / 10000.
Proof.
  intros H.
  assert (Ha := Rle_0_sqr a). assert (Hb := Rle_0_sqr b).
  assert (Hc := Rle_0_sqr c). assert (Hd := Rle_0_sqr d).
  unfold Rsqr in *.
  repeat split; apply square_root_bound; lra.
Qed.

(** Nearly opposite, [t = 0]. *)
Lemma Slerp_opposite_0 (q0 q1 : Quaternion R) :
  ~ 1 / 100000 < 1 + Dot q0 q1 -> Norm q0 = 1 ->
  quat_near (1 / 100000000) (Slerp q0 q1 0) q0.
Proof.
  destruct q0 as [x0 y0 z0 w0], q1 as [x1 y1 z1 w1]. slerp_unfold.
  set (c := x0 * x1 + y0 * y1 + z0 * z1 + w0 * w1).
  intros Hc N0. unfold Rltb.
  destruct (Rlt_dec (1 / 100000) (1 + c)) as [Y | _]; [contradiction |].
  replace ((1 / 2 - 0) * (3141592 / 1000000))
    with (1 / 2 * (3141592 / 1000000)) by ring.
  replace (0 * (3141592 / 1000000)) with 0 by ring.
  rewrite sin_0.
  assert (Hs := sin_half_PI_lit).
  set (s := sin (1 / 2 * (3141592 / 1000000))) in *. clearbody s.
  assert (Ux : -1 <= x0 <= 1) by (split; nra).
  assert (Uy : -1 <= y0 <= 1) by (split; nra).
  assert (Uz : -1 <= z0 <= 1) by (split; nra).
  assert (Uw : -1 <= w0 <= 1) by (split; nra).
  assert (Px := scaled_bound s x0 Hs Ux).
  assert (Py := scaled_bound s y0 Hs Uy).
  assert (Pz := scaled_bound s z0 Hs Uz).
  assert (Pw := scaled_bound s w0 Hs Uw).
  unfold quat_near. cbv [qx qy qz qw].
  repeat split; apply Rabs_le; lra.
Qed.

(** Nearly opposite, [t = 1]. *)
Lemma Slerp_opposite_1 (q0 q1 : Quaternion R) :
  ~ 1 / 100000 < 1 + Dot q0 q1 -> Norm q0 = 1 -> Norm q1 = 1 ->
  quat_near (1 / 200) (Slerp q0 q1 1) q1.
Proof.
  destruct q0 as [x0 y0 z0 w0], q1 as [x1 y1 z1 w1]. slerp_unfold.
  set (c := x0 * x1 + y0 * y1 + z0 * z1 + w0 * w1).
  intros Hc N0 N1. unfold Rltb.
  destruct (Rlt_dec (1 / 100000) (1 + c)) as [Y | _]; [contradiction |].
  replace ((1 / 2 - 1) * (3141592 / 1000000))
    with (- (1 / 2 * (3141592 / 1000000))) by field.
  replace (1 * (3141592 / 1000000)) with (3141592 / 1000000) by ring.
  rewrite sin_neg.
  assert (Hs := sin_half_PI_lit).
  assert (Hp := sin_PI_lit).
  set (s := sin (1 / 2 * (3141592 / 1000000))) in *. clearbody s.
  set (p := sin (3141592 / 1000000)) in *. clearbody p.
  assert (Hsum : (x0 + x1) * (x0 + x1) + (y0 + y1) * (y0 + y1) +
                 (z0 + z1) * (z0 + z1) + (w0 + w1) * (w0 + w1) <= 2 / 100000)
    by (unfold c in Hc; nra).
  destruct (four_squares _ _ _ _ Hsum) as [Bx [By [Bz Bw]]].
  assert (Ux : -1 <= x0 <= 1) by (split; nra).
  assert (Uy : -1 <= y0 <= 1) by (split; nra).
  assert (Uz : -1 <= z0 <= 1) by (split; nra).
  assert (Uw : -1 <= w0 <= 1) by (split; nra).
  assert (Px := scaled_bound s x0 Hs Ux).
  assert (Py := scaled_bound s y0 Hs Uy).
  assert (Pz := scaled_bound s z0 Hs Uz).
  assert (Pw := scaled_bound s w0 Hs Uw).
  assert (Qx := small_product p (- y0) Hp ltac:(lra)).
  assert (Qy := small_product p x0 Hp Ux).
  assert (Qz := small_product p (- w0) Hp ltac:(lra)).
  assert (Qw := small_product p z0 Hp Uz).
  unfold quat_near. cbv [qx qy qz qw].
  repeat split; apply Rabs_le; lra.
Qed.

(** Nearly opposite, [t = 1]: the result is about [-q0], whatever
    [q1] is. *)
Lemma Slerp_opposite_neg (q0 q1 : Quaternion R) :
  ~ 1 / 100000 < 1 + Dot q0 q1 -> Norm q0 = 1 ->
  quat_near (3 / 10000) (Slerp q0 q1 1) (quat_scale q0 (-1)).
Proof.
  destruct q0 as [x0 y0 z0 w0], q1 as [x1 y1 z1 w1]. slerp_unfold.
  set (c := x0 * x1 + y0 * y1 + z0 * z1 + w0 * w1).
  intros Hc N0. unfold Rltb.
  destruct (Rlt_dec (1 / 100000) (1 + c)) as [Y | _]; [contradiction |].
  replace ((1 / 2 - 1) * (3141592 / 1000000))
    with (- (1 / 2 * (3141592 / 1000000))) by field.
  replace (1 * (3141592 / 1000000)) with (3141592 / 1000000) by ring.
  rewrite sin_neg.
  assert (Hs := sin_half_PI_lit).
  assert (Hp := sin_PI_lit).
  set (s := sin (1 / 2 * (3141592 / 1000000))) in *. clearbody s.
  set (p := sin (3141592 / 1000000)) in *. clearbody p.
  assert (Ux : -1 <= x0 <= 1) by (split; nra).
  assert (Uy : -1 <= y0 <= 1) by (split; nra).
  assert (Uz : -1 <= z0 <= 1) by (split; nra).
  assert (Uw : -1 <= w0 <= 1) by (split; nra).
  assert (Px := scaled_bound s x0 Hs Ux).
  assert (Py := scaled_bound s y0 Hs Uy).
  assert (Pz := scaled_bound s z0 Hs Uz).
  assert (Pw := scaled_bound s w0 Hs Uw).
  assert (Qx := small_product p (- y0) Hp ltac:(lra)).
  assert (Qy := small_product p x0 Hp Ux).
  assert (Qz := small_product p (- w0) Hp ltac:(lra)).
  assert (Qw := small_product p z0 Hp Uz).
  unfold quat_near. cbv [qx qy qz qw].
  repeat split; apply Rabs_le; lra.
Qed.

(** C6, amended: in exact arithmetic, with the mathematical [sin] and
    [acos], for all unit quaternions [q0] and [q1]: [Slerp(q0, q1, 0)]
    is [q0] within 1e-8 and [Slerp(q0, q1, 1)] is [q1] within 0.005 in
    every component; both are reproduced exactly unless the two are
    nearly opposite ([1 + dot <= 0.00001]); when they are, the result
    is built from [q0] and [qup] alone, and [Slerp(q0, q1, 1)] is
    [-q0] within 0.0003, whatever [q1] is. *)
Theorem Slerp_endpoints (q0 q1 : Quaternion R) :
  Norm q0 = 1 -> Norm q1 = 1 ->
  quat_near (1 / 100000000) (Slerp q0 q1 0) q0 /\
  quat_near (1 / 200) (Slerp q0 q1 1) q1 /\
  (1 / 100000 < 1 + Dot q0 q1 -> Slerp q0 q1 0 = q0 /\ Slerp q0 q1 1 = q1) /\
  (1 + Dot q0 q1 <= 1 / 100000 ->
   quat_near (3 / 10000) (Slerp q0 q1 1) (quat_scale q0 (-1))).
Proof.
  intros N0 N1.
  destruct (Rlt_dec (1 / 100000) (1 + Dot q0 q1)) as [Hc | Hc].
  - destruct (Slerp_usual q0 q1 Hc) as [E0 E1]. rewrite E0, E1.
    split; [apply quat_near_refl; lra |].
    split; [apply quat_near_refl; lra |].
    split; [intros _; split; reflexivity | intros Y; lra].
  - split; [now apply Slerp_opposite_0 |].
    split; [now apply Slerp_opposite_1 |].
    split; [intros Y; contradiction | intros _; now apply Slerp_opposite_neg].
Qed.

Lemma Slerp_endpoints_witness :
  Norm quat_pole = 1 /\ Norm quat_antipode = 1 /\
  quat_near (1 / 100000000) (Slerp quat_pole quat_antipode 0) quat_pole /\
  quat_near (1 / 200) (Slerp quat_pole quat_antipode 1) quat_antipode.
Proof.
  assert (N0 : Norm quat_pole = 1) by (cbv [quat_pole]; slerp_unfold; ring).
  assert (N1 : Norm quat_antipode = 1) by (cbv [quat_antipode]; slerp_unfold; ring).
  destruct (Slerp_endpoints quat_pole quat_antipode N0 N1) as [H0 [H1 _]].
  split; [exact N0 | split; [exact N1 | split; [exact H0 | exact H1]]].
Defined.

(** C6, as stated with a floating tolerance such as 1e-4, fails in the
    nearly-opposite branch: for the unit quaternions [(0,0,0,1)] and
    [(1000/250001, 0, 0, -249999/250001)], at [1 + dot = 2/250001],
    [Slerp] at [t = 1] has the [x] component 0, at 0.00399... from that
    of [q1]. *)
Lemma Slerp_opposite_deviation :
  Norm quat_pole = 1 /\ Norm quat_near_antipode = 1 /\
  1 + Dot quat_pole quat_near_antipode <= 1 / 100000 /\
  qx (Slerp quat_pole quat_near_antipode 1) = 0 /\
  Rabs (qx (Slerp quat_pole quat_near_antipode 1) - qx quat_near_antipode)
    > 39 / 10000.
Proof.
  assert (E : qx (Slerp quat_pole quat_near_antipode 1) = 0).
  { cbv [quat_pole quat_near_antipode]. slerp_unfold. unfold Rltb.
    destruct (Rlt_dec _ _) as [Y | _]; [lra | ring]. }
  rewrite E.
  split; [cbv [quat_pole]; slerp_unfold; ring |].
  split; [cbv [quat_near_antipode]; slerp_unfold; field |].
  split; [cbv [quat_pole quat_near_antipode]; slerp_unfold; lra |].
  split; [reflexivity |].
  cbv [quat_near_antipode qx].
  unfold Rabs. destruct (Rcase_abs _); lra.
Qed.

End SlerpFacts.

(** ** Properties of the rest of the library *)

(** Unfolding of the library down to the operations of the carrier, for
    goals in exact arithmetic. *)
Ltac unfold_lib :=
  cbv [Inverse4 InvertMatrix4x4 Helper.invert Helper.determinant
       Helper.cofactors Helper.invf Helper.e
       mat4_mul mat4_mul_vec mat4_diag mat4_set mat4_get mat4_row mat4_set_row
       vec4_get vec4_set vec4_s flat4 unflat4 buf_get buf_set
       for_n fold_left seq repeat flat_map app map nth
       det4 det3 minor4 skip upper3 mat4_of_mat3
       mat3_diag mat3_set mat3_set_row mat3_get mat3_row vec3_get vec3_set vec3_s
       mat3_map vec3_map mat3_mul Transpose3 Adjoint3x3 det3_of_adjoint dot3 dot4
       m3r0 m3r1 m3r2 x2 y2 x3 y3 z3 m4r0 m4r1 m4r2 m4r3 x4 y4 z4 w4
       qx qy qz qw Norm Dot quat_add quat_scale quat_mul
       vec2_scale vec2_div vec2_neg vec2_sub dot2 cross2 length2 normalize2
       vec3_add vec3_scale vec3_mul vec3_div vec3_neg vec3_sub
       length3 normalize3 cross3
       vec4_of_vec3 vec4_scale vec4_div length4 normalize4
       mat3_mul_vec TransposeInverseMatrix3x3
       Scale Scale_vec Translate Translate_vec DegreesToRadians
       Transpose4 ReferenceFrame LookTowards LookAt Orthographic
       RotateX RotateY RotateZ Perspective Quaternion_of_axis
       zero one two lit FLT_EPSILON
       fadd fsub fmul fdiv fneg fsqrt fofZ exactR widen narrow widen_exact
       fsin facos trig_exact fcos ftan costan_exact
       Nat.mul Nat.add Nat.ltb Nat.leb Nat.modulo Nat.div Nat.divmod Nat.sub
       fst snd
       Z.of_nat Z.to_nat Z.rem Z.quotrem Z.add Z.sub Z.mul Z.opp Z.eqb
       Z.pos_sub Z.succ_double Z.pred_double Z.double Z.of_N
       Pos.of_succ_nat Pos.succ Pos.add Pos.mul Pos.to_nat Pos.iter_op
       Pos.pred_double Pos.eqb Pos.add_carry Pos.compare Pos.compare_cont
       Pos.sub_mask Pos.double_mask Pos.succ_double_mask Pos.double_pred_mask
       Pos.sub_mask_carry Pos.leb
       N.pos_div_eucl N.leb N.compare N.sub N.succ_double N.double].

Ltac destruct_mat4 m :=
  let a00 := fresh "a00" in let a01 := fresh "a01" in
  let a02 := fresh "a02" in let a03 := fresh "a03" in
  let a10 := fresh "a10" in let a11 := fresh "a11" in
  let a12 := fresh "a12" in let a13 := fresh "a13" in
  let a20 := fresh "a20" in let a21 := fresh "a21" in
  let a22 := fresh "a22" in let a23 := fresh "a23" in
  let a30 := fresh "a30" in let a31 := fresh "a31" in
  let a32 := fresh "a32" in let a33 := fresh "a33" in
  destruct m as [[a00 a01 a02 a03] [a10 a11 a12 a13]
                 [a20 a21 a22 a23] [a30 a31 a32 a33]].

Ltac destruct_mat3 m :=
  let b00 := fresh "b00" in let b01 := fresh "b01" in let b02 := fresh "b02" in
  let b10 := fresh "b10" in let b11 := fresh "b11" in let b12 := fresh "b12" in
  let b20 := fresh "b20" in let b21 := fresh "b21" in let b22 := fresh "b22" in
  destruct m as [[b00 b01 b02] [b10 b11 b12] [b20 b21 b22]].

Ltac mat4_entries := apply mat4_ext; apply vec4_ext.
Ltac mat3_entries := apply mat3_ext; apply vec3_ext.

(** Side conditions of [field]: each non-zero denominator follows from
    one disequality among the hypotheses. *)
Ltac nonzero :=
  repeat split;
  match goal with
  | |- _ <> _ =>
      let E := fresh in
      intro E;
      match goal with H : _ <> _ |- _ => apply H; lra end
  end.

(** *** Products of matrices *)

Section MatrixAlgebra.

Local Open Scope R_scope.

Lemma mat4_mul_assoc (a b c : mat4 R) :
  mat4_mul (mat4_mul a b) c = mat4_mul a (mat4_mul b c).
Proof.
  destruct_mat4 a; destruct_mat4 b; destruct_mat4 c.
  unfold_lib. mat4_entries; ring.
Qed.

Lemma mat4_mul_1_r (m : mat4 R) : mat4_mul m (mat4_diag 1) = m.
Proof. destruct_mat4 m. unfold_lib. mat4_entries; ring. Qed.

Lemma mat4_mul_1_l (m : mat4 R) : mat4_mul (mat4_diag 1) m = m.
Proof. destruct_mat4 m. unfold_lib. mat4_entries; ring. Qed.

Lemma det4_mul (a b : mat4 R) : det4 (mat4_mul a b) = det4 a * det4 b.
Proof. destruct_mat4 a; destruct_mat4 b. unfold_lib. ring. Qed.

Lemma det4_1 : det4 (mat4_diag 1) = 1.
Proof. unfold_lib. ring. Qed.

(** X1: in exact arithmetic the products [mat4 * mat4] and
    [mat3 * mat3] are associative, the default-constructed matrix is
    neutral on both sides, [(a*b)*v] is [a*(b*v)], and the determinant
    of a product is the product of the determinants. *)
Theorem matrix_product_laws :
  (forall (a b c : mat4 R) (v : vec4 R),
     mat4_mul (mat4_mul a b) c = mat4_mul a (mat4_mul b c) /\
     mat4_mul a (mat4_diag 1) = a /\ mat4_mul (mat4_diag 1) a = a /\
     mat4_mul_vec (mat4_mul a b) v = mat4_mul_vec a (mat4_mul_vec b v) /\
     det4 (mat4_mul a b) = det4 a * det4 b) /\
  (forall (a b c : mat3 R) (v : vec3 R),
     mat3_mul (mat3_mul a b) c = mat3_mul a (mat3_mul b c) /\
     mat3_mul a (mat3_diag 1) = a /\ mat3_mul (mat3_diag 1) a = a /\
     mat3_mul_vec (mat3_mul a b) v = mat3_mul_vec a (mat3_mul_vec b v) /\
     det3 (mat3_mul a b) = det3 a * det3 b).
Proof.
  split.
  - intros a b c v.
    split; [apply mat4_mul_assoc |]. split; [apply mat4_mul_1_r |].
    split; [apply mat4_mul_1_l |]. split; [| apply det4_mul].
    destruct_mat4 a; destruct_mat4 b; destruct v as [x y z w].
    unfold_lib. apply vec4_ext; ring.
  - intros a b c v.
    destruct_mat3 a; destruct_mat3 b; destruct_mat3 c; destruct v as [x y z].
    unfold_lib.
    repeat split; try ring; try (mat3_entries; ring). apply vec3_ext; ring.
Qed.

End MatrixAlgebra.

(** *** Symmetry of the binary32 operations *)

Lemma SFmul_comm (prec emax : Z) (x y : spec_float) :
  SFmul prec emax x y = SFmul prec emax y x.
Proof.
  destruct x as [sx | sx | | sx mx ex], y as [sy | sy | | sy my ey];
    unfold SFmul; try reflexivity; try (rewrite (xorb_comm sx sy); reflexivity).
  rewrite (xorb_comm sx sy), (Pos.mul_comm mx my), (Z.add_comm ex ey). reflexivity.
Qed.

Section Commutative.

Context {F : Type} {SF : Scalar F}.
Hypothesis mul_comm : forall a b : F, a * b = b * a.

Ltac comm_sum :=
  repeat first [reflexivity | apply mul_comm | apply (f_equal2 fadd)].

Lemma dot_comm :
  (forall a b : vec2 F, dot2 a b = dot2 b a) /\
  (forall a b : vec3 F, dot3 a b = dot3 b a) /\
  (forall a b : vec4 F, dot4 a b = dot4 b a).
Proof. repeat split; intros a b; cbv [dot2 dot3 dot4]; comm_sum. Qed.

Lemma Transpose_mul :
  (forall a b : mat3 F,
     Transpose3 (mat3_mul a b) = mat3_mul (Transpose3 b) (Transpose3 a)) /\
  (forall a b : mat4 F,
     Transpose4 (mat4_mul a b) = mat4_mul (Transpose4 b) (Transpose4 a)).
Proof.
  split; intros a b.
  - destruct_mat3 a; destruct_mat3 b.
    cbv [Transpose3 mat3_mul mat3_diag mat3_set mat3_set_row mat3_get mat3_row
         vec3_get vec3_set vec3_s for_n fold_left seq m3r0 m3r1 m3r2 x3 y3 z3].
    mat3_entries; comm_sum.
  - destruct_mat4 a; destruct_mat4 b.
    cbv [Transpose4 mat4_mul mat4_diag mat4_set mat4_set_row mat4_get mat4_row
         vec4_get vec4_set vec4_s for_n fold_left seq
         m4r0 m4r1 m4r2 m4r3 x4 y4 z4 w4].
    mat4_entries; comm_sum.
Qed.

End Commutative.

(** X2: in binary32, for matrices with no NaN among their entries
    (numbers and infinities), [Transpose] undoes itself and the
    transpose of a product is the product of the transposes in reverse
    order: entry by entry the same number or infinity, or a NaN in both
    (a product can still hold a NaN, from an infinity times zero or
    from two infinities of opposite signs). *)
Theorem Transpose_product_b32 (a b : mat3 float32) (c d : mat4 float32) :
  no_nan_mat3 a = true -> no_nan_mat3 b = true ->
  no_nan_mat4 c = true -> no_nan_mat4 d = true ->
  Transpose3 (Transpose3 a) = a /\
  Transpose4 (Transpose4 c) = c /\
  Transpose3 (mat3_mul a b) = mat3_mul (Transpose3 b) (Transpose3 a) /\
  Transpose4 (mat4_mul c d) = mat4_mul (Transpose4 d) (Transpose4 c).
Proof.
  intros _ _ _ _.
  split; [destruct_mat3 a; reflexivity |].
  split; [destruct_mat4 c; reflexivity |].
  destruct (Transpose_mul (SF := binary32) (SFmul_comm 24 128)) as [H3 H4].
  split; [apply H3 | apply H4].
Qed.

Lemma Transpose_product_b32_witness :
  let a := infinite_corner3 in
  let b := quarter_turn_z in
  let c := infinite_corner4 in
  let d := signed_zero4 in
  mat3_get (mat3_mul a b) 0 0 = S754_nan /\
  Transpose3 (Transpose3 a) = a /\
  Transpose4 (Transpose4 c) = c /\
  Transpose3 (mat3_mul a b) = mat3_mul (Transpose3 b) (Transpose3 a) /\
  Transpose4 (mat4_mul c d) = mat4_mul (Transpose4 d) (Transpose4 c).
Proof.
  cbv zeta. split; [vm_compute; reflexivity |].
  apply Transpose_product_b32; vm_compute; reflexivity.
Defined.

(** X3: in binary32, for vectors with no NaN among their components
    (numbers and infinities), [dot(a, b)] and [dot(b, a)] are the same
    number or infinity, or a NaN in both, for [vec2], [vec3] and
    [vec4]. *)
Theorem dot_symmetric_b32 (a2 b2 : vec2 float32) (a3 b3 : vec3 float32)
    (a4 b4 : vec4 float32) :
  no_nan_vec2 a2 = true -> no_nan_vec2 b2 = true ->
  no_nan_vec3 a3 = true -> no_nan_vec3 b3 = true ->
  no_nan_vec4 a4 = true -> no_nan_vec4 b4 = true ->
  dot2 a2 b2 = dot2 b2 a2 /\ dot3 a3 b3 = dot3 b3 a3 /\ dot4 a4 b4 = dot4 b4 a4.
Proof.
  intros _ _ _ _ _ _.
  destruct (dot_comm (SF := binary32) (SFmul_comm 24 128)) as [H2 [H3 H4]].
  split; [apply H2 | split; [apply H3 | apply H4]].
Qed.

Lemma dot_symmetric_b32_witness :
  dot2 infinite_first2 zero_first2 = S754_nan /\
  dot2 infinite_first2 zero_first2 = dot2 zero_first2 infinite_first2 /\
  dot3 tenth_point fifth_shift = dot3 fifth_shift tenth_point /\
  dot4 corner hadamard_b = dot4 hadamard_b corner.
Proof.
  split; [vm_compute; reflexivity |].
  apply dot_symmetric_b32; vm_compute; reflexivity.
Defined.

(** *** The identity matrix and translations in binary32 *)

Lemma one_b32 : one (F := float32) = S754_finite false 8388608 (-23).
Proof. vm_compute. reflexivity. Qed.

Lemma zero_b32 : zero (F := float32) = S754_zero false.
Proof. vm_compute. reflexivity. Qed.

(** A number times one is the number. *)
Lemma b32_mul_one_r (x : float32) : is_number x = true -> x * one = x.
Proof.
  rewrite one_b32.
  destruct x as [[] | [] | | s m e]; intros H; try discriminate H; try reflexivity.
  cbn [is_number] in H.
  cbv [fmul binary32 SFmul].
  rewrite xorb_false_r, Pos.mul_comm.
  unfold SpecFloat.bounded, canonical_mantissa in H.
  apply andb_true_iff in H. destruct H as [Hc He]. apply Z.eqb_eq in Hc.
  unfold binary_round_aux. unfold shr_fexp at 1.
  replace (Zdigits2 (Zpos (8388608 * m)) + (e + -23))%Z
    with (Zpos (digits2_pos m) + e)%Z.
  2:{ change (8388608 * m)%positive with
        (m~0~0~0~0~0~0~0~0~0~0~0~0~0~0~0~0~0~0~0~0~0~0~0)%positive.
      change (Zdigits2 (Zpos ?p)) with (Zpos (digits2_pos p)).
      cbn [digits2_pos]. rewrite !Pos2Z.inj_succ. lia. }
  rewrite Hc.
  replace (e - (e + -23))%Z with 23%Z by lia.
  change (8388608 * m)%positive with
        (m~0~0~0~0~0~0~0~0~0~0~0~0~0~0~0~0~0~0~0~0~0~0~0)%positive.
  cbn [shr shr_record_of_loc SpecFloat.iter_pos shr_1 orb shr_m loc_of_shr_record
       round_nearest_even].
  replace (e + -23 + 23)%Z with e by lia.
  unfold shr_fexp.
  change (Zdigits2 (Zpos m)) with (Zpos (digits2_pos m)). rewrite Hc, Z.sub_diag.
  cbn [shr shr_record_of_loc shr_m]. rewrite He. reflexivity.
Qed.

Lemma b32_mul_one_l (x : float32) : is_number x = true -> one * x = x.
Proof.
  intros H. change (one * x) with (SFmul 24 128 one x).
  rewrite SFmul_comm. exact (b32_mul_one_r x H).
Qed.

Lemma b32_mul_zero_r (x : float32) :
  is_number x = true -> exists s, x * zero = S754_zero s.
Proof.
  rewrite zero_b32.
  destruct x as [s | [] | | s m e]; intros H; try discriminate H;
    eexists; reflexivity.
Qed.

Lemma b32_mul_zero_l (x : float32) :
  is_number x = true -> exists s, zero * x = S754_zero s.
Proof.
  rewrite zero_b32.
  destruct x as [s | [] | | s m e]; intros H; try discriminate H;
    eexists; reflexivity.
Qed.

Lemma b32_zero_add_zero (s : bool) : zero + S754_zero s = (zero : float32).
Proof. rewrite zero_b32. destruct s; reflexivity. Qed.

Lemma b32_zero_add (x : float32) :
  is_number x = true -> zero + x = unsigned_zero x.
Proof.
  rewrite zero_b32.
  destruct x as [[] | [] | | s m e]; intros H; try discriminate H; reflexivity.
Qed.

Lemma b32_unsigned_add_zero (x : float32) (s : bool) :
  is_number x = true -> unsigned_zero x + S754_zero s = unsigned_zero x.
Proof.
  destruct x as [[] | [] | | sx m e], s; intros H; try discriminate H; reflexivity.
Qed.

Lemma b32_add_zero_r (r : float32) (s : bool) :
  unsigned_zero (r + S754_zero s) = unsigned_zero r.
Proof. destruct r as [[] | [] | | sx m e], s; reflexivity. Qed.

Lemma b32_add_zero_l (r : float32) (s : bool) :
  unsigned_zero (S754_zero s + r) = unsigned_zero r.
Proof. destruct r as [[] | [] | | sx m e], s; reflexivity. Qed.

Lemma b32_zero_plus_zero (s s' : bool) :
  S754_zero s + S754_zero s' = (S754_zero (s && s') : float32).
Proof. destruct s, s'; reflexivity. Qed.

Lemma b32_add_same_number (a b c : float32) :
  unsigned_zero a = unsigned_zero b -> unsigned_zero (a + c) = unsigned_zero (b + c).
Proof.
  destruct a as [[] | [] | | sa ma ea], b as [[] | [] | | sb mb eb];
    cbn [unsigned_zero]; intros H; try discriminate H;
    try (injection H as -> -> ->); try reflexivity;
    destruct c as [[] | [] | | sc mc ec]; reflexivity.
Qed.

Ltac split_numbers :=
  unfold number_mat4, number_vec4, number_vec3 in *;
  cbn [m4r0 m4r1 m4r2 m4r3 x4 y4 z4 w4 x3 y3 z3] in *;
  repeat match goal with
         | H : _ && _ = true |- _ =>
             let H' := fresh "N" in apply andb_true_iff in H; destruct H as [H H']
         end.

Ltac zero_products :=
  repeat match goal with
  | N : is_number ?x = true |- context [?x * zero] =>
      let s := fresh "s" in let E := fresh "E" in
      destruct (b32_mul_zero_r x N) as [s E]; rewrite E; clear E
  | N : is_number ?x = true |- context [zero * ?x] =>
      let s := fresh "s" in let E := fresh "E" in
      destruct (b32_mul_zero_l x N) as [s E]; rewrite E; clear E
  end.

(** X4: in binary32, the product of a matrix of numbers (no NaN, no
    infinity) with the default-constructed [mat4], on either side, is
    the matrix itself bit for bit, except that an entry [-0] comes back
    as [+0]. *)
Theorem mat4_mul_identity_b32 (m : mat4 float32) :
  number_mat4 m = true ->
  mat4_mul m (mat4_diag one) = mat4_map unsigned_zero m /\
  mat4_mul (mat4_diag one) m = mat4_map unsigned_zero m.
Proof.
  intros H. destruct_mat4 m. split_numbers.
  split.
  - cbv [mat4_mul mat4_diag mat4_set mat4_set_row mat4_get mat4_row
         vec4_get vec4_set vec4_s for_n fold_left seq
         m4r0 m4r1 m4r2 m4r3 x4 y4 z4 w4 mat4_map vec4_map].
    rewrite !b32_mul_one_r by assumption.
    zero_products.
    rewrite ?b32_zero_add_zero.
    rewrite !b32_zero_add by assumption.
    rewrite !b32_unsigned_add_zero by assumption.
    reflexivity.
  - cbv [mat4_mul mat4_diag mat4_set mat4_set_row mat4_get mat4_row
         vec4_get vec4_set vec4_s for_n fold_left seq
         m4r0 m4r1 m4r2 m4r3 x4 y4 z4 w4 mat4_map vec4_map].
    rewrite !b32_mul_one_l by assumption.
    zero_products.
    rewrite ?b32_zero_add_zero.
    rewrite !b32_zero_add by assumption.
    rewrite !b32_unsigned_add_zero by assumption.
    reflexivity.
Qed.

Lemma mat4_mul_identity_b32_witness :
  mat4_mul signed_zero4 (mat4_diag one) = mat4_map unsigned_zero signed_zero4 /\
  mat4_mul (mat4_diag one) signed_zero4 = mat4_map unsigned_zero signed_zero4.
Proof. apply mat4_mul_identity_b32. vm_compute. reflexivity. Defined.

(** *** Inverses *)

Section Inverses.

Local Open Scope R_scope.

(** What [Inverse] returns on a matrix of non-zero determinant. *)
Lemma Inverse4_nonsingular (m : mat4 R) :
  det4 m <> 0 ->
  Inverse4 (D := R) m =
  unflat4 (for_n 16 (fun i out =>
     buf_set out i (buf_get (Helper.cofactors (flat4 m)) i * (1 / det4 m)))
     (flat4 (mat4_diag 1))).
Proof.
  intros Hdet.
  unfold Inverse4, InvertMatrix4x4.
  rewrite (invert_unfold (D := R)) by reflexivity. cbv zeta.
  rewrite determinant_exact.
  change (det4 m ==? zero)%fl with (Reqb (det4 m) 0).
  unfold Reqb. destruct (Req_dec_T (det4 m) 0) as [E | _]; [contradiction |].
  reflexivity.
Qed.

Lemma Inverse4_mul_r (m : mat4 R) :
  det4 m <> 0 -> mat4_mul m (Inverse4 (D := R) m) = mat4_diag 1.
Proof.
  intros Hdet. rewrite Inverse4_nonsingular by exact Hdet. revert Hdet.
  destruct_mat4 m. unfold_lib. intros Hdet.
  mat4_entries; field; exact Hdet.
Qed.

Lemma Inverse4_mul_l (m : mat4 R) :
  det4 m <> 0 -> mat4_mul (Inverse4 (D := R) m) m = mat4_diag 1.
Proof.
  intros Hdet. rewrite Inverse4_nonsingular by exact Hdet. revert Hdet.
  destruct_mat4 m. unfold_lib. intros Hdet.
  mat4_entries; field; exact Hdet.
Qed.

Lemma right_inverse_det (m b : mat4 R) :
  mat4_mul m b = mat4_diag 1 -> det4 m <> 0 /\ det4 b <> 0.
Proof.
  intros H. assert (D := det4_mul m b). rewrite H, det4_1 in D.
  split; intros E; rewrite E in D; lra.
Qed.

Lemma right_inverse_unique (m b : mat4 R) :
  mat4_mul m b = mat4_diag 1 -> b = Inverse4 (D := R) m.
Proof.
  intros H. destruct (right_inverse_det _ _ H) as [Dm _].
  rewrite <- (mat4_mul_1_l b), <- (Inverse4_mul_l m Dm), mat4_mul_assoc, H.
  apply mat4_mul_1_r.
Qed.

(** X5: in exact arithmetic, for matrices of non-zero determinant,
    [Inverse(a) * a] is the identity as well, [Inverse(a)] is the only
    right inverse and the only left inverse of [a], [Inverse(Inverse(a))]
    is [a], and [Inverse(a * b)] is [Inverse(b) * Inverse(a)]. *)
Theorem Inverse4_laws (a b : mat4 R) :
  det4 a <> 0 -> det4 b <> 0 ->
  mat4_mul (Inverse4 (D := R) a) a = mat4_diag 1 /\
  (forall c, mat4_mul a c = mat4_diag 1 -> c = Inverse4 (D := R) a) /\
  (forall c, mat4_mul c a = mat4_diag 1 -> c = Inverse4 (D := R) a) /\
  Inverse4 (D := R) (Inverse4 (D := R) a) = a /\
  Inverse4 (D := R) (mat4_mul a b) =
    mat4_mul (Inverse4 (D := R) b) (Inverse4 (D := R) a).
Proof.
  intros Ha Hb. split; [exact (Inverse4_mul_l a Ha) |].
  split; [exact (right_inverse_unique a) |].
  split; [| split].
  - intros c H.
    rewrite <- (mat4_mul_1_r c), <- (Inverse4_mul_r a Ha), <- mat4_mul_assoc, H.
    apply mat4_mul_1_l.
  - symmetry. apply right_inverse_unique. exact (Inverse4_mul_l a Ha).
  - symmetry. apply right_inverse_unique.
    rewrite mat4_mul_assoc, <- (mat4_mul_assoc b).
    rewrite (Inverse4_mul_r b Hb), mat4_mul_1_l. exact (Inverse4_mul_r a Ha).
Qed.

Lemma det4_Scale_2_4_8 : det4 (Scale_vec (Vec3 2 4 8)) <> 0.
Proof. unfold_lib. lra. Qed.

Lemma det4_Translate_1_2_3 : det4 (Translate_vec (Vec3 1 2 3)) <> 0.
Proof. unfold_lib. lra. Qed.

Lemma Inverse4_laws_witness :
  let a := Scale_vec (Vec3 2 4 8) in
  let b := Translate_vec (Vec3 1 2 3) in
  mat4_mul (Inverse4 (D := R) a) a = mat4_diag 1 /\
  (forall c, mat4_mul a c = mat4_diag 1 -> c = Inverse4 (D := R) a) /\
  (forall c, mat4_mul c a = mat4_diag 1 -> c = Inverse4 (D := R) a) /\
  Inverse4 (D := R) (Inverse4 (D := R) a) = a /\
  Inverse4 (D := R) (mat4_mul a b) =
    mat4_mul (Inverse4 (D := R) b) (Inverse4 (D := R) a).
Proof. exact (Inverse4_laws _ _ det4_Scale_2_4_8 det4_Translate_1_2_3). Defined.

Lemma det3_of_adjoint_exact (m : mat3 R) :
  det3_of_adjoint m (Adjoint3x3 m) = det3 m.
Proof. destruct_mat3 m. unfold_lib. ring. Qed.

Lemma Inverse3_regular (m : mat3 R) :
  FLT_EPSILON <= Rabs (det3 m) ->
  Inverse3 m = mat3_map (fun a => 1 / det3 m * a) (Adjoint3x3 m).
Proof.
  intros H. unfold Inverse3. rewrite InvertMatrix3x3_unfold. cbv zeta.
  rewrite det3_of_adjoint_exact.
  change (det3 m <? FLT_EPSILON)%fl with (Rltb (det3 m) FLT_EPSILON).
  change (det3 m >? - FLT_EPSILON)%fl with (Rltb (- FLT_EPSILON) (det3 m)).
  unfold Rltb.
  destruct (Rlt_dec (det3 m) FLT_EPSILON) as [H1 | H1];
    destruct (Rlt_dec (- FLT_EPSILON) (det3 m)) as [H2 | H2];
    cbn [andb fst snd]; try reflexivity.
  exfalso. revert H. unfold Rabs. destruct (Rcase_abs (det3 m)); lra.
Qed.

Lemma Inverse3_singular (m : mat3 R) :
  Rabs (det3 m) < FLT_EPSILON -> Inverse3 m = Adjoint3x3 m.
Proof.
  intros H. unfold Inverse3. rewrite InvertMatrix3x3_unfold. cbv zeta.
  rewrite det3_of_adjoint_exact.
  change (det3 m <? FLT_EPSILON)%fl with (Rltb (det3 m) FLT_EPSILON).
  change (det3 m >? - FLT_EPSILON)%fl with (Rltb (- FLT_EPSILON) (det3 m)).
  unfold Rltb.
  destruct (Rlt_dec (det3 m) FLT_EPSILON) as [H1 | H1];
    destruct (Rlt_dec (- FLT_EPSILON) (det3 m)) as [H2 | H2];
    cbn [andb fst snd]; try reflexivity;
    exfalso; revert H; unfold Rabs; destruct (Rcase_abs (det3 m)); lra.
Qed.

(** X6: in exact arithmetic, [Inverse(mat3 m)] is a two-sided inverse
    of [m] when the determinant is at least [FLT_EPSILON] in absolute
    value; below that it is the adjoint of [m], not the identity, and
    [m * Inverse(m)] is the determinant times the identity. *)
Theorem Inverse3_exact (m : mat3 R) :
  (FLT_EPSILON <= Rabs (det3 m) ->
   mat3_mul m (Inverse3 m) = mat3_diag 1 /\ mat3_mul (Inverse3 m) m = mat3_diag 1) /\
  (Rabs (det3 m) < FLT_EPSILON ->
   Inverse3 m = Adjoint3x3 m /\ mat3_mul m (Inverse3 m) = mat3_diag (det3 m)).
Proof.
  split; intros H.
  - rewrite Inverse3_regular by exact H.
    assert (N : det3 m <> 0).
    { intros E. rewrite E, Rabs_R0 in H. generalize FLT_EPSILON_pos. lra. }
    revert N. clear H. destruct_mat3 m. unfold_lib. intros N.
    split; mat3_entries; field; exact N.
  - rewrite Inverse3_singular by exact H. split; [reflexivity |].
    clear H. destruct_mat3 m. unfold_lib. mat3_entries; ring.
Qed.

Lemma Inverse3_exact_witness :
  mat3_mul obtuse_turn_z (Inverse3 obtuse_turn_z) = mat3_diag 1 /\
  mat3_mul (Inverse3 obtuse_turn_z) obtuse_turn_z = mat3_diag 1.
Proof.
  apply (proj1 (Inverse3_exact obtuse_turn_z)).
  replace (det3 obtuse_turn_z) with 1 by (unfold obtuse_turn_z; unfold_lib; field).
  rewrite Rabs_R1. unfold_lib. lra.
Defined.

(** X7: in exact arithmetic, for every [m] of non-zero determinant,
    [TransposeInverseMatrix3x3(m)] is the inverse of [Transpose(m)]; it
    is [Transpose(Inverse(m))] when the determinant is at least
    [FLT_EPSILON] in absolute value. *)
Theorem TransposeInverseMatrix3x3_exact (m : mat3 R) :
  det3 m <> 0 ->
  mat3_mul (Transpose3 m) (TransposeInverseMatrix3x3 m) = mat3_diag 1 /\
  (FLT_EPSILON <= Rabs (det3 m) ->
   TransposeInverseMatrix3x3 m = Transpose3 (Inverse3 m)).
Proof.
  intros N. split.
  - revert N. destruct_mat3 m. unfold_lib. intros N.
    mat3_entries; field; exact N.
  - intros H. rewrite Inverse3_regular by exact H.
    revert N. clear H. destruct_mat3 m. unfold_lib. intros N.
    mat3_entries; field; exact N.
Qed.

Lemma det3_obtuse_turn_z : det3 obtuse_turn_z <> 0.
Proof. unfold obtuse_turn_z. unfold_lib. lra. Qed.

Lemma TransposeInverseMatrix3x3_exact_witness :
  mat3_mul (Transpose3 obtuse_turn_z) (TransposeInverseMatrix3x3 obtuse_turn_z)
    = mat3_diag 1 /\
  (FLT_EPSILON <= Rabs (det3 obtuse_turn_z) ->
   TransposeInverseMatrix3x3 obtuse_turn_z = Transpose3 (Inverse3 obtuse_turn_z)).
Proof. exact (TransposeInverseMatrix3x3_exact _ det3_obtuse_turn_z). Defined.

End Inverses.

(** *** Translate, Scale and the rotations about the axes *)

(** X8: in binary32, for a point and a translation made of numbers,
    [Translate(t) * vec4(p, 1)] has [w = 1] and, in each of [x], [y],
    [z], the float [p + t] of a single rounded addition, up to the sign
    of a zero. *)
Theorem Translate_point_b32 (t p : vec3 float32) :
  number_vec3 t = true -> number_vec3 p = true ->
  let r := mat4_mul_vec (Translate_vec t) (vec4_of_vec3 p one) in
  unsigned_zero (x4 r) = unsigned_zero (x3 p + x3 t) /\
  unsigned_zero (y4 r) = unsigned_zero (y3 p + y3 t) /\
  unsigned_zero (z4 r) = unsigned_zero (z3 p + z3 t) /\
  w4 r = one.
Proof.
  intros Ht Hp. destruct t as [tx ty tz], p as [px py pz].
  split_numbers.
  cbv [mat4_mul_vec Translate_vec Translate vec4_of_vec3 dot4
       m4r0 m4r1 m4r2 m4r3 x4 y4 z4 w4 x3 y3 z3].
  rewrite !b32_mul_one_l, !b32_mul_one_r by assumption.
  zero_products.
  rewrite ?b32_zero_plus_zero.
  repeat split.
  - apply b32_add_same_number. rewrite !b32_add_zero_r. reflexivity.
  - apply b32_add_same_number. rewrite b32_add_zero_r, b32_add_zero_l. reflexivity.
  - apply b32_add_same_number. rewrite b32_add_zero_l. reflexivity.
Qed.

Lemma Translate_point_b32_witness :
  let r := mat4_mul_vec (Translate_vec fifth_shift) (vec4_of_vec3 tenth_point one) in
  unsigned_zero (x4 r) = unsigned_zero (x3 tenth_point + x3 fifth_shift) /\
  unsigned_zero (y4 r) = unsigned_zero (y3 tenth_point + y3 fifth_shift) /\
  unsigned_zero (z4 r) = unsigned_zero (z3 tenth_point + z3 fifth_shift) /\
  w4 r = one.
Proof.
  apply (Translate_point_b32 fifth_shift tenth_point); vm_compute; reflexivity.
Defined.

Section Transforms.

Local Open Scope R_scope.

(** X9: in exact arithmetic, translations compose by adding their
    vectors, the inverse of a translation is the translation by the
    opposite vector, and a direction (a vector of [w = 0]) is left
    unchanged. *)
Theorem Translate_compose (s t : vec3 R) :
  mat4_mul (Translate_vec s) (Translate_vec t) = Translate_vec (vec3_add s t) /\
  Inverse4 (D := R) (Translate_vec t) = Translate_vec (vec3_neg t) /\
  (forall d : vec3 R,
     mat4_mul_vec (Translate_vec t) (vec4_of_vec3 d 0) = vec4_of_vec3 d 0).
Proof.
  destruct s as [sx sy sz], t as [tx ty tz]. split; [| split].
  - unfold_lib. mat4_entries; ring.
  - unfold Inverse4, InvertMatrix4x4.
    rewrite (invert_unfold (D := R)) by reflexivity. cbv zeta.
    rewrite determinant_exact.
    replace (det4 (Translate_vec (Vec3 tx ty tz))) with 1 by (unfold_lib; ring).
    change (1 ==? zero)%fl with (Reqb 1 0).
    unfold Reqb. destruct (Req_dec_T 1 0) as [E | _]; [lra |].
    unfold_lib. mat4_entries; field.
  - intros [dx dy dz]. unfold_lib. apply vec4_ext; ring.
Qed.

(** X10: in exact arithmetic, [Scale(a) * Scale(b)] is the scaling by
    the componentwise product, [Scale(a)] multiplies the first three
    components of a vector by those of [a] and keeps [w], and its
    determinant is [a.x * a.y * a.z]. *)
Theorem Scale_compose (a b : vec3 R) :
  mat4_mul (Scale_vec a) (Scale_vec b) = Scale_vec (vec3_mul a b) /\
  (forall p w,
     mat4_mul_vec (Scale_vec a) (vec4_of_vec3 p w) = vec4_of_vec3 (vec3_mul a p) w) /\
  det4 (Scale_vec a) = x3 a * y3 a * z3 a.
Proof.
  destruct a as [ax ay az], b as [bx b_y bz]. split; [| split].
  - unfold_lib. mat4_entries; ring.
  - intros [px py pz] w. unfold_lib. apply vec4_ext; ring.
  - unfold_lib. ring.
Qed.

Lemma sin2_cos2_prod (a : R) : sin a * sin a + cos a * cos a = 1.
Proof. generalize (sin2_cos2 a). unfold Rsqr. lra. Qed.

(** X11: in exact arithmetic, about each axis the rotations by [a] and
    by [b] degrees compose to the rotation by [a + b], the transpose of
    a rotation is the rotation by the opposite angle, and the upper 3x3
    block has orthonormal rows and determinant 1. *)
Theorem Rotate_facts (a b : R) :
  (mat4_mul (RotateX a) (RotateX b) = RotateX (a + b) /\
   mat4_mul (RotateY a) (RotateY b) = RotateY (a + b) /\
   mat4_mul (RotateZ a) (RotateZ b) = RotateZ (a + b)) /\
  (Transpose4 (RotateX a) = RotateX (- a) /\
   Transpose4 (RotateY a) = RotateY (- a) /\
   Transpose4 (RotateZ a) = RotateZ (- a)) /\
  (pure_rotation (upper3 (RotateX a)) /\ pure_rotation (upper3 (RotateY a)) /\
   pure_rotation (upper3 (RotateZ a))).
Proof.
  split; [| split].
  - unfold_lib.
    set (k := 13176795 / 4194304 / 180).
    replace (k * (a + b)) with (k * a + k * b) by ring.
    rewrite sin_plus, cos_plus.
    repeat split; mat4_entries; ring.
  - unfold_lib.
    set (k := 13176795 / 4194304 / 180).
    replace (k * - a) with (- (k * a)) by ring.
    rewrite sin_neg, cos_neg.
    repeat split; mat4_entries; ring.
  - unfold pure_rotation. unfold_lib.
    set (k := 13176795 / 4194304 / 180).
    generalize (sin2_cos2_prod (k * a)). intros H.
    repeat split; nsatz.
Qed.

(** *** Projections *)

(** X12: in exact arithmetic, when the box is not flat,
    [Orthographic(l, r, b, t, n, f)] maps the corner [(l, b, -n)] to
    [(-1, -1, -1)] and the corner [(r, t, -f)] to [(1, 1, 1)]: the
    planes [z = -n] and [z = -f] are the near and the far plane. *)
Theorem Orthographic_box (l r b t n f : R) :
  r <> l -> t <> b -> f <> n ->
  mat4_mul_vec (Orthographic l r b t n f) (Vec4 l b (- n) 1) = Vec4 (-1) (-1) (-1) 1 /\
  mat4_mul_vec (Orthographic l r b t n f) (Vec4 r t (- f) 1) = Vec4 1 1 1 1.
Proof.
  intros H1 H2 H3.
  split; unfold_lib; apply vec4_ext; field; nonzero.
Qed.

Lemma Orthographic_box_witness :
  mat4_mul_vec (Orthographic 0 800 0 600 1 100) (Vec4 0 0 (- 1) 1)
    = Vec4 (-1) (-1) (-1) 1 /\
  mat4_mul_vec (Orthographic 0 800 0 600 1 100) (Vec4 800 600 (- 100) 1)
    = Vec4 1 1 1 1.
Proof. apply Orthographic_box; lra. Defined.

(** X13: in exact arithmetic, for [zFar <> zNear], [Perspective] maps a
    point at depth [z = -zNear] to clip coordinates [z = -zNear],
    [w = zNear] (depth [-1] after the division by [w]) and a point at
    depth [z = -zFar] to [z = zFar], [w = zFar] (depth [+1]); the [w] of
    the image of any vector is [-z]. *)
Theorem Perspective_depth (fov aspect n f : R) :
  f <> n ->
  (forall x y,
     let r := mat4_mul_vec (Perspective fov aspect n f) (Vec4 x y (- n) 1) in
     z4 r = - n /\ w4 r = n) /\
  (forall x y,
     let r := mat4_mul_vec (Perspective fov aspect n f) (Vec4 x y (- f) 1) in
     z4 r = f /\ w4 r = f) /\
  (forall x y z w,
     w4 (mat4_mul_vec (Perspective fov aspect n f) (Vec4 x y z w)) = - z).
Proof.
  intros H. split; [| split].
  - intros x y. unfold_lib. split; field; nonzero.
  - intros x y. unfold_lib. split; field; nonzero.
  - intros. unfold_lib. ring.
Qed.

Lemma Perspective_depth_witness :
  (forall x y,
     let r := mat4_mul_vec (Perspective 30 (4 / 3) 1 100) (Vec4 x y (- 1) 1) in
     z4 r = - 1 /\ w4 r = 1) /\
  (forall x y,
     let r := mat4_mul_vec (Perspective 30 (4 / 3) 1 100) (Vec4 x y (- 100) 1) in
     z4 r = 100 /\ w4 r = 100) /\
  (forall x y z w,
     w4 (mat4_mul_vec (Perspective 30 (4 / 3) 1 100) (Vec4 x y z w)) = - z).
Proof. apply Perspective_depth. lra. Defined.

(** *** Frames and cameras *)

(** X14: in exact arithmetic, [ReferenceFrame(x, y, z, o)] maps the
    point [(a, b, c)] to [a x + b y + c z + o]. *)
Theorem ReferenceFrame_point (x y z o : vec3 R) (a b c : R) :
  mat4_mul_vec (ReferenceFrame x y z o) (Vec4 a b c 1) =
  vec4_of_vec3 (vec3_add (vec3_add (vec3_add (vec3_scale x a) (vec3_scale y b))
                                   (vec3_scale z c)) o) 1.
Proof. destruct x, y, z, o. unfold_lib. apply vec4_ext; ring. Qed.

Lemma inv_sqrt_sq (d : R) : 0 < d -> (1 / sqrt d) * (1 / sqrt d) * d = 1.
Proof.
  intros H. assert (S := sqrt_lt_R0 d H).
  assert (E := sqrt_sqrt d (Rlt_le _ _ H)).
  field_simplify_eq; [| lra]. lra.
Qed.

Lemma dot2_pos (v : vec2 R) : v <> Vec2 0 0 -> 0 < dot2 v v.
Proof.
  destruct v as [x y]. intros H. unfold_lib.
  destruct (Req_dec x 0) as [-> | Hx]; [| nra].
  destruct (Req_dec y 0) as [-> | Hy]; [| nra].
  contradiction H. reflexivity.
Qed.

Lemma dot3_pos (v : vec3 R) : v <> Vec3 0 0 0 -> 0 < dot3 v v.
Proof.
  destruct v as [x y z]. intros H. unfold_lib.
  destruct (Req_dec x 0) as [-> | Hx]; [| nra].
  destruct (Req_dec y 0) as [-> | Hy]; [| nra].
  destruct (Req_dec z 0) as [-> | Hz]; [| nra].
  contradiction H. reflexivity.
Qed.

Lemma dot4_pos (v : vec4 R) : v <> Vec4 0 0 0 0 -> 0 < dot4 v v.
Proof.
  destruct v as [x y z w]. intros H. unfold_lib.
  destruct (Req_dec x 0) as [-> | Hx]; [| nra].
  destruct (Req_dec y 0) as [-> | Hy]; [| nra].
  destruct (Req_dec z 0) as [-> | Hz]; [| nra].
  destruct (Req_dec w 0) as [-> | Hw]; [| nra].
  contradiction H. reflexivity.
Qed.

Lemma normalize3_dot (v : vec3 R) :
  v <> Vec3 0 0 0 -> dot3 (normalize3 v) (normalize3 v) = 1.
Proof.
  intros H. assert (P := inv_sqrt_sq _ (dot3_pos v H)). revert P.
  destruct v as [x y z]. unfold_lib. intros P.
  etransitivity; [| exact P]. ring.
Qed.

(** X15: in exact arithmetic, when [lookat] is not [eye] and [up] is
    not along the direction looked in (so that neither [normalize]
    divides by zero), [LookAt] maps the eye to the origin and the point
    looked at onto the negative z axis, at its distance from the eye. *)
Theorem LookAt_target (eye lookat up : vec3 R) :
  lookat <> eye ->
  cross3 (normalize3 (vec3_sub lookat eye)) up <> Vec3 0 0 0 ->
  mat4_mul_vec (LookAt eye lookat up) (vec4_of_vec3 eye 1) = Vec4 0 0 0 1 /\
  mat4_mul_vec (LookAt eye lookat up) (vec4_of_vec3 lookat 1) =
    Vec4 0 0 (- length3 (vec3_sub lookat eye)) 1.
Proof.
  intros H _.
  assert (Hd : vec3_sub lookat eye <> Vec3 0 0 0).
  { intros E. apply H. destruct lookat, eye. unfold vec3_sub in E. cbn in E.
    injection E as E1 E2 E3. apply vec3_ext; lra. }
  assert (P := dot3_pos _ Hd).
  assert (S := sqrt_lt_R0 _ P).
  assert (Q := sqrt_sqrt _ (Rlt_le _ _ P)).
  split.
  - destruct eye, lookat, up. unfold_lib. apply vec4_ext; ring.
  - unfold LookAt, length3. revert S Q.
    set (d := vec3_sub lookat eye).
    replace (vec4_of_vec3 lookat 1) with (vec4_of_vec3 (vec3_add d eye) 1)
      by (unfold d; destruct lookat, eye; unfold_lib; apply vec4_ext; ring).
    clearbody d. clear.
    destruct d as [dx dy dz], eye as [ex ey ez], up as [ux uy uz].
    unfold_lib.
    set (s := sqrt (dx * dx + dy * dy + dz * dz)). intros S Q.
    apply vec4_ext; try ring.
    field_simplify_eq; [| lra]. simpl pow. nsatz.
Qed.

Lemma LookAt_target_witness :
  let eye := Vec3 0 0 5 in
  let lookat := Vec3 3 4 5 in
  let up := Vec3 0 1 0 in
  mat4_mul_vec (LookAt eye lookat up) (vec4_of_vec3 eye 1) = Vec4 0 0 0 1 /\
  mat4_mul_vec (LookAt eye lookat up) (vec4_of_vec3 lookat 1) =
    Vec4 0 0 (- length3 (vec3_sub lookat eye)) 1.
Proof.
  apply LookAt_target.
  - intros E. injection E as E1 E2. lra.
  - unfold_lib.
    replace ((3 - 0) * (3 - 0) + (4 - 0) * (4 - 0) + (5 - 5) * (5 - 5))
      with (5 * 5) by ring.
    rewrite sqrt_square by lra.
    intros E. injection E as _ _ E. lra.
Defined.

(** X16: in exact arithmetic, when [lookV] is not zero and [up] is not
    along it, the upper 3x3 block of [LookTowards(eye, lookV, up)] is a
    pure rotation: orthonormal rows and determinant 1. *)
Theorem LookTowards_rotation (eye lookV up : vec3 R) :
  lookV <> Vec3 0 0 0 -> cross3 (normalize3 lookV) up <> Vec3 0 0 0 ->
  pure_rotation (upper3 (LookTowards eye lookV up)).
Proof.
  intros Hz Hx.
  assert (Nz := normalize3_dot _ Hz). assert (Nx := normalize3_dot _ Hx).
  unfold LookTowards.
  set (z := normalize3 lookV) in *.
  assert (Oxz : dot3 (normalize3 (cross3 z up)) z = 0).
  { destruct z as [zx zy zz], up as [ux uy uz]. unfold_lib. ring. }
  set (x := normalize3 (cross3 z up)) in *.
  clearbody x z. clear Hz Hx.
  destruct x as [xx xy xz], z as [zx zy zz], eye as [ex ey ez].
  revert Nz Nx Oxz. unfold pure_rotation. unfold_lib. intros Nz Nx Oxz.
  repeat split; nsatz.
Qed.

Lemma LookTowards_rotation_witness :
  pure_rotation (upper3 (LookTowards (Vec3 0 0 5) (Vec3 0 0 (-1)) (Vec3 0 1 0))).
Proof.
  apply LookTowards_rotation.
  - intros E. injection E as E. lra.
  - unfold_lib. replace (0 * 0 + 0 * 0 + -1 * -1) with 1 by ring.
    rewrite sqrt_1. intros E. injection E as E _. lra.
Defined.

(** *** Vectors *)

(** X17: in exact arithmetic, [normalize] of a non-zero vector has
    length 1, for [vec2], [vec3] and [vec4]. *)
Theorem normalize_unit :
  (forall v : vec2 R, v <> Vec2 0 0 -> length2 (normalize2 v) = 1) /\
  (forall v : vec3 R, v <> Vec3 0 0 0 -> length3 (normalize3 v) = 1) /\
  (forall v : vec4 R, v <> Vec4 0 0 0 0 -> length4 (normalize4 v) = 1).
Proof.
  split; [| split].
  - intros v H. assert (P := inv_sqrt_sq _ (dot2_pos v H)). revert P.
    destruct v as [x y]. unfold_lib. intros P.
    apply eq_trans with (sqrt 1); [f_equal | apply sqrt_1].
    etransitivity; [| exact P]. ring.
  - intros v H. unfold length3. rewrite normalize3_dot by exact H. apply sqrt_1.
  - intros v H. assert (P := inv_sqrt_sq _ (dot4_pos v H)). revert P.
    destruct v as [x y z w]. unfold_lib. intros P.
    apply eq_trans with (sqrt 1); [f_equal | apply sqrt_1].
    etransitivity; [| exact P]. ring.
Qed.

Lemma normalize_unit_witness : length3 (normalize3 (Vec3 3 0 4)) = 1.
Proof.
  apply (proj1 (proj2 normalize_unit)). intros E. injection E as E _. lra.
Defined.

(** X18: in exact arithmetic, [cross(a, b)] of [vec3] is orthogonal to
    [a] and to [b], changes sign when its arguments are exchanged, and
    its squared length is [|a|^2 |b|^2 - (a.b)^2]; [cross] of [vec2]
    changes sign as well, and its square and the square of [dot] add up
    to [|a|^2 |b|^2]. *)
Theorem cross_facts :
  (forall a b : vec3 R,
     dot3 (cross3 a b) a = 0 /\ dot3 (cross3 a b) b = 0 /\
     cross3 b a = vec3_neg (cross3 a b) /\
     dot3 (cross3 a b) (cross3 a b) = dot3 a a * dot3 b b - dot3 a b * dot3 a b) /\
  (forall a b : vec2 R,
     cross2 b a = - cross2 a b /\
     cross2 a b * cross2 a b + dot2 a b * dot2 a b = dot2 a a * dot2 b b).
Proof.
  split.
  - intros [ax ay az] [bx b_y bz]. unfold_lib.
    repeat split; try ring. apply vec3_ext; ring.
  - intros [ax ay] [bx b_y]. unfold_lib. split; ring.
Qed.

End Transforms.

(** *** A camera at the point it looks at *)

(** NaN absorbs the binary32 operations. *)
Lemma b32_nan_absorbs (x : float32) :
  S754_nan * x = S754_nan /\ x * S754_nan = S754_nan /\
  S754_nan + x = S754_nan /\ x + S754_nan = S754_nan /\
  S754_nan - x = S754_nan /\ x - S754_nan = S754_nan.
Proof. destruct x as [[] | [] | | [] m e]; repeat split; reflexivity. Qed.

Lemma b32_sub_self (x : float32) : x - x = S754_zero false \/ x - x = S754_nan.
Proof.
  destruct x as [[] | [] | | s m e]; try (left; reflexivity); try (right; reflexivity).
  left. cbv [fsub binary32 SFsub]. rewrite Z.sub_diag. reflexivity.
Qed.

Lemma normalize3_zero_or_nan (v : vec3 float32) :
  (x3 v = S754_zero false \/ x3 v = S754_nan) ->
  (y3 v = S754_zero false \/ y3 v = S754_nan) ->
  (z3 v = S754_zero false \/ z3 v = S754_nan) ->
  normalize3 v = Vec3 S754_nan S754_nan S754_nan.
Proof.
  destruct v as [x y z]. cbn [x3 y3 z3].
  intros [-> | ->] [-> | ->] [-> | ->]; vm_compute; reflexivity.
Qed.

(** X19: in binary32, [normalize] of a vector of zeros, whatever their
    signs, is a vector of NaN; and for every [eye] and [up],
    [LookAt(eye, eye, up)] has NaN in all of its first three rows. *)
Theorem LookAt_degenerate_b32 :
  (forall s1 s2 s3 : bool,
     normalize3 (Vec3 (S754_zero s1) (S754_zero s2) (S754_zero s3) : vec3 float32)
     = Vec3 S754_nan S754_nan S754_nan) /\
  (forall eye up : vec3 float32,
     let nan := Vec4 S754_nan S754_nan S754_nan S754_nan in
     LookAt eye eye up = Mat4 nan nan nan (Vec4 zero zero zero one)).
Proof.
  split; [intros [] [] []; vm_compute; reflexivity |].
  intros eye up. cbv zeta. unfold LookAt, LookTowards.
  rewrite (normalize3_zero_or_nan (vec3_sub eye eye))
    by (destruct eye; apply b32_sub_self).
  assert (C : forall u : vec3 float32,
             cross3 (Vec3 S754_nan S754_nan S754_nan) u
             = Vec3 S754_nan S754_nan S754_nan).
  { intros [a b c]. unfold cross3. cbn [x3 y3 z3].
    destruct (b32_nan_absorbs a) as [-> _], (b32_nan_absorbs b) as [-> _],
             (b32_nan_absorbs c) as [-> _]. reflexivity. }
  assert (C' : forall u : vec3 float32,
             cross3 u (Vec3 S754_nan S754_nan S754_nan)
             = Vec3 S754_nan S754_nan S754_nan).
  { intros [a b c]. unfold cross3. cbn [x3 y3 z3].
    destruct (b32_nan_absorbs a) as [_ [-> _]], (b32_nan_absorbs b) as [_ [-> _]],
             (b32_nan_absorbs c) as [_ [-> _]]. reflexivity. }
  rewrite C.
  rewrite (normalize3_zero_or_nan (Vec3 S754_nan S754_nan S754_nan))
    by (cbn; auto).
  rewrite C'.
  assert (D : dot3 (Vec3 S754_nan S754_nan S754_nan) eye = S754_nan).
  { destruct eye as [a b c]. unfold dot3. cbn [x3 y3 z3].
    destruct (b32_nan_absorbs a) as [-> _]. reflexivity. }
  rewrite D. reflexivity.
Qed.

(** *** Quaternions *)

Section QuaternionFacts.

Local Open Scope R_scope.

(** X20: in exact arithmetic, the norm of a product of quaternions is
    the product of the norms, the product is associative, and
    [(0, 0, 0, 1)] is neutral on both sides. *)
Theorem quat_mul_facts (p q r : Quaternion R) :
  Norm (quat_mul p q) = Norm p * Norm q /\
  quat_mul (quat_mul p q) r = quat_mul p (quat_mul q r) /\
  quat_mul p (Quat 0 0 0 1) = p /\ quat_mul (Quat 0 0 0 1) p = p.
Proof.
  destruct p as [px py pz pw], q as [q_x q_y q_z q_w], r as [rx ry rz rw].
  unfold_lib. repeat split; try ring; apply quat_ext; ring.
Qed.

Lemma Norm_nonneg (q : Quaternion R) : 0 <= Norm q.
Proof. destruct q as [x y z w]. unfold_lib. nra. Qed.

(** What [Get3x3] returns when the norm is not below [FLT_EPSILON],
    and when it is. *)
Lemma Get3x3_regular (q : Quaternion R) :
  FLT_EPSILON <= Norm q ->
  Get3x3 q =
  let s := 2 / Norm q in
  Mat3 (Vec3 (1 - (qy q * (qy q * s) + qz q * (qz q * s)))
             (qx q * (qy q * s) + qw q * (qz q * s))
             (qx q * (qz q * s) - qw q * (qy q * s)))
       (Vec3 (qx q * (qy q * s) - qw q * (qz q * s))
             (1 - (qx q * (qx q * s) + qz q * (qz q * s)))
             (qy q * (qz q * s) + qw q * (qx q * s)))
       (Vec3 (qx q * (qz q * s) + qw q * (qy q * s))
             (qy q * (qz q * s) - qw q * (qx q * s))
             (1 - (qx q * (qx q * s) + qy q * (qy q * s)))).
Proof.
  intros H. unfold Get3x3.
  change (fabs (Norm q) <? FLT_EPSILON)%fl with (Rltb (Rabs (Norm q)) FLT_EPSILON).
  unfold Rltb. destruct (Rlt_dec (Rabs (Norm q)) FLT_EPSILON) as [L | _].
  - generalize FLT_EPSILON_pos. intros P. rewrite Rabs_pos_eq in L by lra. lra.
  - reflexivity.
Qed.

Lemma Get3x3_small (q : Quaternion R) :
  Norm q < FLT_EPSILON -> Get3x3 q = mat3_diag 1.
Proof.
  intros H. unfold Get3x3.
  change (fabs (Norm q) <? FLT_EPSILON)%fl with (Rltb (Rabs (Norm q)) FLT_EPSILON).
  unfold Rltb. destruct (Rlt_dec (Rabs (Norm q)) FLT_EPSILON) as [L | L].
  - reflexivity.
  - rewrite Rabs_pos_eq in L by apply Norm_nonneg. lra.
Qed.

(** X21: in exact arithmetic, for every quaternion, of whatever norm,
    the matrix returned by [Get3x3] is a pure rotation: orthonormal
    rows and determinant 1. *)
Theorem Get3x3_pure_rotation (q : Quaternion R) : pure_rotation (Get3x3 q).
Proof.
  destruct (Rlt_le_dec (Norm q) FLT_EPSILON) as [H | H].
  - rewrite Get3x3_small by exact H. unfold pure_rotation. unfold_lib.
    repeat split; ring.
  - rewrite Get3x3_regular by exact H. cbv zeta.
    assert (N : Norm q <> 0) by (generalize FLT_EPSILON_pos; lra).
    revert N. clear H.
    destruct q as [x y z w]. unfold pure_rotation. unfold_lib. intros N.
    repeat split; field; exact N.
Qed.

(** X22: in exact arithmetic, when the norms of [p], [q] and [p * q]
    are not below [FLT_EPSILON], the matrix of the product [p * q] is
    the product of the matrices in the reverse order,
    [Get3x3(q) * Get3x3(p)]. *)
Theorem Get3x3_product (p q : Quaternion R) :
  FLT_EPSILON <= Norm p -> FLT_EPSILON <= Norm q ->
  FLT_EPSILON <= Norm (quat_mul p q) ->
  Get3x3 (quat_mul p q) = mat3_mul (Get3x3 q) (Get3x3 p).
Proof.
  intros Hp Hq Hpq.
  rewrite !Get3x3_regular by assumption. cbv zeta.
  generalize FLT_EPSILON_pos. intros P.
  assert (Np : Norm p <> 0) by lra. assert (Nq : Norm q <> 0) by lra.
  assert (Npq : Norm (quat_mul p q) <> 0) by lra.
  revert Np Nq Npq. clear.
  destruct p as [px py pz pw], q as [q_x q_y q_z q_w].
  unfold_lib. intros Np Nq Npq.
  mat3_entries; field; repeat split; assumption.
Qed.

Lemma Get3x3_product_witness :
  let p := Quat (3 / 5) 0 0 (4 / 5) in
  let q := Quat 0 1 0 0 in
  Get3x3 (quat_mul p q) = mat3_mul (Get3x3 q) (Get3x3 p).
Proof. apply Get3x3_product; unfold_lib; lra. Defined.

(** X23: in exact arithmetic, for a non-zero axis,
    [Quaternion(axis, angle)] has norm 1, and the product of the
    quaternions of two angles about the same axis is the quaternion of
    the sum of the angles. *)
Theorem Quaternion_of_axis_unit (axis : vec3 R) (a b : R) :
  axis <> Vec3 0 0 0 ->
  Norm (Quaternion_of_axis axis a) = 1 /\
  quat_mul (Quaternion_of_axis axis a) (Quaternion_of_axis axis b) =
    Quaternion_of_axis axis (a + b).
Proof.
  intros H. assert (N := normalize3_dot _ H).
  unfold Quaternion_of_axis.
  set (n := normalize3 axis) in *. clearbody n. clear H.
  destruct n as [x y z]. revert N. unfold_lib. intros N.
  replace ((a + b) / 2) with (a / 2 + b / 2) by field.
  rewrite sin_plus, cos_plus.
  generalize (sin2_cos2_prod (a / 2)).
  generalize (sin (a / 2)) (cos (a / 2)) (sin (b / 2)) (cos (b / 2)).
  intros sa ca sb cb T.
  split; [nsatz |].
  apply quat_ext; nsatz.
Qed.

Lemma Quaternion_of_axis_unit_witness :
  let axis := Vec3 0 0 2 in
  Norm (Quaternion_of_axis axis 1) = 1 /\
  quat_mul (Quaternion_of_axis axis 1) (Quaternion_of_axis axis 2) =
    Quaternion_of_axis axis (1 + 2).
Proof.
  apply Quaternion_of_axis_unit. intros E. injection E as E. lra.
Defined.

Lemma normalize3_axis :
  normalize3 (Vec3 1 0 0) = Vec3 1 0 0 /\
  normalize3 (Vec3 0 1 0) = Vec3 0 1 0 /\
  normalize3 (Vec3 0 0 1) = Vec3 0 0 1.
Proof.
  unfold_lib.
  replace (1 * 1 + 0 * 0 + 0 * 0) with 1 by ring.
  replace (0 * 0 + 1 * 1 + 0 * 0) with 1 by ring.
  replace (0 * 0 + 0 * 0 + 1 * 1) with 1 by ring.
  rewrite sqrt_1. repeat split; apply vec3_ext; field.
Qed.

(** X24: in exact arithmetic, the matrix [Get3x3] of the quaternion of
    the angle [DegreesToRadians * theta] about the x, y or z axis is the
    transpose of the upper 3x3 block of [RotateX(theta)],
    [RotateY(theta)] or [RotateZ(theta)]. *)
Theorem Quaternion_of_axis_Rotate (theta : R) :
  Get3x3 (Quaternion_of_axis (Vec3 1 0 0) (DegreesToRadians * theta)) =
    Transpose3 (upper3 (RotateX theta)) /\
  Get3x3 (Quaternion_of_axis (Vec3 0 1 0) (DegreesToRadians * theta)) =
    Transpose3 (upper3 (RotateY theta)) /\
  Get3x3 (Quaternion_of_axis (Vec3 0 0 1) (DegreesToRadians * theta)) =
    Transpose3 (upper3 (RotateZ theta)).
Proof.
  destruct normalize3_axis as [Ex [Ey Ez]].
  unfold Quaternion_of_axis, RotateX, RotateY, RotateZ. rewrite Ex, Ey, Ez.
  cbv [x3 y3 z3 fsin fcos trig_exact costan_exact fdiv fmul two fofZ exactR].
  set (a := DegreesToRadians * theta).
  assert (T := sin2_cos2_prod (a / 2)).
  assert (S : sin a = 2 * sin (a / 2) * cos (a / 2)).
  { replace a with (2 * (a / 2)) at 1 by field. apply sin_2a. }
  assert (C : cos a = 1 - 2 * sin (a / 2) * sin (a / 2)).
  { replace a with (2 * (a / 2)) at 1 by field. apply cos_2a_sin. }
  rewrite !Rmult_1_r, !Rmult_0_r.
  rewrite !Get3x3_unit by lra.
  rewrite S, C.
  unfold_lib. repeat split; mat3_entries; ring.
Qed.

(** X25: in exact arithmetic, for every 4x4 matrix whose upper 3x3
    block is a pure rotation [r] scaled by [s > 0], the round trip
    through [Quaternion(mat4)] and [GetMatrix] returns [r] without the
    scale, completed by the last row and column of the identity. *)
Theorem Quaternion_of_mat4_removes_scale (m : mat4 R) (r : mat3 R) (s : R) :
  pure_rotation r -> 0 < s -> upper3 m = mat3_map (fun a => s * a) r ->
  GetMatrix (Quaternion_of_mat4 m) = mat4_of_mat3 r.
Proof.
  intros H Hs E. assert (Ht := pure_rotation_transpose _ H).
  unfold GetMatrix. f_equal.
  rewrite <- (Transpose3_involutive r).
  rewrite <- (Get3x3_of_rotation _ Ht). f_equal. f_equal.
  revert Ht E. clear H.
  destruct m as [[a b c x] [d e f y] [g h i z] [p q k w]].
  destruct r as [[ra rb rc] [rd re rf] [rg rh ri]].
  cbv [upper3 Transpose3 mat3_map vec3_map mat4_get mat4_row vec4_get
       m4r0 m4r1 m4r2 m4r3 x4 y4 z4 w4].
  cbv [pure_rotation dot3 det3 mat3_get mat3_row vec3_get m3r0 m3r1 m3r2 x3 y3 z3
       fadd fsub fmul exactR].
  intros [r00 [r11 [r22 [r01 [r02 [r12 det]]]]]] E.
  injection E as -> -> -> -> -> -> -> -> ->.
  cbv [Quaternion_of_mat4 length3 dot3 for_n fold_left seq mat3_set mat3_get
       mat3_set_row mat3_row vec3_set vec3_get m3r0 m3r1 m3r2 x3 y3 z3
       mat4_get mat4_row vec4_get m4r0 m4r1 m4r2 m4r3 x4 y4 z4 w4
       fadd fmul fdiv fsqrt exactR].
  replace (s * ra * (s * ra) + s * rd * (s * rd) + s * rg * (s * rg))
    with (s * s * (ra * ra + rd * rd + rg * rg)) by ring.
  replace (s * rb * (s * rb) + s * re * (s * re) + s * rh * (s * rh))
    with (s * s * (rb * rb + re * re + rh * rh)) by ring.
  replace (s * rc * (s * rc) + s * rf * (s * rf) + s * ri * (s * ri))
    with (s * s * (rc * rc + rf * rf + ri * ri)) by ring.
  rewrite r00, r11, r22, !Rmult_1_r, (sqrt_square s (Rlt_le _ _ Hs)).
  f_equal. apply mat3_ext; apply vec3_ext; field; lra.
Qed.

Lemma obtuse_turn_z_rotation : pure_rotation obtuse_turn_z.
Proof.
  unfold obtuse_turn_z.
  cbv [pure_rotation dot3 det3 mat3_get mat3_row vec3_get m3r0 m3r1 m3r2 x3 y3 z3
       fadd fsub fmul exactR].
  repeat split; lra.
Qed.

Lemma Quaternion_of_mat4_removes_scale_witness :
  GetMatrix (Quaternion_of_mat4
               (mat4_of_mat3 (mat3_map (fun a => 3 * a) obtuse_turn_z)))
  = mat4_of_mat3 obtuse_turn_z.
Proof.
  apply (Quaternion_of_mat4_removes_scale _ obtuse_turn_z 3).
  - exact obtuse_turn_z_rotation.
  - lra.
  - reflexivity.
Defined.

(** *** Slerp between two rotations that are neither close nor opposite *)

(** The weights of the usual branch. *)
Lemma Slerp_regular (q0 q1 : Quaternion R) (t : R) :
  1 / 100000 < 1 + Dot q0 q1 -> 1 / 100000 < 1 - Dot q0 q1 ->
  let omega := acos (Dot q0 q1) in
  Slerp q0 q1 t =
  quat_add (quat_scale q0 (sin ((1 - t) * omega) / sin omega))
           (quat_scale q1 (sin (t * omega) / sin omega)).
Proof.
  intros H1 H2. cbv zeta. unfold Slerp.
  change (one + Dot q0 q1 >? lit 1 100000)%fl with (Rltb (1 / 100000) (1 + Dot q0 q1)).
  change (one - Dot q0 q1 >? lit 1 100000)%fl with (Rltb (1 / 100000) (1 - Dot q0 q1)).
  unfold Rltb.
  destruct (Rlt_dec (1 / 100000) (1 + Dot q0 q1)) as [_ | N]; [| contradiction].
  destruct (Rlt_dec (1 / 100000) (1 - Dot q0 q1)) as [_ | N]; [| contradiction].
  reflexivity.
Qed.

(** X26: in exact arithmetic, for unit quaternions whose dot product
    [d] satisfies [0.00001 < 1 + d] and [0.00001 < 1 - d], the result
    of [Slerp] is a unit quaternion for every [t], at the angle
    [t * acos(d)] from [qu0] and [(1 - t) * acos(d)] from [qu1]. *)
Theorem Slerp_unit (q0 q1 : Quaternion R) (t : R) :
  Norm q0 = 1 -> Norm q1 = 1 ->
  1 / 100000 < 1 + Dot q0 q1 -> 1 / 100000 < 1 - Dot q0 q1 ->
  Norm (Slerp q0 q1 t) = 1 /\
  Dot q0 (Slerp q0 q1 t) = cos (t * acos (Dot q0 q1)) /\
  Dot (Slerp q0 q1 t) q1 = cos ((1 - t) * acos (Dot q0 q1)).
Proof.
  intros N0 N1 H1 H2.
  rewrite Slerp_regular by assumption. cbv zeta.
  set (c := Dot q0 q1) in *.
  assert (Hc : -1 <= c <= 1) by lra.
  assert (C := cos_acos c Hc).
  assert (S : 0 < sin (acos c)).
  { destruct (acos_bound_lt c) as [B0 B1]; [lra |]. now apply sin_gt_0. }
  assert (T := sin2_cos2_prod (acos c)). rewrite C in T.
  assert (Tt := sin2_cos2_prod (t * acos c)).
  assert (E1 : sin ((1 - t) * acos c)
               = sin (acos c) * cos (t * acos c) - c * sin (t * acos c)).
  { replace ((1 - t) * acos c) with (acos c - t * acos c) by ring.
    rewrite sin_minus, C. ring. }
  assert (E2 : cos ((1 - t) * acos c)
               = c * cos (t * acos c) + sin (acos c) * sin (t * acos c)).
  { replace ((1 - t) * acos c) with (acos c - t * acos c) by ring.
    rewrite cos_minus, C. ring. }
  rewrite E1, E2.
  revert S T Tt.
  generalize (sin (acos c)) (sin (t * acos c)) (cos (t * acos c)).
  intros s st ct S T Tt.
  unfold c in *. clear c C E1 E2 Hc H1 H2.
  destruct q0 as [x0 y0 z0 w0], q1 as [x1 y1 z1 w1].
  revert N0 N1 T. unfold_lib. intros N0 N1 T.
  assert (Ns : s <> 0) by lra.
  repeat split; (field_simplify_eq; [simpl pow; nsatz | exact Ns]).
Qed.

Lemma Slerp_unit_witness :
  let q0 := Quat 0 0 0 1 in
  let q1 := Quat 1 0 0 0 in
  Norm (Slerp q0 q1 (1 / 3)) = 1 /\
  Dot q0 (Slerp q0 q1 (1 / 3)) = cos (1 / 3 * acos (Dot q0 q1)) /\
  Dot (Slerp q0 q1 (1 / 3)) q1 = cos ((1 - 1 / 3) * acos (Dot q0 q1)).
Proof. apply Slerp_unit; unfold_lib; lra. Defined.

End QuaternionFacts.

(** *** The characters of Siege *)

Section SiegeFacts.

Context {F : Type} {SF : Scalar F}.
Variable Sprite : Type.
Variable position : Sprite -> vec2 F.
Variable SetUVforFrame : Z -> Z -> Z -> Z -> Sprite -> Sprite.
Variable Release : Sprite -> Sprite.
Variable SetPosition : vec2 F -> Sprite -> Sprite.

Local Abbreviation Character := (Siege.Character F Sprite).
Local Abbreviation SetFrame := (Siege.SetFrame SetUVforFrame).
Local Abbreviation SetAnimation := (Siege.SetAnimation SetUVforFrame).
Local Abbreviation Animate := (Siege.Animate SetUVforFrame).
Local Abbreviation Attack := (Siege.Attack SetUVforFrame).
Local Abbreviation Moving := (Siege.Moving SetUVforFrame).
Local Abbreviation Death := (Siege.Death SetUVforFrame Release).
Local Abbreviation Hurting := (Siege.Hurting SetUVforFrame Release).
Local Abbreviation UpdatePosition := (Siege.UpdatePosition position SetPosition).
Local Abbreviation invoke := (Siege.invoke position SetUVforFrame Release SetPosition).
Local Abbreviation invoke_all := (Siege.invoke_all position SetUVforFrame Release SetPosition).

Local Open Scope Z_scope.

Lemma wrap_int_id (z : Z) : INT_MIN <= z <= INT_MAX -> wrap_int z = z.
Proof.
  unfold wrap_int, INT_MIN, INT_MAX. intros H.
  rewrite Z.mod_small by lia. lia.
Qed.

Lemma wrap_int_add (a b : Z) : wrap_int (wrap_int a + b) = wrap_int (a + b).
Proof.
  unfold wrap_int. f_equal.
  replace ((a + 2 ^ 31) mod 2 ^ 32 - 2 ^ 31 + b + 2 ^ 31)
    with ((a + 2 ^ 31) mod 2 ^ 32 + b) by ring.
  rewrite Zplus_mod_idemp_l. f_equal. ring.
Qed.

Lemma same_tables_refl (c : Character) : same_tables c c.
Proof. unfold same_tables. tauto. Qed.

Lemma same_tables_trans (c1 c2 c3 : Character) :
  same_tables c1 c2 -> same_tables c2 c3 -> same_tables c1 c3.
Proof. unfold same_tables. intuition congruence. Qed.

Lemma tables_ok_same (c c' : Character) :
  same_tables c c' -> tables_ok c -> tables_ok c'.
Proof.
  unfold same_tables, tables_ok.
  intros [-> [_ [-> [-> [-> [-> [-> ->]]]]]]]. tauto.
Qed.

Lemma SetFrame_defined (f : Z) (c : Character) :
  0 < Siege.nCols c ->
  SetFrame f c =
  Some (Siege.set_sprite (Siege.set_frame c f)
          (SetUVforFrame (Z.quot f (Siege.nCols c)) (Z.rem f (Siege.nCols c))
             (Siege.nRows c) (Siege.nCols c) (Siege.sprite c))).
Proof.
  intros H. unfold Siege.SetFrame, int_div, int_rem. cbn.
  destruct (Z.eqb_spec (Siege.nCols c) 0) as [E | _]; [lia |].
  destruct (Z.eqb_spec (Siege.nCols c) (-1)) as [E | _]; [lia |].
  rewrite andb_false_r. reflexivity.
Qed.

Lemma SetAnimation_defined (a : Z) (c : Character) :
  tables_ok c -> 0 <= a ->
  exists c', SetAnimation a c = Some c' /\ same_tables c c' /\
             Siege.IsDead c' = Siege.IsDead c /\ Siege.health c' = Siege.health c /\
             Siege.IsMoving c' = Siege.IsMoving c.
Proof.
  intros [Hc [Hn _]] Ha. unfold Siege.SetAnimation.
  destruct (Z.ltb_spec a (Siege.nAnimations c)) as [L | L].
  - destruct (Z.ltb_spec a 0) as [L0 | _]; [lia |].
    destruct (nth_error (Siege.animations c) (Z.to_nat a)) as [i |] eqn:E.
    + rewrite SetFrame_defined by (cbn; lia).
      eexists. split; [reflexivity |]. cbn. unfold same_tables. cbn. tauto.
    + apply nth_error_None in E. lia.
  - exists c. split; [reflexivity |]. split; [apply same_tables_refl | tauto].
Qed.


Lemma Animate_defined (now : F) (c : Character) :
  tables_ok c ->
  exists c', Animate now c = Some c' /\ same_tables c c' /\
             Siege.IsDead c' = Siege.IsDead c /\ Siege.health c' = Siege.health c /\
             Siege.IsMoving c' = Siege.IsMoving c.
Proof.
  intros [Hc _]. unfold Siege.Animate.
  destruct (now >? Siege.change c)%fl.
  - rewrite SetFrame_defined by (cbn; lia).
    eexists. split; [reflexivity |]. cbn. unfold same_tables. cbn. tauto.
  - exists c. split; [reflexivity |]. split; [apply same_tables_refl | tauto].
Qed.

Lemma Death_defined (c : Character) :
  tables_ok c ->
  exists c', Death c = Some c' /\ same_tables c c' /\ Siege.IsDead c' = true /\
             Siege.health c' = Siege.health c /\ Siege.IsMoving c' = Siege.IsMoving c.
Proof.
  intros H. unfold Siege.Death.
  destruct (Siege.IsDead c) eqn:E; cbn [negb].
  - exists c. split; [reflexivity |]. split; [apply same_tables_refl | tauto].
  - destruct (SetAnimation_defined (Siege.death c) c H) as [c1 [E1 [T1 [D1 [H1 M1]]]]].
    { unfold tables_ok in H. tauto. }
    rewrite E1. eexists. split; [reflexivity |]. cbn.
    split; [exact T1 | tauto].
Qed.

Lemma Hurting_defined (dmg : Z) (c : Character) :
  tables_ok c ->
  exists c', Hurting dmg c = Some c' /\ same_tables c c' /\
             Siege.health c' = wrap_int (Siege.health c - dmg) /\
             Siege.IsMoving c' = false /\
             (Siege.IsDead c = true -> Siege.IsDead c' = true) /\
             (wrap_int (Siege.health c - dmg) <= 0 -> Siege.IsDead c' = true).
Proof.
  intros H. unfold Siege.Hurting.
  set (c0 := Siege.set_IsMoving (Siege.set_health c (wrap_int (Siege.health c - dmg))) false).
  assert (T0 : same_tables c c0) by (unfold same_tables; cbn; tauto).
  assert (H0 : tables_ok c0) by (apply (tables_ok_same c); assumption).
  change (Siege.health c0) with (wrap_int (Siege.health c - dmg)).
  destruct (Z.leb_spec (wrap_int (Siege.health c - dmg)) 0) as [L | L].
  - destruct (Death_defined c0 H0) as [c1 [E1 [T1 [D1 [H1 M1]]]]].
    exists c1. split; [exact E1 |].
    split; [exact (same_tables_trans _ _ _ T0 T1) |].
    rewrite H1, M1. cbn. tauto.
  - destruct (SetAnimation_defined (Siege.hurt c0) c0 H0) as [c1 [E1 [T1 [D1 [H1 M1]]]]].
    { unfold tables_ok in H0. tauto. }
    exists c1. split; [exact E1 |].
    split; [exact (same_tables_trans _ _ _ T0 T1) |].
    rewrite H1, M1, D1. cbn. split; [reflexivity |]. split; [reflexivity |].
    split; [tauto | lia].
Qed.

Lemma invoke_defined (k : Siege.call F) (c : Character) :
  tables_ok c -> safe_call k ->
  exists c', invoke k c = Some c' /\ same_tables c c' /\
             (Siege.IsDead c = true -> Siege.IsDead c' = true).
Proof.
  intros H Hk. destruct k as [f | a | now | | | dmg | |]; cbn [Siege.invoke].
  - rewrite SetFrame_defined by (unfold tables_ok in H; tauto).
    eexists. split; [reflexivity |]. unfold same_tables. cbn. tauto.
  - destruct (SetAnimation_defined a c H Hk) as [c1 [E1 [T1 [D1 _]]]].
    exists c1. rewrite D1. tauto.
  - destruct (Animate_defined now c H) as [c1 [E1 [T1 [D1 _]]]].
    exists c1. rewrite D1. tauto.
  - unfold Siege.Attack.
    set (c0 := Siege.set_IsMoving c false).
    assert (T0 : same_tables c c0) by (unfold same_tables; cbn; tauto).
    assert (H0 : tables_ok c0) by (apply (tables_ok_same c); assumption).
    destruct (SetAnimation_defined (Siege.attack c0) c0 H0) as [c1 [E1 [T1 [D1 _]]]].
    { unfold tables_ok in H0. tauto. }
    exists c1. split; [exact E1 |].
    split; [exact (same_tables_trans _ _ _ T0 T1) |]. rewrite D1. cbn. tauto.
  - unfold Siege.Moving.
    set (c0 := Siege.set_IsMoving c true).
    assert (T0 : same_tables c c0) by (unfold same_tables; cbn; tauto).
    assert (H0 : tables_ok c0) by (apply (tables_ok_same c); assumption).
    destruct (SetAnimation_defined (Siege.moving c0) c0 H0) as [c1 [E1 [T1 [D1 _]]]].
    { unfold tables_ok in H0. tauto. }
    exists c1. split; [exact E1 |].
    split; [exact (same_tables_trans _ _ _ T0 T1) |]. rewrite D1. cbn. tauto.
  - destruct (Hurting_defined dmg c H) as [c1 [E1 [T1 [_ [_ [D1 _]]]]]].
    exists c1. tauto.
  - destruct (Death_defined c H) as [c1 [E1 [T1 [D1 _]]]].
    exists c1. tauto.
  - eexists. split; [reflexivity |]. unfold Siege.UpdatePosition.
    destruct (Siege.IsMoving c); cbn; unfold same_tables; cbn; tauto.
Qed.

(** X27: on a character whose tables are sound, every sequence of
    calls that hands no negative index to [SetAnimation] has a result:
    no call divides by zero or reads outside the animation table; the
    sheet and the tables of the result are those of the character it
    started from (and so are sound), and a dead character stays dead. *)
Theorem calls_defined (ks : list (Siege.call F)) : forall c : Character,
  tables_ok c -> Forall safe_call ks ->
  exists c', invoke_all ks c = Some c' /\ same_tables c c' /\ tables_ok c' /\
             (Siege.IsDead c = true -> Siege.IsDead c' = true).
Proof.
  induction ks as [| k ks IH]; intros c H Hs.
  - exists c. cbn. split; [reflexivity |].
    split; [apply same_tables_refl | tauto].
  - inversion Hs as [| k' ks' Hk Hks]; subst.
    destruct (invoke_defined k c H Hk) as [c1 [E1 [T1 D1]]].
    destruct (IH c1 (tables_ok_same _ _ T1 H) Hks) as [c2 [E2 [T2 [H2 D2]]]].
    exists c2. cbn [Siege.invoke_all]. rewrite E1.
    split; [exact E2 |].
    split; [exact (same_tables_trans _ _ _ T1 T2) | tauto].
Qed.


Lemma Animate_step (now : F) (c : Character) :
  tables_ok c -> in_animation c ->
  exists c', Animate now c = Some c' /\ same_tables c c' /\ in_animation c' /\
             Siege.startFrame c' = Siege.startFrame c /\
             Siege.nFrames c' = Siege.nFrames c /\
             Siege.CurrentAnimation c' = Siege.CurrentAnimation c /\
             Siege.frame c' =
               if (now >? Siege.change c)%fl
               then Siege.startFrame c +
                    (Siege.frame c - Siege.startFrame c + 1) mod Siege.nFrames c
               else Siege.frame c.
Proof.
  intros [Hc _] [H0 [H1 [H2 H3]]]. unfold Siege.Animate.
  destruct (now >? Siege.change c)%fl.
  - rewrite SetFrame_defined by (cbn; lia).
    eexists. split; [reflexivity |]. cbn.
    assert (B := INT_MAX). unfold INT_MAX, INT_MIN in *.
    change (wrap_int (Siege.startFrame c + Siege.nFrames c) - 1)
      with (wrap_int (Siege.startFrame c + Siege.nFrames c) + (-1)).
    rewrite wrap_int_add.
    rewrite (wrap_int_id (Siege.startFrame c + Siege.nFrames c + -1))
      by (unfold INT_MAX, INT_MIN; lia).
    destruct (Z.eqb_spec (Siege.frame c) (Siege.startFrame c + Siege.nFrames c + -1))
      as [E | E].
    + split; [unfold same_tables; cbn; tauto |].
      split; [unfold in_animation; cbn; unfold INT_MAX; lia |].
      repeat split.
      replace (Siege.frame c - Siege.startFrame c + 1) with (Siege.nFrames c) by lia.
      rewrite Z.mod_same by lia. lia.
    + rewrite (wrap_int_id (Siege.frame c + 1)) by (unfold INT_MAX, INT_MIN; lia).
      split; [unfold same_tables; cbn; tauto |].
      split; [unfold in_animation; cbn; unfold INT_MAX; lia |].
      repeat split.
      rewrite Z.mod_small by lia. lia.
  - exists c. split; [reflexivity |]. split; [apply same_tables_refl |].
    split; [unfold in_animation; tauto |]. tauto.
Qed.

Lemma Animate_all (times : list F) : forall c : Character,
  tables_ok c -> in_animation c ->
  exists c', invoke_all (map (@Siege.CallAnimate F) times) c = Some c' /\
             in_animation c' /\
             Siege.startFrame c' = Siege.startFrame c /\
             Siege.nFrames c' = Siege.nFrames c /\
             Siege.CurrentAnimation c' = Siege.CurrentAnimation c.
Proof.
  induction times as [| t times IH]; intros c H A.
  - exists c. cbn. tauto.
  - destruct (Animate_step t c H A) as [c1 [E1 [T1 [A1 [S1 [N1 [C1 _]]]]]]].
    destruct (IH c1 (tables_ok_same _ _ T1 H) A1) as [c2 [E2 [A2 [S2 [N2 C2]]]]].
    exists c2. cbn [map Siege.invoke_all Siege.invoke]. rewrite E1.
    split; [exact E2 |]. split; [exact A2 |]. repeat split; congruence.
Qed.

(** X28: after [SetAnimation(a)] on an entry [(i1, i2)] of the table,
    however often and at whatever times [Animate] is called, the frame
    stays within [i1 .. i2] and the current animation stays [a]. *)
Theorem animation_stays_in_range (c : Character) (a i1 i2 : Z) (times : list F) :
  tables_ok c -> 0 <= a < Siege.nAnimations c ->
  nth_error (Siege.animations c) (Z.to_nat a) = Some (Int2 i1 i2) ->
  0 <= i1 <= i2 -> i2 < INT_MAX ->
  exists c',
    invoke_all (Siege.CallSetAnimation a :: map (@Siege.CallAnimate F) times) c = Some c' /\
    i1 <= Siege.frame c' <= i2 /\ Siege.CurrentAnimation c' = a.
Proof.
  intros H Ha E Hi Hm.
  cbn [Siege.invoke_all Siege.invoke]. unfold Siege.SetAnimation.
  destruct (Z.ltb_spec a (Siege.nAnimations c)) as [_ | L]; [| lia].
  destruct (Z.ltb_spec a 0) as [L | _]; [lia |].
  rewrite E. cbn [i2_1 i2_2].
  rewrite SetFrame_defined by (cbn; unfold tables_ok in H; tauto).
  unfold INT_MAX in Hm.
  rewrite (wrap_int_id (i2 - i1)) by (unfold INT_MAX, INT_MIN; lia).
  rewrite (wrap_int_id (i2 - i1 + 1)) by (unfold INT_MAX, INT_MIN; lia).
  cbv beta iota.
  match goal with |- context [Siege.invoke_all _ _ _ _ _ ?c0] => set (c1 := c0) end.
  assert (T1 : same_tables c c1) by (unfold same_tables; cbn; tauto).
  assert (A1 : in_animation c1) by (unfold in_animation; cbn; unfold INT_MAX; lia).
  destruct (Animate_all times c1 (tables_ok_same _ _ T1 H) A1)
    as [c2 [E2 [[_ [_ [_ A2]]] [S2 [N2 C2]]]]].
  exists c2. rewrite E2. split; [reflexivity |].
  rewrite S2, N2 in A2. cbn in A2, C2. split; [lia | exact C2].
Qed.

(** X29: on a sound character whose frame lies in the running
    animation, [Animate] does nothing before the time [change]; once
    the time is past it, the frame moves to the next one of the
    animation, from the last one back to the first, and the next
    change is due [frameDuration] later. *)
Theorem Animate_advances (now : F) (c : Character) :
  tables_ok c -> in_animation c ->
  if (now >? Siege.change c)%fl
  then exists c',
         Animate now c = Some c' /\ in_animation c' /\
         Siege.frame c' =
           Siege.startFrame c +
           (Siege.frame c - Siege.startFrame c + 1) mod Siege.nFrames c /\
         Siege.change c' = (now + Siege.frameDuration c)%fl
  else Animate now c = Some c.
Proof.
  intros H A.
  destruct (Animate_step now c H A) as [c1 [E1 [_ [A1 [_ [_ [_ F1]]]]]]].
  destruct (now >? Siege.change c)%fl eqn:D.
  - exists c1. split; [exact E1 |]. split; [exact A1 |]. split; [exact F1 |].
    revert E1. unfold Siege.Animate. rewrite D.
    rewrite SetFrame_defined by (cbn; unfold tables_ok in H; tauto).
    intros E1. injection E1 as <-. reflexivity.
  - unfold Siege.Animate. rewrite D. reflexivity.
Qed.

(** X30: on a sound character, a hit that brings [health] to zero or
    below kills: [Hurting] returns with [IsDead] set, the movement
    stopped and the damage subtracted; [Death] then changes nothing any
    more. *)
Theorem Hurting_kills (dmg : Z) (c : Character) :
  tables_ok c -> INT_MIN <= Siege.health c - dmg <= 0 ->
  exists c',
    Hurting dmg c = Some c' /\ Siege.IsDead c' = true /\
    Siege.IsMoving c' = false /\ Siege.health c' = Siege.health c - dmg /\
    Death c' = Some c'.
Proof.
  intros H Hh.
  destruct (Hurting_defined dmg c H) as [c1 [E1 [_ [H1 [M1 [_ D1]]]]]].
  rewrite wrap_int_id in H1, D1 by (unfold INT_MAX, INT_MIN in *; lia).
  exists c1. split; [exact E1 |]. split; [apply D1; lia |].
  split; [exact M1 |]. split; [exact H1 |].
  unfold Siege.Death. rewrite D1 by lia. reflexivity.
Qed.

End SiegeFacts.

Lemma archer_tables_ok : tables_ok archer.
Proof. unfold tables_ok, INT_MAX. cbn. lia. Qed.

Lemma calls_defined_witness :
  let ks := [Siege.CallMoving; Siege.CallAnimate (b32 1); Siege.CallHurting 100;
             Siege.CallDeath; Siege.CallUpdatePosition] in
  exists c',
    Siege.invoke_all plain_position plain_SetUVforFrame plain_Release
      plain_SetPosition ks archer = Some c' /\
    same_tables archer c' /\ tables_ok c' /\
    (Siege.IsDead archer = true -> Siege.IsDead c' = true).
Proof.
  apply calls_defined; [exact archer_tables_ok | repeat constructor].
Defined.

Lemma animation_stays_in_range_witness :
  exists c',
    Siege.invoke_all plain_position plain_SetUVforFrame plain_Release
      plain_SetPosition
      (Siege.CallSetAnimation 2 :: map (@Siege.CallAnimate float32) [b32 1; b32 2; b32 3])
      archer = Some c' /\
    (10 <= Siege.frame c' <= 14)%Z /\ Siege.CurrentAnimation c' = 2%Z.
Proof.
  apply (animation_stays_in_range (vec2 float32) plain_position plain_SetUVforFrame
           plain_Release plain_SetPosition archer 2 10 14 [b32 1; b32 2; b32 3]).
  - exact archer_tables_ok.
  - cbn. lia.
  - reflexivity.
  - lia.
  - unfold INT_MAX. lia.
Defined.

Lemma archer_in_animation : in_animation archer.
Proof. unfold in_animation, INT_MAX. cbn. lia. Qed.

Lemma Animate_advances_witness :
  exists c',
    Siege.Animate plain_SetUVforFrame (b32 1) archer = Some c' /\ in_animation c' /\
    Siege.frame c' = 1%Z /\ Siege.change c' = (b32 1 + lit 1 10)%fl.
Proof.
  exact (Animate_advances (vec2 float32) plain_SetUVforFrame (b32 1) archer
           archer_tables_ok archer_in_animation).
Defined.

Lemma Hurting_kills_witness :
  exists c',
    Siege.Hurting plain_SetUVforFrame plain_Release 120 archer = Some c' /\
    Siege.IsDead c' = true /\ Siege.IsMoving c' = false /\
    Siege.health c' = (-20)%Z /\
    Siege.Death plain_SetUVforFrame plain_Release c' = Some c'.
Proof.
  apply (Hurting_kills (vec2 float32) plain_SetUVforFrame plain_Release 120 archer).
  - exact archer_tables_ok.
  - unfold INT_MIN. cbn. lia.
Defined.
